(** * hierarchy.py: index/fold partitioning and the result cache

    A shallow embedding of the parts of [hierarchy.py] that carry logic:
    [Stimulus.indices] / [Stimulus.get_indices] (named index subsets and
    k-fold splits), the signal/noise bookkeeping of [Clusters.__init__],
    and the result cache of [Clusters] ([build_param_str], [run_analysis],
    [merge_results], [load_results], [select_data]).

    Conventions.  A numpy integer array is a [list Z]; a Python dict whose
    order is irrelevant is a [gmap string _]; a dict whose iteration order
    is observed (the result entries, the keyword arguments) is an
    association list.  Python exceptions are values of [exn] carried by
    [result]. *)

From Stdlib Require Import ZArith QArith Floats Ascii String.
From stdpp Require Import base decidable option list list_numbers sorting
  strings pretty gmap.

Local Open Scope Z_scope.
Set Warnings "-clear-no-such-hyp,-register-all".

(** ** Exceptions *)

Inductive exn : Type :=
  | ValueError | KeyError | IndexError | TypeError
  | AssertionError | UnboundLocalError | IOError
  | AttributeError | ZeroDivisionError | NameError | EOFError
  | PicklingError.

Global Instance exn_eq_dec : EqDecision exn.
Proof. solve_decision. Defined.

Inductive result (A : Type) : Type :=
  | Ok (a : A)
  | Raise (e : exn).
Arguments Ok {A} a.
Arguments Raise {A} e.

Global Instance result_ret : MRet result := λ A a, Ok a.
Global Instance result_bind : MBind result := λ A B f m,
  match m with Ok a => f a | Raise e => Raise e end.

Definition of_option {A} (e : exn) (o : option A) : result A :=
  match o with Some a => Ok a | None => Raise e end.

(** [assert(b)] *)
Definition py_assert (b : bool) : result unit :=
  if b then Ok tt else Raise AssertionError.

(** ** The numpy functions used by [Stimulus] *)

Module Np.

(** [np.arange(a, b)] *)
Definition arange (a b : Z) : list Z := seqZ a (b - a).

(** [np.where(mask)[0]]: the positions at which [mask] holds. *)
Fixpoint where_from (i : Z) (mask : list bool) : list Z :=
  match mask with
  | [] => []
  | b :: rest =>
      if b then i :: where_from (i + 1) rest else where_from (i + 1) rest
  end.
Definition where_ (mask : list bool) : list Z := where_from 0 mask.

(** [np.sort] *)
Definition sort (l : list Z) : list Z := merge_sort Z.le l.

(** [np.unique]: sort, then keep one copy of each run of equal values. *)
Fixpoint dedup_adjacent (l : list Z) : list Z :=
  match l with
  | [] => []
  | x :: rest =>
      match rest with
      | [] => [x]
      | y :: _ => if x =? y then dedup_adjacent rest
                  else x :: dedup_adjacent rest
      end
  end.
Definition unique (l : list Z) : list Z := dedup_adjacent (sort l).

(** [np.intersect1d(a, b)]: the sorted, unique values that are in both
    arrays. *)
Definition intersect1d (a b : list Z) : list Z :=
  filter (λ x, x ∈ b) (unique a).

(** [numpy.cumsum] on a list of sizes. *)
Fixpoint cumsum_from (acc : nat) (l : list nat) : list nat :=
  match l with
  | [] => []
  | x :: rest => (acc + x)%nat :: cumsum_from (acc + x) rest
  end.
Definition cumsum : list nat → list nat := cumsum_from 0.

(** [ary[st:end]] for [0 <= st]; Python clamps at the end of the list. *)
Definition slice {A} (ary : list A) (st en : nat) : list A :=
  take (en - st) (drop st ary).

(** [np.array_split(ary, Nsections)] for an integer [Nsections]:
<<
    Neach_section, extras = divmod(Ntotal, Nsections)
    section_sizes = [0] + extras*[Neach_section+1]
                        + (Nsections-extras)*[Neach_section]
    div_points = array(section_sizes).cumsum()
    sub_arys = [ary[div_points[i]:div_points[i+1]] for i in range(Nsections)]
>>
    and [ValueError] when [Nsections <= 0]. *)
Definition section_sizes (Ntotal Nsections : nat) : list nat :=
  let Neach_section := (Ntotal / Nsections)%nat in
  let extras := (Ntotal mod Nsections)%nat in
  0%nat :: replicate extras (S Neach_section)
        ++ replicate (Nsections - extras) Neach_section.

Definition array_split {A} (ary : list A) (Nsections : Z)
  : result (list (list A)) :=
  if Nsections <=? 0 then Raise ValueError
  else
    let n := Z.to_nat Nsections in
    let div_points := cumsum (section_sizes (length ary) n) in
    Ok ((λ i, slice ary (nth i div_points 0%nat)
                        (nth (S i) div_points 0%nat)) <$> seq 0 n).

(** [np.array_split(ary, s)] for a string [s].  A string has a length,
    so numpy takes it for a sequence of division points:
<<
    Nsections = len(s) + 1
    div_points = [0] + list(s) + [Ntotal]
    sub_arys = [ary[div_points[i]:div_points[i+1]] for i in range(Nsections)]
>>
    A slice bounded by a character is a [TypeError]; the empty string
    gives the single piece [ary[0:Ntotal]]. *)
Definition array_split_str {A} (ary : list A) (s : string)
  : result (list (list A)) :=
  match s with
  | EmptyString => Ok [slice ary 0 (length ary)]
  | String _ _ => Raise TypeError
  end.

End Np.

(** ** Stimulus order *)

Record stimulus_entry := {
  stim_type : Z;
  gridcode : Z → Z → string;          (* the ['...%d...%d' % (p, q)] template *)
  gridcode_params : list Z * list Z;
  reverse_params : bool
}.

Definition gridcode_fmt (ty : string) (drc contrast : Z) : string :=
  "type_" +:+ ty +:+ "_drc" +:+ pretty drc
          +:+ "_dur25_contrast" +:+ pretty contrast.

Definition STIMULI : list stimulus_entry :=
  [ {| stim_type := 12; gridcode := gridcode_fmt "12";
       gridcode_params := ([1; 2], [20; 40]); reverse_params := false |};
    {| stim_type := 19; gridcode := gridcode_fmt "19";
       gridcode_params := (seqZ 1 15, [20; 40]); reverse_params := true |};
    {| stim_type := 25; gridcode := gridcode_fmt "25";
       gridcode_params := ([1; 2], [20; 40]); reverse_params := false |} ].

(** [itertools.product] of two lists. *)
Definition product {A B} (xs : list A) (ys : list B) : list (A * B) :=
  x ← xs; y ← ys; [(x, y)].

Definition stimulus_order (stim_types : list Z) : list string :=
  stimulus ← STIMULI;
  if bool_decide (stim_type stimulus ∈ stim_types) then
    let '(ps, qs) := gridcode_params stimulus in
    if reverse_params stimulus then
      (λ '(q, p), gridcode stimulus p q) <$> product qs ps
    else
      (λ '(p, q), gridcode stimulus p q) <$> product ps qs
  else [].

(** ** Stimulus *)

(** What [Stimulus.__init__] reads of one entry of the stimulus-grid
    store: the number of columns of ['grid'] and the ['contrast'] vector. *)
Record stim_info := {
  grid_columns : nat;
  contrast : list Z
}.

Record Stimulus := {
  stim_types : list Z;
  grid_file_codes : list string;
  segment_lengths : list nat;
  c_t : list (list Z);
  t_bins_from_onset : list (list Z)
}.

Inductive stim_types_arg := STInt (t : Z) | STList (ts : list Z).

Definition Stimulus_init (arg : stim_types_arg)
    (all_stimgrids : gmap string stim_info) : result Stimulus :=
  let stim_types := match arg with STInt t => [t] | STList ts => ts end in
  let codes := stimulus_order stim_types in
  infos ← mapM (λ code, of_option KeyError (all_stimgrids !! code)) codes;
  Ok {| stim_types := stim_types;
        grid_file_codes := codes;
        segment_lengths := grid_columns <$> infos;
        c_t := contrast <$> infos;
        t_bins_from_onset :=
          (λ i, Np.arange 0 (Z.of_nat (grid_columns i))) <$> infos |}.

(** [np.concatenate]: a [ValueError] when there is no array to
    concatenate. *)
Definition np_concatenate {A} (arrays : list (list A)) : result (list A) :=
  match arrays with
  | [] => Raise ValueError
  | _ => Ok (concat arrays)
  end.

Abbreviation idx_table := (gmap string (gmap string (list Z))).

(** [Stimulus.indices].  For any stimulus type other than [[12]] and
    [[19]] the local [idxes] is never bound and [return idxes] raises. *)
Definition indices (self : Stimulus) : result idx_table :=
  if bool_decide (stim_types self = [12]) then
    let all_all := Np.arange 0 6400 in
    all_lo ← np_concatenate [Np.arange 0 1600; Np.arange 3200 4800];
    all_hi ← np_concatenate [Np.arange 1600 3200; Np.arange 4800 6400];
    v_all ← np_concatenate
              [Np.arange 20 1600; Np.arange (1600 + 20) 3200;
               Np.arange (3200 + 20) 4800; Np.arange (4800 + 20) 6400];
    Ok ({[ "all" := {[ "all" := all_all; "lo" := all_lo; "hi" := all_hi ]};
           "valid20" := {[ "all" := v_all;
                           "lo" := Np.intersect1d v_all all_lo;
                           "hi" := Np.intersect1d v_all all_hi ]} ]})
  else if bool_decide (stim_types self = [19]) then
    let n_t := sum_list (segment_lengths self) in
    c_t ← np_concatenate (c_t self);
    t_bins_from_onset ← np_concatenate (t_bins_from_onset self);
    let all_all := Np.arange 0 (Z.of_nat n_t) in
    let all_lo := Np.where_ ((λ c, bool_decide (c = 0)) <$> c_t) in
    let all_hi := Np.where_ ((λ c, bool_decide (c = 1)) <$> c_t) in
    let v_all := Np.where_ ((λ t, bool_decide (20 ≤ t)) <$> t_bins_from_onset) in
    Ok ({[ "all" := {[ "all" := all_all; "lo" := all_lo; "hi" := all_hi ]};
           "valid20" := {[ "all" := v_all;
                           "lo" := Np.intersect1d v_all all_lo;
                           "hi" := Np.intersect1d v_all all_hi ]} ]})
  else Raise UnboundLocalError.

(** [all_idxes[spec[0]][spec[1]]] *)
Definition lookup_subset (self : Stimulus) (spec : string * string)
  : result (list Z) :=
  all_idxes ← indices self;
  by_contrast ← of_option KeyError (all_idxes !! spec.1);
  of_option KeyError (by_contrast !! spec.2).

(** The [k_folds] argument: a string (['all_train']), [None] or an int. *)
Inductive k_folds_arg := KStr (s : string) | KNone | KInt (k : Z).

(** One fold: the pair [(train, test)]. *)
Abbreviation fold := (list Z * list Z)%type.

(** The loop building one [(train, test)] pair per split. *)
Definition build_folds (splits : list (list Z)) : result (list fold) :=
  mapM (λ i,
          test ← of_option IndexError (splits !! i);
          train ← np_concatenate (take i splits ++ drop (S i) splits);
          Ok (train, test))
       (seq 0 (length splits)).

(** [len(set(train).intersection(set(test))) == 0] *)
Definition no_overlap (f : fold) : bool :=
  bool_decide (size ((list_to_set f.1 : gset Z) ∩ list_to_set f.2) = 0%nat).

(** [[f for i, f in enumerate(k_folds) if i in fold_idxes_to_include]] *)
Definition select_folds (include : list Z) (k_folds : list fold) : list fold :=
  snd <$> filter (λ p, Z.of_nat p.1 ∈ include)
                 (zip (seq 0 (length k_folds)) k_folds).

(** [k_folds == 'all_train'] *)
Definition is_all_train (k_folds : k_folds_arg) : bool :=
  match k_folds with
  | KStr s => bool_decide (s = "all_train")
  | _ => false
  end.

(** [k_folds == None or k_folds == 1] *)
Definition is_none_or_one (k_folds : k_folds_arg) : bool :=
  match k_folds with
  | KNone => true
  | KInt k => bool_decide (k = 1)
  | KStr _ => false
  end.

(** [np.array_split(idxes, k_folds)] *)
Definition array_split_by {A} (ary : list A) (k_folds : k_folds_arg)
  : result (list (list A)) :=
  match k_folds with
  | KInt k => Np.array_split ary k
  | KStr s => Np.array_split_str ary s
  | KNone => Raise TypeError
  end.

Definition get_indices (self : Stimulus) (spec : string * string)
    (k_folds : k_folds_arg) (fold_idxes_to_include : option (list Z))
  : result (list fold) :=
  idxes ← lookup_subset self spec;
  if is_all_train k_folds then Ok [(idxes, [])]
  else if is_none_or_one k_folds then
    splits ← Np.array_split idxes 10;
    train ← np_concatenate (take (length splits - 1) splits);
    test ← of_option IndexError (last splits);
    Ok [(train, test)]
  else
    splits ← array_split_by idxes k_folds;
    k_folds ← build_folds splits;
    (* checks *)
    _ ← py_assert (forallb no_overlap k_folds);
    tests ← np_concatenate (snd <$> k_folds);
    let all_test := Np.sort tests in
    _ ← py_assert (bool_decide (all_test = idxes));
    (* select only certain folds *)
    match fold_idxes_to_include with
    | Some ((_ :: _) as include) => Ok (select_folds include k_folds)
    | _ => Ok k_folds
    end.

(** ** Python values *)

(** The values that travel through the cache layer.  A dict inside a
    value keeps its insertion order; a class or function object is
    represented by its [__name__]. *)
Inductive value : Type :=
  | VNone
  | VBool (b : bool)
  | VInt (z : Z)
  | VFloat (f : float)
  | VStr (s : string)
  | VList (items : list value)
  | VDict (items : list (string * value))
  | VClass (name : string)
  | VFunc (name : string).

(** An insertion-ordered dict with string keys. *)
Abbreviation dict := (list (string * value)).

(** One cluster: the dict [d] assembled by [Clusters.__init__]; the order
    of its keys is never observed. *)
Abbreviation cluster := (gmap string value).

Module Dict.

(** [d[k]] *)
Fixpoint get (k : string) (d : dict) : option value :=
  match d with
  | [] => None
  | (k', v) :: rest => if bool_decide (k' = k) then Some v else get k rest
  end.

(** [d[k] = v]: an existing key keeps its position, a new key goes last. *)
Fixpoint set (k : string) (v : value) (d : dict) : dict :=
  match d with
  | [] => [(k, v)]
  | (k', v') :: rest =>
      if bool_decide (k' = k) then (k, v) :: rest else (k', v') :: set k v rest
  end.

(** [d.update(other)] *)
Definition update (d other : dict) : dict :=
  foldl (λ acc kv, set kv.1 kv.2 acc) d other.

(** [list(d)] *)
Definition keys (d : dict) : list string := fst <$> d.

End Dict.

(** The order of an int and a float, which Python decides exactly, on
    the value [(-1)^s * m * 2^e] of the float: [None] when the float is
    NaN.  (A numpy float64 first converts the int; that gives the same
    for every [|x| <= 2^53].) *)
Definition compare_int_float (x : Z) (g : float) : option comparison :=
  match Prim2SF g with
  | S754_nan => None
  | S754_infinity neg => Some (if neg then Gt else Lt)
  | S754_zero _ => Some (x ?= 0)
  | S754_finite neg m e =>
      let v := if neg then Z.neg m else Z.pos m in
      Some (if 0 <=? e then x ?= v * 2 ^ e else x * 2 ^ (- e) ?= v)
  end.

(** [a == b] (with the identity shortcut of containment tests).  Numbers
    compare across [bool], [int] and [float]; a class or a function is
    equal to itself only. *)
Definition as_number (v : value) : option (Z + float) :=
  match v with
  | VBool b => Some (inl (if b then 1 else 0))
  | VInt z => Some (inl z)
  | VFloat f => Some (inr f)
  | _ => None
  end.

Definition number_eq (a b : Z + float) : bool :=
  match a, b with
  | inl x, inl y => bool_decide (x = y)
  | inl x, inr g =>
      match compare_int_float x g with Some Eq => true | _ => false end
  | inr f, inl y =>
      match compare_int_float y f with Some Eq => true | _ => false end
  | inr f, inr g => PrimFloat.eqb f g
  end.

Fixpoint py_eq (a b : value) {struct a} : bool :=
  match a, b with
  | VNone, VNone => true
  | VStr s, VStr t => bool_decide (s = t)
  | VClass s, VClass t => bool_decide (s = t)
  | VFunc s, VFunc t => bool_decide (s = t)
  | VList xs, VList ys =>
      (fix go (xs ys : list value) : bool :=
         match xs, ys with
         | [], [] => true
         | x :: xs', y :: ys' => py_eq x y && go xs' ys'
         | _, _ => false
         end) xs ys
  | VDict d, VDict e =>
      bool_decide (length d = length e) &&
      (fix go (d : dict) : bool :=
         match d with
         | [] => true
         | (k, v) :: d' =>
             match Dict.get k e with
             | Some w => py_eq v w
             | None => false
             end && go d'
         end) d
  | _, _ =>
      match as_number a, as_number b with
      | Some x, Some y => number_eq x y
      | _, _ => false
      end
  end.

(** [x in l] for a list [l] *)
Definition py_in (x : value) (l : list value) : bool :=
  existsb (λ y, py_eq y x) l.

(** truth value of an object *)
Definition truthy (v : value) : bool :=
  match v with
  | VNone => false
  | VBool b => b
  | VInt z => negb (z =? 0)
  | VFloat f => negb (PrimFloat.eqb f 0)
  | VStr s => negb (bool_decide (s = ""))
  | VList l => negb (bool_decide (length l = 0%nat))
  | VDict d => negb (bool_decide (length d = 0%nat))
  | VClass _ | VFunc _ => true
  end.

(** ** Strings and paths *)

Module Str.

(** [sep.join(parts)] *)
Fixpoint join (sep : string) (parts : list string) : string :=
  match parts with
  | [] => ""
  | [p] => p
  | p :: rest => p +:+ sep +:+ join sep rest
  end.

(** [s.split(sep)[-1]] for a one-character separator: what follows the
    last occurrence of [sep] (all of [s] when there is none). *)
Fixpoint after_last (sep : Ascii.ascii) (s acc : string) : string :=
  match s with
  | EmptyString => acc
  | String c rest =>
      if bool_decide (c = sep) then after_last sep rest ""
      else after_last sep rest (acc +:+ String c "")
  end.
Definition split_last (sep : Ascii.ascii) (s : string) : string :=
  after_last sep s "".

(** [s.endswith(suffix)] *)
Definition endswith (s suffix : string) : bool :=
  String.prefix (String.rev suffix) (String.rev s).

(** [sub in s] *)
Fixpoint contains (sub s : string) : bool :=
  String.prefix sub s ||
  match s with
  | EmptyString => false
  | String _ rest => contains sub rest
  end.

(** [s.rfind(c)] *)
Fixpoint rfind_from (c : Ascii.ascii) (s : string) (i : nat) (found : option nat)
  : option nat :=
  match s with
  | EmptyString => found
  | String c' rest =>
      rfind_from c rest (S i) (if bool_decide (c' = c) then Some i else found)
  end.
Definition rfind (c : Ascii.ascii) (s : string) : option nat :=
  rfind_from c s 0 None.

End Str.

(** File-system paths are strings with ["/"] between the components.
    The components are taken as pathlib keeps them: none is empty or
    ["."], and the directory on the left of [/] is not the root. *)
Module Path.

(** [p / name]: an absolute [name] replaces [p] *)
Definition div (p name : string) : string :=
  if String.prefix "/" name then name else p +:+ "/" +:+ name.

(** [Path(a, b, ...)] *)
Definition make (parts : list string) : string :=
  match parts with
  | [] => "."
  | p :: rest => foldl div p rest
  end.

(** [p.name]: the final component *)
Definition name (p : string) : string := Str.split_last "/"%char p.

(** [p.suffix]: the last dot of the final component and what follows,
    unless that dot is its first or its last character *)
Definition suffix (p : string) : string :=
  let n := name p in
  match Str.rfind "."%char n with
  | Some i =>
      if bool_decide (0 < i ∧ i < String.length n - 1)%nat
      then String.substring i (String.length n - i) n
      else ""
  | None => ""
  end.

(** [p.with_suffix(s)]: [ValueError] when [p] has no name *)
Definition with_suffix (p s : string) : result string :=
  if bool_decide (name p = "") then Raise ValueError
  else
    Ok (String.substring 0 (String.length p - String.length (suffix p)) p
          +:+ s).

End Path.

(** ** Analysis functions and the runtime *)

(** An analysis function: its [__name__] and what
    [func(cluster, clusters, **params)] returns or raises.  Analysis
    functions are taken to be pure. *)
Record callable := {
  fn_name : string;
  fn_call : cluster → list cluster → dict → result value
}.

(** [func] is passed either by name or as a function object. *)
Inductive func_arg := FStr (s : string) | FCallable (f : callable).

(** One entry of the [ANALYSES] table, with its keys ['func'] and
    ['params'] (and ['description'], which is only printed). *)
Record analysis := {
  analysis_func : string;
  analysis_params : dict
}.

(** What the module takes from the Python process it runs in: [str] on
    parameter values (for a set or an object with the default [repr] it
    differs from one process to the next), [eval] in the module's
    globals, the exception [pickle.dump] raises on a value it cannot
    pickle ([None] when it can), the root directory found at import time,
    and the table of named analyses. *)
Class Runtime := {
  py_str : value → string;
  py_eval : string → result callable;
  py_pickle_error : value → option exn;
  HIERARCHY_ROOT : string;
  ANALYSES : gmap string (gmap string analysis)
}.

(** ** The state: a [Clusters] object, the files, and the calls made *)

Record world := {
  self_stim_types : list Z;          (* self.stim_types *)
  self_clusters : list cluster;      (* self.clusters *)
  files : gmap string value;         (* path -> unpickled content *)
  truncated : gset string;           (* paths of the files that a failed
                                        dump left without a whole pickle;
                                        a path of [files] holds one *)
  calls : list cluster               (* clusters [func] was applied to *)
}.

Definition set_clusters (cs : list cluster) (w : world) : world :=
  {| self_stim_types := self_stim_types w; self_clusters := cs;
     files := files w; truncated := truncated w; calls := calls w |}.
Definition set_files (fs : gmap string value) (w : world) : world :=
  {| self_stim_types := self_stim_types w; self_clusters := self_clusters w;
     files := fs; truncated := truncated w; calls := calls w |}.
Definition set_truncated (ts : gset string) (w : world) : world :=
  {| self_stim_types := self_stim_types w; self_clusters := self_clusters w;
     files := files w; truncated := ts; calls := calls w |}.
Definition log_call (c : cluster) (w : world) : world :=
  {| self_stim_types := self_stim_types w; self_clusters := self_clusters w;
     files := files w; truncated := truncated w; calls := calls w ++ [c] |}.

(** [path.exists()]: the file holds a pickle, or was opened for writing
    and left without one *)
Definition path_exists (path : string) (w : world) : bool :=
  bool_decide (is_Some (files w !! path)) || bool_decide (path ∈ truncated w).

(** Computations that read and write the state and may raise; the state
    reached when the exception is raised is kept. *)
Definition M (A : Type) : Type := world → result A * world.

Global Instance M_ret : MRet M := λ A a w, (Ok a, w).
Global Instance M_bind : MBind M := λ A B f m w,
  match m w with
  | (Ok a, w') => f a w'
  | (Raise e, w') => (Raise e, w')
  end.

Definition lift {A} (r : result A) : M A := λ w, (r, w).
Definition gets {A} (f : world → A) : M A := λ w, (Ok (f w), w).
Definition modify (f : world → world) : M unit := λ w, (Ok tt, f w).

(** [try: body  except <handled>: handler] *)
Definition try_except {A} (body : M A) (handled : exn → bool) (handler : M A)
  : M A := λ w,
  match body w with
  | (Raise e, w') => if handled e then handler w' else (Raise e, w')
  | ok => ok
  end.

(** [for x in xs: acc = body(acc, x)] *)
Fixpoint for_fold {A B} (body : B → A → M B) (acc : B) (xs : list A) : M B :=
  match xs with
  | [] => mret acc
  | x :: rest => acc' ← body acc x; for_fold body acc' rest
  end.

(** [for x in xs: body(x)] *)
Definition for_each {A} (body : A → M unit) (xs : list A) : M unit :=
  for_fold (λ _ x, body x) tt xs.

(** ** Operations on values *)

(** [v[k]] for a string key *)
Definition getitem (v : value) (k : string) : result value :=
  match v with
  | VDict d => of_option KeyError (Dict.get k d)
  | _ => Raise TypeError
  end.

(** [cluster[k]] *)
Definition cluster_get (c : cluster) (k : string) : result value :=
  of_option KeyError (c !! k).

(** [list(v)]: what a [for] loop over [v] visits *)
Definition py_iter (v : value) : result (list value) :=
  match v with
  | VList l => Ok l
  | VDict d => Ok (VStr <$> Dict.keys d)
  | VStr s => Ok ((λ c, VStr (String c "")) <$> list_ascii_of_string s)
  | _ => Raise TypeError
  end.

(** [k in v] for a string [k] *)
Definition py_contains (k : string) (v : value) : result bool :=
  match v with
  | VDict d => Ok (bool_decide (k ∈ Dict.keys d))
  | VStr s => Ok (Str.contains k s)
  | VList l => Ok (py_in (VStr k) l)
  | _ => Raise TypeError
  end.

(** [res.append(r)] *)
Definition py_append (res r : value) : result value :=
  match res with
  | VList l => Ok (VList (l ++ [r]))
  | _ => Raise AttributeError
  end.

(** ** Segments of the cluster list *)

(** [ceil(n / t)] for ints [n] and [t] (the quotient is exact in floating
    point for every list length below 2^53) *)
Definition ceil_div (n t : Z) : result Z :=
  if t =? 0 then Raise ZeroDivisionError else Ok (- ((- n) / t)).

(** [l[a:b]]; a negative index counts from the end *)
Definition py_slice {A} (l : list A) (a b : Z) : list A :=
  let n := Z.of_nat (length l) in
  let norm i := if i <? 0 then Z.max (i + n) 0 else Z.min i n in
  take (Z.to_nat (norm b - norm a)) (drop (Z.to_nat (norm a)) l).

(** [self.clusters[first_cluster_idx:first_cluster_idx+segment_length]] *)
Definition segment_window {A} (clusters : list A)
    (this_data_segment total_data_segments : Z) : result (list A) :=
  segment_length ← ceil_div (Z.of_nat (length clusters)) total_data_segments;
  let first_cluster_idx := (this_data_segment - 1) * segment_length in
  Ok (py_slice clusters first_cluster_idx (first_cluster_idx + segment_length)).

(** ** [Clusters.select_data] *)

(** [math.isnan(v)] *)
Definition py_isnan (v : value) : result bool :=
  match as_number v with
  | Some (inr f) => Ok (PrimFloat.is_nan f)
  | Some (inl _) => Ok false
  | None => Raise TypeError
  end.

(** [a <= b] between numbers; an int and a float are compared exactly *)
Definition number_le (a b : Z + float) : bool :=
  match a, b with
  | inl x, inl y => bool_decide (x ≤ y)
  | inl x, inr g =>
      match compare_int_float x g with
      | Some Lt | Some Eq => true
      | _ => false
      end
  | inr f, inl y =>
      match compare_int_float y f with
      | Some Gt | Some Eq => true
      | _ => false
      end
  | inr f, inr g => PrimFloat.leb f g
  end.

(** [a <= b] for a number [a] *)
Definition py_le (a b : value) : result bool :=
  match as_number a, as_number b with
  | Some x, Some y => Ok (number_le x y)
  | _, _ => Raise TypeError
  end.

(** [[c for c in clusters if keep(c)]] where [keep] may raise *)
Fixpoint filter_result {A} (keep : A → result bool) (l : list A)
  : result (list A) :=
  match l with
  | [] => Ok []
  | x :: rest =>
      b ← keep x;
      kept ← filter_result keep rest;
      Ok (if (b : bool) then x :: kept else kept)
  end.

(** One keyword of [select_data]. *)
Definition select_step (clusters : list cluster) (kw_vals : string * value)
  : result (list cluster) :=
  let '(kw, vals) := kw_vals in
  if bool_decide (kw = "noiseratio") then
    if negb (py_in vals [VStr "inf"; VFloat infinity]) then
      clusters ← filter_result
                   (λ c, nr ← cluster_get c "noiseratio";
                         b ← py_isnan nr; Ok (negb b))
                   clusters;
      filter_result (λ c, nr ← cluster_get c "noiseratio"; py_le nr vals)
                    clusters
    else Ok clusters
  else
    let vals := match vals with VList items => items | v => [v] end in
    if String.prefix "exclude_" kw then
      let kw := String.substring 8 (String.length kw - 8) kw in
      filter_result (λ c, v ← cluster_get c kw; Ok (negb (py_in v vals)))
                    clusters
    else
      first ← of_option IndexError (head vals);
      if py_eq first (VStr "*") then
        Ok (filter (λ c : cluster, is_Some (c !! kw)) clusters)
      else
        filter_result (λ c, v ← cluster_get c kw; Ok (py_in v vals)) clusters.

(** [Clusters.select_data], with the keyword arguments in call order *)
Definition select_data (kwargs : dict) (clusters : list cluster)
  : result (list cluster) :=
  foldl (λ acc kw_vals, cs ← acc; select_step cs kw_vals) (Ok clusters) kwargs.

(** ** Signal and noise power in [Clusters.__init__] *)

(** What [sahani_quick] returns. *)
Record powers := {
  signal_power : float;
  noise_power : float;
  total_power : float
}.

(** The power entries of [cond] for one light condition of an
    optogenetic cluster. *)
Definition condition_power_fields (p : powers) : dict :=
  [ ("signal_power", VFloat (signal_power p));
    ("noise_power", VFloat (noise_power p));
    ("total_power", VFloat (total_power p));
    ("noiseratio",
       VFloat (if PrimFloat.eqb (signal_power p) 0 then PrimFloat.nan
               else PrimFloat.div (noise_power p) (signal_power p))) ].

(** The power entries written into [d] by the loop body of
    [Clusters.__init__]: [whole] is [sahani_quick(d['y_td'])] and
    [per_condition] is [sahani_quick(cond['y_td'])] for ['light_off'] and
    ['light_on'].  The powers are float64, whose division does not
    raise. *)
Definition init_power_fields (d : cluster) (whole : powers)
    (per_condition : string → powers) : result cluster :=
  optogenetic ← cluster_get d "optogenetic";
  let d := <["optogenetic" := VBool (truthy optogenetic)]> d in
  if truthy optogenetic then
    let d :=
      foldl (λ d cond_name,
               <[cond_name :=
                   VDict (condition_power_fields (per_condition cond_name))]> d)
            d ["light_off"; "light_on"] in
    (* make 'light off' condition the primary data set *)
    light_off ← cluster_get d "light_off";
    match light_off with
    | VDict items => Ok (foldl (λ m kv, <[kv.1 := kv.2]> m) d items)
    | _ => Raise TypeError
    end
  else
    Ok (<["noiseratio" :=
            VFloat (PrimFloat.div (noise_power whole) (signal_power whole))]>
        (<["total_power" := VFloat (total_power whole)]>
         (<["noise_power" := VFloat (noise_power whole)]>
          (<["signal_power" := VFloat (signal_power whole)]> d)))).

(** ** [Clusters.get_sorted] *)

(** [Clusters.get_sorted], with the keyword arguments in call order;
    [clusters] is [self.clusters]. *)
Definition get_sorted (kwargs : dict) (clusters : list cluster)
  : result (list cluster) :=
  let key := Dict.keys kwargs in
  if bool_decide (1 < length key)%nat then Raise ValueError
  else
    key ← of_option IndexError (head key);
    vals ← mapM (λ c, cluster_get c key) clusters;
    wanted ← of_option KeyError (Dict.get key kwargs);
    wanted ← py_iter wanted;
    mapM (λ val,
            found ← of_option ValueError
                      (list_find (λ v, py_eq v val = true) vals);
            of_option IndexError (clusters !! found.1))
         wanted.

(** ** [Clusters.find_missing_results] *)

(** [x in v] *)
Definition py_in_value (x v : value) : result bool :=
  match v with
  | VList l => Ok (py_in x l)
  | VStr _ | VDict _ =>
      match x with
      | VStr k => py_contains k v
      | VList _ | VDict _ => Raise TypeError
      | _ => match v with VDict _ => Ok false | _ => Raise TypeError end
      end
  | _ => Raise TypeError
  end.

(** [a < b] between numbers; an int and a float are compared exactly *)
Definition number_lt (a b : Z + float) : bool :=
  match a, b with
  | inl x, inl y => bool_decide (x < y)
  | inl x, inr g =>
      match compare_int_float x g with Some Lt => true | _ => false end
  | inr f, inl y =>
      match compare_int_float y f with Some Gt => true | _ => false end
  | inr f, inr g => PrimFloat.ltb f g
  end.

(** [a > b] for a number [a] *)
Definition py_gt (a b : value) : result bool :=
  match as_number a, as_number b with
  | Some x, Some y => Ok (number_lt y x)
  | _, _ => Raise TypeError
  end.

(** Whether the loop of [find_missing_results] reaches its last test for
    the cluster [c], none of the three [continue]s being taken; [state]
    is the list after the default has been filled in. *)
Definition expects_result (noiseratio state optogenetic : value) (c : cluster)
  : result bool :=
  (* check whether this unit has the correct awake/anaesthetised state *)
  st ← cluster_get c "state";
  wrong_state ← (if negb (py_eq st state)
                 then b ← py_in_value st state; Ok (negb b)
                 else Ok false);
  if (wrong_state : bool) then Ok false
  else
    not_opto ← (if truthy optogenetic
                then o ← cluster_get c "optogenetic"; Ok (negb (truthy o))
                else Ok false);
    if (not_opto : bool) then Ok false
    else
      (* if a noise ratio threshold is specified, skip units that are
         above it *)
      if negb (py_in noiseratio [VStr "inf"; VFloat infinity]) then
        nr ← cluster_get c "noiseratio";
        is_nan ← py_isnan nr;
        above ← (if (is_nan : bool) then Ok true
                 else nr ← cluster_get c "noiseratio"; py_gt nr noiseratio);
        Ok (negb above)
      else Ok true.

(** [Clusters.find_missing_results]: the pair [(missing, n_found)] *)
Definition find_missing_results (fieldname : string)
    (noiseratio state optogenetic : value) (clusters : list cluster)
  : result (list value * nat) :=
  let state := if negb (truthy state)
               then VList [VStr "anaesthetised"; VStr "awake"] else state in
  foldl (λ acc c,
           '(missing, n_found) ← acc;
           expected ← expects_result noiseratio state optogenetic c;
           if (expected : bool) then
             (* otherwise, expect a result *)
             if bool_decide (is_Some (c !! fieldname))
             then Ok (missing, S n_found)
             else uid ← cluster_get c "unique_id"; Ok (missing ++ [uid], n_found)
           else Ok (missing, n_found))
        (Ok ([], 0%nat)) clusters.

(** ** The result cache of [Clusters] *)

Section clusters.
Context `{Runtime}.

(** [func] if it is a [str], else [func.__name__] *)
Definition func_label (func : func_arg) : string :=
  match func with
  | FStr s => s
  | FCallable f => fn_name f
  end.

(** [if isinstance(func, str): func = eval(func)] *)
Definition resolve_func (func : func_arg) : result callable :=
  match func with
  | FStr s => py_eval s
  | FCallable f => Ok f
  end.

(** [str(v)]: fixed for [str], [int], [bool] and [None], left to the
    runtime for the other objects. *)
Definition str_of (v : value) : string :=
  match v with
  | VStr s => s
  | VInt z => pretty z
  | VBool b => if b then "True" else "False"
  | VNone => "None"
  | _ => py_str v
  end.

(** What [build_param_str] and [build_fieldname] make of one parameter
    value; [sep] joins the items of a list. *)
Definition param_value_str (sep : string) (v : value) : string :=
  match v with
  | VClass name => Str.split_last "."%char name
  | VList items => Str.join sep (str_of <$> items)
  | _ => str_of v
  end.

Definition build_param_str (func : func_arg) (params : dict) : string :=
  Str.join "--"
    (func_label func
       :: ((λ '(name, v), name +:+ "=" +:+ param_value_str "-" v) <$> params)).

Definition build_fieldname (func : func_arg) (params : dict) : string :=
  Str.join "__"
    (func_label func
       :: ((λ '(name, v), name +:+ "_" +:+ param_value_str "_" v) <$> params)).

(** [self.results_subdir] *)
Definition results_subdir (stim_types : list Z) : string :=
  "stim-" +:+ Str.join "-" (pretty <$> stim_types).

(** The single results file of [run_analysis]:
    [Path(Path(HIERARCHY_ROOT, 'results', self.results_subdir),
          self.build_param_str(func, params)).with_suffix('.pkl')] *)
Definition run_analysis_results_path (stim_types : list Z) (func : func_arg)
    (params : dict) : result string :=
  let results_dir :=
    Path.make [HIERARCHY_ROOT; "results"; results_subdir stim_types] in
  let filename := build_param_str func params in
  Path.with_suffix (Path.make [results_dir; filename]) ".pkl".

(** The directory of [run_analysis] with [multiple_results_files]:
    [Path(HIERARCHY_ROOT, 'results', self.results_subdir, raw_param_str)] *)
Definition run_analysis_results_dir (stim_types : list Z) (func : func_arg)
    (params : dict) : string :=
  Path.make [HIERARCHY_ROOT; "results"; results_subdir stim_types;
             build_param_str func params].

(** The file [load_results] opens first. *)
Definition load_results_path (stim_types : list Z) (func : func_arg)
    (params : dict) : result string :=
  let results_dir :=
    Path.make [HIERARCHY_ROOT; "results"; results_subdir stim_types] in
  let filename := build_param_str func params in
  Path.with_suffix (Path.make [results_dir; filename]) ".pkl".

(** The directory [load_results] lists when there is no single file. *)
Definition load_results_dir (stim_types : list Z) (func : func_arg)
    (params : dict) : string :=
  Path.make [HIERARCHY_ROOT; "results"; results_subdir stim_types;
             build_param_str func params].

(** [open(path, 'rb')] then [pickle.load]: the value of a file that holds
    a pickle, [EOFError] for a file that holds no whole pickle, [IOError]
    when there is no file *)
Definition load_pickle (path : string) : M value :=
  λ w, (match files w !! path with
        | Some v => Ok v
        | None => if bool_decide (path ∈ truncated w) then Raise EOFError
                  else Raise IOError
        end, w).

(** The state after a dump that succeeded, and after one that failed. *)
Definition with_pickle (path : string) (v : value) (w : world) : world :=
  set_truncated (truncated w ∖ {[path]}) (set_files (<[path := v]> (files w)) w).
Definition without_pickle (path : string) (w : world) : world :=
  set_truncated ({[path]} ∪ truncated w) (set_files (delete path (files w)) w).

(** [open(path, 'wb')] then [pickle.dump(v, file)].  Opening the file for
    writing empties it; when [pickle.dump] then raises, the file stays
    without a pickle. *)
Definition dump_pickle (path : string) (v : value) : M unit :=
  λ w, match py_pickle_error v with
       | None => (Ok tt, with_pickle path v w)
       | Some e => (Raise e, without_pickle path w)
       end.

(** [Clusters.apply_func_to_cluster]; [clusters] is [self]. *)
Definition apply_func_to_cluster (func : callable) (c : cluster)
    (params : dict) (fail_on_error : bool) : M value :=
  clusters ← gets self_clusters;
  _ ← modify (log_call c);
  result ← (if fail_on_error then lift (fn_call func c clusters params)
            else try_except (lift (fn_call func c clusters params))
                            (λ _, true) (mret VNone));
  if negb (truthy result) then mret VNone
  else
    uid ← lift (cluster_get c "unique_id");
    mret (VDict (Dict.set (fn_name func) result [("unique_id", uid)])).

(** [unique_ids.index(entry['unique_id'])] *)
Definition entry_index (unique_ids : list value) (entry : value) : result nat :=
  uid ← getitem entry "unique_id";
  found ← of_option ValueError
            (list_find (λ u, py_eq u uid = true) unique_ids);
  Ok found.1.

(** [entry[[f for f in entry if f not in ['unique_id']][0]]] *)
Definition entry_payload (entry : value) : result value :=
  ks ← py_iter entry;
  old_fieldname ← of_option IndexError
                    (head (filter (λ k, py_in k [VStr "unique_id"] = false) ks));
  match entry, old_fieldname with
  | VDict d, VStr k => of_option KeyError (Dict.get k d)
  | _, _ => Raise TypeError
  end.

(** [if new_fieldname:] *)
Definition fieldname_given (new_fieldname : option string) : option string :=
  match new_fieldname with
  | Some f => if bool_decide (f = "") then None else Some f
  | None => None
  end.

(** [d.update(entry)] on a cluster *)
Definition cluster_update (d : cluster) (entry : value) : result cluster :=
  match entry with
  | VDict items => Ok (foldl (λ m kv, <[kv.1 := kv.2]> m) d items)
  | _ => Raise TypeError
  end.

(** What the merge of [entry] makes of the cluster [target]:
    [target[new_fieldname] = entry[old_fieldname]] when [new_fieldname]
    is given, else [target.update(entry)]. *)
Definition merged_cluster (new_fieldname : option string) (target : cluster)
    (entry : value) : result cluster :=
  match fieldname_given new_fieldname with
  | Some f => v ← entry_payload entry; Ok (<[f := v]> target)
  | None => cluster_update target entry
  end.

(** The body shared by the two loops of [merge_results]. *)
Definition merge_one (unique_ids : list value) (new_fieldname : option string)
    (entry : value) : M unit :=
  idx ← lift (entry_index unique_ids entry);
  clusters ← gets self_clusters;
  target ← lift (of_option IndexError (clusters !! idx));
  updated ← lift (merged_cluster new_fieldname target entry);
  modify (set_clusters (<[idx := updated]> clusters)).

(** The file named by an argument of [merge_results]:
    [filename] itself when it ends in ['.pkl'], else
    ['results/%s/' % (self.results_subdir) + filename + '.pkl'] *)
Definition results_filename (stim_types : list Z) (filename : string) : string :=
  if Str.endswith filename ".pkl" then filename
  else "results/" +:+ results_subdir stim_types +:+ "/" +:+ filename +:+ ".pkl".

(** [Clusters.merge_results] *)
Definition merge_results (filenames_or_res : value)
    (new_fieldname : option string) : M unit :=
  clusters ← gets self_clusters;
  unique_ids ← lift (mapM (λ d, cluster_get d "unique_id") clusters);
  is_res ← lift (match filenames_or_res with
                 | VList items =>
                     first ← of_option IndexError (head items);
                     py_contains "unique_id" first
                 | _ => Ok false
                 end);
  if (is_res : bool) then
    entries ← lift (py_iter filenames_or_res);
    for_each (merge_one unique_ids new_fieldname) entries
  else
    let filenames := match filenames_or_res with
                     | VList items => items
                     | v => [v]
                     end in
    stim_types ← gets self_stim_types;
    for_each
      (λ filename,
         filename ← lift (match filename with
                          | VStr s => Ok s
                          | _ => Raise AttributeError
                          end);
         data ← load_pickle (results_filename stim_types filename);
         entries ← lift (py_iter data);
         for_each (merge_one unique_ids new_fieldname) entries)
      filenames.

End clusters.

Section clusters_io.
Context `{Runtime}.

(** [func] as the value stored under ['analysis_func'] *)
Definition func_value (func : func_arg) : value :=
  match func with
  | FStr s => VStr s
  | FCallable f => VFunc (fn_name f)
  end.

(** [keys = [k for k in r.keys() if k != 'unique_id']] and
    [r[keys[0]].update({'analysis_func': func, 'analysis_params': params})] *)
Definition tag_result (func : func_arg) (params : dict) (r : value)
  : result value :=
  match r with
  | VDict items =>
      key ← of_option IndexError
              (head (filter (λ k, k ≠ "unique_id") (Dict.keys items)));
      inner ← of_option KeyError (Dict.get key items);
      match inner with
      | VDict d =>
          Ok (VDict (Dict.set key
                       (VDict (Dict.update d
                                 [("analysis_func", func_value func);
                                  ("analysis_params", VDict params)]))
                       items))
      | _ => Raise AttributeError
      end
  | _ => Raise AttributeError
  end.

(** [results_dir.iterdir()]: the files directly inside [dir] *)
Definition iterdir (dir : string) : M (list string) :=
  λ w,
    let inside :=
      filter (λ p, String.prefix (dir +:+ "/") p = true ∧
                   dir +:+ "/" +:+ Path.name p = p)
             ((fst <$> map_to_list (files w)) ++
              elements (truncated w ∖ dom (files w))) in
    (match inside with [] => Raise IOError | _ => Ok inside end, w).

(** [Clusters.load_results].  Each of the two attempts is inside a
    [try] whose bare [except] swallows every exception. *)
Definition load_results (func : func_arg) (params : dict)
    (fieldname : option string) : M unit :=
  stim_types ← gets self_stim_types;
  let raw_param_str := build_param_str func params in
  let new_fieldname :=
    match fieldname with
    | Some f => if bool_decide (f = "") then build_fieldname func params else f
    | None => build_fieldname func params
    end in
  try_except
    (* load single file results *)
    (results_path ← lift (load_results_path stim_types func params);
     res ← load_pickle results_path;
     rs ← lift (py_iter res);
     tagged ← lift (mapM (tag_result func params) rs);
     merge_results (VList tagged) (Some new_fieldname))
    (λ _, true)
    (try_except
       (* load multiple file results *)
       (names ← iterdir (load_results_dir stim_types func params);
        res ← for_fold (λ res filename,
                          r ← load_pickle filename;
                          r ← lift (tag_result func params r);
                          mret (res ++ [r]))
                       [] names;
        merge_results (VList res) (Some new_fieldname))
       (λ _, true)
       (mret tt)).

(** [Clusters.check_results_present]: what it prints is left out, what
    [find_missing_results] raises is not. *)
Definition check_results_present (fieldname : string)
    (noiseratio state optogenetic : value) : M unit :=
  let state := if negb (truthy state)
               then VList [VStr "anaesthetised"; VStr "awake"] else state in
  clusters ← gets self_clusters;
  _ ← lift (find_missing_results fieldname noiseratio state optogenetic
              clusters);
  mret tt.

(** [Clusters.load_analyses] *)
Definition load_analyses (fieldnames : list string) : M unit :=
  stim_types ← gets self_stim_types;
  for_each
    (λ fieldname,
       table ← lift (of_option KeyError
                       (ANALYSES !! Str.join "-" (pretty <$> stim_types)));
       a ← lift (of_option KeyError (table !! fieldname));
       let params := analysis_params a in
       _ ← load_results (FStr (analysis_func a)) params (Some fieldname);
       let noiseratio := default (VStr "inf") (Dict.get "noiseratio" params) in
       let state := default (VList [VStr "anaesthetised"; VStr "awake"])
                            (Dict.get "state" params) in
       let optogenetic :=
         match Dict.get "optogenetic" params with
         | Some o => o
         | None => VBool (Str.contains "opto" (analysis_func a))
         end in
       check_results_present fieldname noiseratio state optogenetic)
    fieldnames.

(** The loop of [run_analysis] over one results file. *)
Definition run_single_file (func : callable) (params : dict)
    (ignore_existing fail_on_error : bool) (results_path : string)
    (window : list cluster) : M value :=
  exists_ ← gets (path_exists results_path);
  res ← (if ignore_existing && exists_ then mret (VList [])
         else try_except (load_pickle results_path)
                         (λ e, bool_decide (e = IOError)) (mret (VList [])));
  rs ← lift (py_iter res);
  processed_ids ← lift (mapM (λ r, getitem r "unique_id") rs);
  res ← for_fold
          (λ res c,
             uid ← lift (cluster_get c "unique_id");
             if py_in uid processed_ids && negb ignore_existing then mret res
             else
               r ← apply_func_to_cluster func c params fail_on_error;
               if truthy r then lift (py_append res r) else mret res)
          res window;
  _ ← dump_pickle results_path res;
  mret res.

(** The loop of [run_analysis] with one results file per cluster. *)
Definition run_multiple_files (func : callable) (params : dict)
    (ignore_existing : bool) (results_dir raw_param_str : string)
    (window : list cluster) : M value :=
  _ ← for_each
        (λ c,
           uid ← lift (cluster_get c "unique_id");
           uid ← lift (match uid with VStr s => Ok s | _ => Raise TypeError end);
           let param_str := uid +:+ "--" +:+ raw_param_str in
           let results_path := Path.div results_dir (param_str +:+ ".pkl") in
           exists_ ← gets (path_exists results_path);
           if exists_ && negb ignore_existing then mret tt
           else
             r ← apply_func_to_cluster func c params true;
             if truthy r then dump_pickle results_path r else mret tt)
        window;
  mret VNone.

(** [Clusters.run_analysis] *)
Definition run_analysis (func : func_arg) (params : dict)
    (save_results multiple_results_files ignore_existing : bool)
    (this_data_segment total_data_segments : Z) (fail_on_error : bool)
    (load_analyses_first : option (list string)) : M value :=
  clusters ← gets self_clusters;
  segment_length ← lift (ceil_div (Z.of_nat (length clusters))
                                  total_data_segments);
  let first_cluster_idx := (this_data_segment - 1) * segment_length in
  func ← lift (resolve_func func);
  _ ← match load_analyses_first with
      | Some ((_ :: _) as names) => load_analyses names
      | _ => mret tt
      end;
  clusters ← gets self_clusters;
  let window :=
    py_slice clusters first_cluster_idx (first_cluster_idx + segment_length) in
  if negb save_results then
    res ← for_fold
            (λ res c,
               r ← apply_func_to_cluster func c params fail_on_error;
               mret (if truthy r then res ++ [r] else res))
            [] window;
    mret (VList res)
  else
    stim_types ← gets self_stim_types;
    let raw_param_str := build_param_str (FCallable func) params in
    if multiple_results_files then
      run_multiple_files func params ignore_existing
        (run_analysis_results_dir stim_types (FCallable func) params)
        raw_param_str window
    else
      results_path ← lift (run_analysis_results_path stim_types
                             (FCallable func) params);
      run_single_file func params ignore_existing fail_on_error
                      results_path window.

End clusters_io.

(** ** The order of a float and an int, as numbers *)




(** ** Vocabulary of the statements about the state *)

(** [m] takes every state [w] to a state related to [w] by [P], whether
    it returns or raises. *)
Definition respects {A} (P : world → world → Prop) (m : M A) : Prop :=
  ∀ w r w', m w = (r, w') → P w w'.

(** the files, the log of calls and the stimulus types are the same *)
Definition same_io (w w' : world) : Prop :=
  files w' = files w ∧ calls w' = calls w ∧
  self_stim_types w' = self_stim_types w ∧ truncated w' = truncated w.

(** The entries [merge_results] goes through: the list it is given, or
    the contents of the files it is given the names of. *)
Definition file_entries (stim_types : list Z)
    (fs : gmap string value) (filename : value) : list value :=
  match filename with
  | VStr s =>
      match fs !! results_filename stim_types s with
      | Some data => match py_iter data with Ok es => es | Raise _ => [] end
      | None => []
      end
  | _ => []
  end.

Definition merged_entries (stim_types : list Z)
    (fs : gmap string value) (filenames_or_res : value) : list value :=
  match filenames_or_res with
  | VList items =>
      match head items with
      | Some first =>
          match py_contains "unique_id" first with
          | Ok true => items
          | Ok false => items ≫= file_entries stim_types fs
          | Raise _ => []
          end
      | None => []
      end
  | v => file_entries stim_types fs v
  end.

(** How the clusters of [w'] may differ from those of [w] after the
    merge of [entries]: a cluster is the same unless the index of some
    entry is its own, and with a field name given only that key differs. *)
Definition merge_effect (ids : list value) (nf : option string)
    (entries : list value) (w w' : world) : Prop :=
  same_io w w' ∧
  length (self_clusters w') = length (self_clusters w) ∧
  ∀ i c, self_clusters w !! i = Some c →
    ∃ c', self_clusters w' !! i = Some c' ∧
          (c' = c ∨ ∃ entry, entry ∈ entries ∧ entry_index ids entry = Ok i) ∧
          (∀ f, fieldname_given nf = Some f → ∀ k, k ≠ f → c' !! k = c !! k).

(** After a complete merge with a field name given, a cluster at the
    index of some entry holds under that name the payload of an entry
    with that index. *)
Definition merge_gain (ids : list value) (nf : option string)
    (entries : list value) (w' : world) : Prop :=
  ∀ f i, fieldname_given nf = Some f →
    (∃ entry, entry ∈ entries ∧ entry_index ids entry = Ok i) →
    ∃ entry v c',
      entry ∈ entries ∧ entry_index ids entry = Ok i ∧
      entry_payload entry = Ok v ∧
      self_clusters w' !! i = Some c' ∧ c' !! f = Some v.

(** the stimulus types of the [Clusters] object are the same *)
Definition same_stim_types (w w' : world) : Prop :=
  self_stim_types w' = self_stim_types w.

(** every file that differs is [dir / (uid + '--' + raw + '.pkl')] for
    some [uid] *)
Definition writes_results_of (dir raw : string) (w w' : world) : Prop :=
  ∀ p, (∀ uid, p ≠ Path.div dir ((uid +:+ "--" +:+ raw) +:+ ".pkl")) →
       files w' !! p = files w !! p ∧ (p ∈ truncated w' ↔ p ∈ truncated w).


(** ** Example inputs *)

(** A stimulus-grid store in which every type-19 grid has two columns,
    the first at low and the second at high contrast. *)
Definition example_store : gmap string stim_info :=
  list_to_map ((λ code, (code, {| grid_columns := 2; contrast := [0; 1] |}))
                 <$> stimulus_order [19]).

Definition example_stimulus : Stimulus :=
  {| stim_types := [19];
     grid_file_codes := stimulus_order [19];
     segment_lengths := replicate 30 2%nat;
     c_t := replicate 30 [0; 1];
     t_bins_from_onset := replicate 30 [0; 1] |}.

(** A store for stimulus type 12: four grids of 1600 columns, contrast 20
    (coded 0) for the first and third, contrast 40 (coded 1) for the
    others. *)
Definition example_store_12 : gmap string stim_info :=
  list_to_map
    (zip (stimulus_order [12])
         ((λ c, {| grid_columns := 1600; contrast := replicate 1600 c |})
            <$> [0; 1; 0; 1])).

Definition example_stimulus_12 : Stimulus :=
  {| stim_types := [12];
     grid_file_codes := stimulus_order [12];
     segment_lengths := replicate 4 1600%nat;
     c_t := (λ c, replicate 1600 c) <$> [0; 1; 0; 1];
     t_bins_from_onset := replicate 4 (Np.arange 0 1600) |}.

(** Three clusters with noise ratios 1.5, NaN and 300. *)
Definition example_clusters : list cluster :=
  [ {[ "unique_id" := VStr "ic-e001-p001-c001"; "noiseratio" := VFloat 1.5 ]};
    {[ "unique_id" := VStr "ic-e001-p001-c002";
       "noiseratio" := VFloat PrimFloat.nan ]};
    {[ "unique_id" := VStr "ac-e002-p001-c001"; "noiseratio" := VFloat 300 ]} ].

(** A [Clusters] object over [example_clusters] with an empty file
    store, and a result list for two of its clusters. *)
Definition example_world : world :=
  {| self_stim_types := [12]; self_clusters := example_clusters;
     files := ∅; truncated := ∅; calls := [] |}.

Definition example_results : value :=
  VList [ VDict [("unique_id", VStr "ac-e002-p001-c001");
                 ("coch_kernel", VDict [("cc", VFloat 0.5)])];
          VDict [("unique_id", VStr "ic-e001-p001-c001");
                 ("coch_kernel", VDict [("cc", VFloat 0.25)])] ].

(** An analysis function, a runtime that knows it by name, the parameters
    of the ['coch_kernel_main'] analysis, and a state in which the
    results file already holds the entry of the first cluster. *)
Definition example_analysis : callable :=
  {| fn_name := "coch_kernel";
     fn_call := λ c _ _,
       match c !! "noiseratio" with
       | Some nr => Ok (VDict [("noiseratio_seen", nr)])
       | None => Raise KeyError
       end |}.

Definition example_runtime : Runtime :=
  {| py_str := λ _, "<object>";
     py_eval := λ s, if bool_decide (s = "coch_kernel") then Ok example_analysis
                     else Raise NameError;
     py_pickle_error := λ _, None;
     HIERARCHY_ROOT := "/data/hierarchy";
     ANALYSES := ∅ |}.

(** The same runtime, but for a [pickle.dump] that fails on a list of more
    than two entries; and the same runtime, but for a second name,
    ['run_coch'], that evaluates to the same analysis function. *)
Definition example_runtime_failing_dump : Runtime :=
  {| py_str := λ _, "<object>";
     py_eval := λ s, if bool_decide (s = "coch_kernel") then Ok example_analysis
                     else Raise NameError;
     py_pickle_error := λ v, match v with
                             | VList (_ :: _ :: _ :: _) => Some PicklingError
                             | _ => None
                             end;
     HIERARCHY_ROOT := "/data/hierarchy";
     ANALYSES := ∅ |}.


(** The same runtime in another process, where [str()] of an object
    that has the default [repr] gives another address. *)
Definition example_runtime_other_process : Runtime :=
  {| py_str := λ _, "<object at 0x7f3a>";
     py_eval := λ s, if bool_decide (s = "coch_kernel") then Ok example_analysis
                     else Raise NameError;
     py_pickle_error := λ _, None;
     HIERARCHY_ROOT := "/data/hierarchy";
     ANALYSES := ∅ |}.

Definition example_params : dict :=
  [ ("subset", VList [VStr "valid20"; VStr "all"]); ("n_h", VInt 13);
    ("k_folds", VInt 16); ("regress", VStr "ElNet") ].

Definition example_results_path : string :=
  "/data/hierarchy/results/stim-12/coch_kernel--subset=valid20-all--n_h=13--k_folds=16--regress=ElNet.pkl".




Definition example_stored : list value :=
  [ VDict [("unique_id", VStr "ic-e001-p001-c001");
           ("coch_kernel", VDict [("from", VStr "an earlier run")])] ].

Definition example_resumed_world : world :=
  {| self_stim_types := [12]; self_clusters := example_clusters;
     files := {[ example_results_path := VList example_stored ]};
     truncated := ∅; calls := [] |}.

(** A store for stimulus type 25: four grids of three columns. *)
Definition example_store_25 : gmap string stim_info :=
  list_to_map ((λ code, (code, {| grid_columns := 3; contrast := [0; 0; 1] |}))
                 <$> stimulus_order [25]).

(** A store for stimulus type 19 in which every grid has 22 columns at
    low contrast. *)
Definition example_store_22 : gmap string stim_info :=
  list_to_map ((λ code, (code, {| grid_columns := 22;
                                  contrast := replicate 22 0 |}))
                 <$> stimulus_order [19]).

(** What [get_indices] returns or raises for an existing subset. *)
Definition get_indices_outcome (self : Stimulus) (spec : string * string)
    (k_folds : k_folds_arg) (include : option (list Z)) (idxes : list Z)
  : Prop :=
  match k_folds with
  | KStr s =>
      if bool_decide (s = "all_train")
      then get_indices self spec k_folds include = Ok [(idxes, [])]
      else if bool_decide (s = "")
      then get_indices self spec k_folds include = Raise ValueError
      else get_indices self spec k_folds include = Raise TypeError
  | KNone => ∃ fold, get_indices self spec k_folds include = Ok [fold]
  | KInt k =>
      if bool_decide (k ≤ 0)
      then get_indices self spec k_folds include = Raise ValueError
      else ∃ k_folds', get_indices self spec k_folds include = Ok k_folds'
  end.


(** Three clusters as [Clusters.__init__] leaves them, the first with the
    result of an analysis merged in. *)
Definition example_recorded : list cluster :=
  [ {[ "unique_id" := VStr "ic-e001-p001-c001"; "state" := VStr "awake";
       "optogenetic" := VBool false; "noiseratio" := VFloat 1.5;
       "coch_kernel_main" := VDict [("cc", VFloat 0.5)] ]};
    {[ "unique_id" := VStr "ic-e001-p001-c002";
       "state" := VStr "anaesthetised";
       "optogenetic" := VBool false; "noiseratio" := VFloat PrimFloat.nan ]};
    {[ "unique_id" := VStr "ac-e002-p001-c001"; "state" := VStr "awake";
       "optogenetic" := VBool true; "noiseratio" := VFloat 300 ]} ].

(** Results for all three clusters of [example_recorded]. *)
Definition example_results_all : value :=
  VList [ VDict [("unique_id", VStr "ac-e002-p001-c001");
                 ("coch_kernel", VDict [("cc", VFloat 0.5)])];
          VDict [("unique_id", VStr "ic-e001-p001-c002");
                 ("coch_kernel", VDict [("cc", VFloat 0.125)])];
          VDict [("unique_id", VStr "ic-e001-p001-c001");
                 ("coch_kernel", VDict [("cc", VFloat 0.25)])] ].

Definition example_recorded_world : world :=
  {| self_stim_types := [12]; self_clusters := example_recorded;
     files := ∅; truncated := ∅; calls := [] |}.

(** the files and the stimulus types are the same *)
Definition keeps_files (w w' : world) : Prop :=
  files w' = files w ∧ self_stim_types w' = self_stim_types w.

(** the files, with or without a whole pickle, are the same *)
Definition same_disk (w w' : world) : Prop :=
  files w' = files w ∧ truncated w' = truncated w.

(** the log of calls is the same *)
Definition same_calls (w w' : world) : Prop := calls w' = calls w.

(** the files, calls and stimulus types are the same, and there are as
    many clusters *)
Definition same_length (w w' : world) : Prop :=
  same_io w w' ∧ length (self_clusters w') = length (self_clusters w).

(** nothing but the log of calls differs *)
Definition only_calls (w w' : world) : Prop :=
  files w' = files w ∧ self_stim_types w' = self_stim_types w ∧
  self_clusters w' = self_clusters w.

(** [m] does not look at the files: run from a state with other files,
    it gives the same result and the same state but for the files. *)
Definition files_blind {A} (m : M A) : Prop :=
  ∀ fs w, m (set_files fs w) = ((m w).1, set_files fs (m w).2).

(** The files, calls and stimulus types are the same, there are as many
    clusters, and if [f] is a field name, every cluster has its other
    keys as before. *)
Definition only_field (f : string) (w w' : world) : Prop :=
  same_io w w' ∧
  length (self_clusters w') = length (self_clusters w) ∧
  (f ≠ "" →
   ∀ i c, self_clusters w !! i = Some c →
     ∃ c', self_clusters w' !! i = Some c' ∧ ∀ k, k ≠ f → c' !! k = c !! k).

(** The name [load_results] merges under. *)
Definition load_results_fieldname `{Runtime} (func : func_arg) (params : dict)
    (fieldname : option string) : string :=
  match fieldname with
  | Some f => if bool_decide (f = "") then build_fieldname func params else f
  | None => build_fieldname func params
  end.

(** every file of [w] is in [w'] with the same content *)
Definition files_kept (w w' : world) : Prop :=
  ∀ p v, files w !! p = Some v → files w' !! p = Some v.

(** * Properties *)

(** ** The error monad *)

Lemma bind_Ok {A B} (m : result A) (f : A → result B) b :
  m ≫= f = Ok b ↔ ∃ a, m = Ok a ∧ f a = Ok b.
Proof. destruct m; simpl; naive_solver. Qed.

Lemma Ok_inj {A} (a b : A) : Ok a = Ok b → a = b.
Proof. congruence. Qed.

Lemma mapM_Ok_fmap {A B} (f : A → result B) (g : A → B) l :
  Forall (λ x, f x = Ok (g x)) l → mapM f l = Ok (g <$> l).
Proof.
  induction 1 as [|x l Hx _ IH]; [done|].
  cbn. rewrite Hx. cbn. by rewrite IH.
Qed.

Lemma mapM_fmap_Ok {A B C} (f : B → result C) (h : A → B) (g : A → C) l :
  Forall (λ x, f (h x) = Ok (g x)) l → mapM f (h <$> l) = Ok (g <$> l).
Proof.
  induction 1 as [|x l Hx _ IH]; [done|].
  cbn. rewrite Hx. cbn. by rewrite IH.
Qed.

(** ** numpy helpers *)

Section np_facts.
Import Np.

Lemma elem_of_arange a b x : x ∈ arange a b ↔ a ≤ x < b.
Proof. unfold arange. rewrite elem_of_seqZ. lia. Qed.

Lemma seqZ_lt_sorted m n : StronglySorted Z.lt (seqZ m n).
Proof.
  destruct (decide (n ≤ 0)) as [?|Hn]; [rewrite seqZ_nil by done; constructor|].
  rewrite <-(Z2Nat.id n) by lia. generalize (Z.to_nat n) as k. clear.
  intros k. revert m. induction k as [|k IH]; intros m.
  - rewrite seqZ_nil by done. constructor.
  - rewrite seqZ_cons by lia. constructor.
    + replace (Z.pred (Z.of_nat (S k))) with (Z.of_nat k) by lia. apply IH.
    + apply Forall_seqZ. lia.
Qed.

Lemma arange_sorted a b : StronglySorted Z.lt (arange a b).
Proof. apply seqZ_lt_sorted. Qed.

Lemma where_from_ge i mask x : x ∈ where_from i mask → i ≤ x.
Proof.
  revert i. induction mask as [|[] mask IH]; intros i; simpl.
  - by intros ?%elem_of_nil.
  - intros [->|Hx]%elem_of_cons; [lia|]. apply IH in Hx. lia.
  - intros Hx. apply IH in Hx. lia.
Qed.

Lemma where_from_sorted i mask : StronglySorted Z.lt (where_from i mask).
Proof.
  revert i. induction mask as [|[] mask IH]; intros i; simpl; [constructor| |done].
  constructor; [done|]. apply Forall_forall. intros x Hx.
  apply where_from_ge in Hx. lia.
Qed.

Lemma where_sorted mask : StronglySorted Z.lt (where_ mask).
Proof. apply where_from_sorted. Qed.

(** positions returned by [where_] are exactly those where the mask
    holds *)
Lemma elem_of_where_from i mask x :
  x ∈ where_from i mask ↔
  ∃ n : nat, x = i + Z.of_nat n ∧ mask !! n = Some true.
Proof.
  revert i. induction mask as [|b mask IH]; intros i; simpl.
  - split; [by intros ?%elem_of_nil|]. by intros (n & _ & ?).
  - assert (x ∈ where_from (i + 1) mask ↔
            ∃ n : nat, x = i + Z.of_nat (S n) ∧ (b :: mask) !! S n = Some true)
      as Htl.
    { rewrite IH. split; intros (n & -> & ?); exists n; split; auto; lia. }
    destruct b.
    + rewrite elem_of_cons, Htl. split.
      * intros [->|(n & -> & ?)]; [exists 0%nat|exists (S n)]; split; auto; lia.
      * intros ([|n] & -> & ?); [left; lia|right; eauto].
    + rewrite Htl. split.
      * intros (n & -> & ?). eauto.
      * intros ([|n] & -> & ?); [done|eauto].
Qed.

Lemma elem_of_where mask x :
  x ∈ where_ mask ↔ ∃ n : nat, x = Z.of_nat n ∧ mask !! n = Some true.
Proof. unfold where_. rewrite elem_of_where_from. naive_solver. Qed.

Lemma Sorted_le_inv x y l : Sorted Z.le (x :: y :: l) → x ≤ y ∧ Sorted Z.le (y :: l).
Proof. intros H. inv H as [|?? Hs Hhd]. by inv Hhd. Qed.

Lemma dedup_adjacent_elem_of l x : x ∈ dedup_adjacent l ↔ x ∈ l.
Proof.
  induction l as [|a [|b l] IH]; [done..|].
  change (dedup_adjacent (a :: b :: l))
    with (if a =? b then dedup_adjacent (b :: l) else a :: dedup_adjacent (b :: l)).
  destruct (Z.eqb_spec a b) as [->|].
  - rewrite IH. set_solver.
  - rewrite !elem_of_cons, IH. set_solver.
Qed.

Lemma dedup_adjacent_sorted l :
  Sorted Z.le l → StronglySorted Z.lt (dedup_adjacent l).
Proof.
  induction l as [|a [|b l] IH]; intros Hs.
  - constructor.
  - repeat constructor.
  - apply Sorted_le_inv in Hs as [Hab Hs].
    change (dedup_adjacent (a :: b :: l))
      with (if a =? b then dedup_adjacent (b :: l) else a :: dedup_adjacent (b :: l)).
    destruct (Z.eqb_spec a b) as [->|Hne]; [by apply IH|].
    constructor; [by apply IH|].
    apply Forall_forall. intros x Hx. rewrite dedup_adjacent_elem_of in Hx.
    apply Sorted_StronglySorted in Hs; [|apply _].
    apply StronglySorted_cons in Hs as [Hall _].
    apply elem_of_cons in Hx as [->|Hx]; [lia|].
    rewrite Forall_forall in Hall. specialize (Hall _ Hx). lia.
Qed.

Lemma unique_sorted l : StronglySorted Z.lt (unique l).
Proof. apply dedup_adjacent_sorted, Sorted_merge_sort. apply _. Qed.

Lemma elem_of_unique l x : x ∈ unique l ↔ x ∈ l.
Proof.
  unfold unique. rewrite dedup_adjacent_elem_of.
  unfold sort. by rewrite merge_sort_Permutation.
Qed.

Lemma StronglySorted_filter {A} (R : relation A) (P : A → Prop)
    `{∀ x, Decision (P x)} l :
  StronglySorted R l → StronglySorted R (filter P l).
Proof.
  induction 1 as [|x l _ IH Hx]; [constructor|].
  rewrite filter_cons. case_decide; [|done].
  constructor; [done|]. apply Forall_forall. intros y [_ Hy]%list_elem_of_filter.
  rewrite Forall_forall in Hx. auto.
Qed.

Lemma intersect1d_sorted a b : StronglySorted Z.lt (intersect1d a b).
Proof. apply StronglySorted_filter, unique_sorted. Qed.

Lemma elem_of_intersect1d a b x : x ∈ intersect1d a b ↔ x ∈ a ∧ x ∈ b.
Proof.
  unfold intersect1d. rewrite list_elem_of_filter, elem_of_unique. tauto.
Qed.

Lemma lt_sorted_le_sorted l : StronglySorted Z.lt l → StronglySorted Z.le l.
Proof.
  induction 1 as [|x l _ IH Hx]; constructor; [done|].
  eapply Forall_impl; [done|]. simpl. lia.
Qed.

Lemma lt_sorted_NoDup l : StronglySorted Z.lt l → NoDup l.
Proof.
  induction 1 as [|x l _ IH Hx]; constructor; [|done].
  intros Hin. rewrite Forall_forall in Hx. specialize (Hx _ Hin). lia.
Qed.

(** [np.sort] leaves a sorted array as it is. *)
Lemma sort_sorted l : StronglySorted Z.lt l → sort l = l.
Proof.
  intros Hl. apply (StronglySorted_unique Z.le).
  - apply StronglySorted_merge_sort; apply _.
  - by apply lt_sorted_le_sorted.
  - apply merge_sort_Permutation.
Qed.

End np_facts.

(** ** [np.array_split] cuts the array into consecutive pieces *)

Section array_split_facts.
Import Np.
Context {A : Type}.
Implicit Types (ary : list A) (sizes : list nat).

Lemma cumsum_from_nth acc sizes i :
  (i < length sizes)%nat →
  nth i (cumsum_from acc sizes) 0%nat = (acc + sum_list (take (S i) sizes))%nat.
Proof.
  revert acc i. induction sizes as [|s sizes IH]; intros acc i Hi; simpl in Hi; [lia|].
  destruct i as [|i].
  - simpl. lia.
  - change (nth (S i) (cumsum_from acc (s :: sizes)) 0%nat)
      with (nth i (cumsum_from (acc + s) sizes) 0%nat).
    rewrite IH by lia. rewrite (firstn_cons (S i) s sizes). simpl. lia.
Qed.

(** [div_points[i]] is the total size of the first [i] sections *)
Lemma div_points_nth sizes i :
  (i ≤ length sizes)%nat →
  nth i (cumsum (0%nat :: sizes)) 0%nat = sum_list (take i sizes).
Proof.
  intros Hi. unfold cumsum. simpl. destruct i as [|i]; [done|].
  rewrite cumsum_from_nth by lia. done.
Qed.

Lemma sum_list_take_S sizes i s :
  sizes !! i = Some s →
  sum_list (take (S i) sizes) = (sum_list (take i sizes) + s)%nat.
Proof.
  intros Hs. rewrite (take_S_r _ _ _ Hs), sum_list_with_app. simpl. lia.
Qed.

Lemma slices_concat ary sizes :
  concat ((λ i, slice ary (sum_list (take i sizes))
                          (sum_list (take (S i) sizes)))
            <$> seq 0 (length sizes))
  = take (sum_list sizes) ary.
Proof.
  induction sizes as [|s sizes IH] using rev_ind; [by rewrite take_0|].
  rewrite length_app.
  replace (length sizes + length [s])%nat with (S (length sizes)) by (simpl; lia).
  rewrite seq_S, fmap_app, concat_app. simpl. rewrite app_nil_r.
  rewrite (take_ge (sizes ++ [s]) (S _)) by (rewrite length_app; simpl; lia).
  rewrite take_app_length.
  erewrite list_fmap_ext; [rewrite IH|].
  - rewrite sum_list_with_app. simpl. rewrite Nat.add_0_r.
    unfold slice. replace (sum_list sizes + s - sum_list sizes)%nat with s by lia.
    by rewrite take_take_drop.
  - intros i x [-> Hi]%lookup_seq. simpl in Hi.
    rewrite !take_app_le by lia. done.
Qed.

Lemma sum_section_sizes (n k : nat) :
  (0 < k)%nat → sum_list (tail (section_sizes n k)) = n.
Proof.
  intros Hk. unfold section_sizes. simpl.
  rewrite sum_list_with_app, !sum_list_replicate.
  pose proof (Nat.div_mod_eq n k). pose proof (Nat.mod_upper_bound n k).
  nia.
Qed.

Lemma length_section_sizes (n k : nat) :
  (0 < k)%nat → length (tail (section_sizes n k)) = k.
Proof.
  intros Hk. unfold section_sizes. simpl.
  rewrite length_app, !length_replicate.
  pose proof (Nat.mod_upper_bound n k). lia.
Qed.

(** The closed form of [array_split]: the [k] slices at the section
    boundaries. *)
Lemma array_split_Ok ary (k : Z) :
  0 < k →
  let sizes := tail (section_sizes (length ary) (Z.to_nat k)) in
  array_split ary k
  = Ok ((λ i, slice ary (sum_list (take i sizes)) (sum_list (take (S i) sizes)))
          <$> seq 0 (length sizes)).
Proof.
  intros Hk sizes. unfold array_split.
  destruct (Z.leb_spec k 0) as [|_]; [lia|]. f_equal.
  assert (length sizes = Z.to_nat k) as Hlen
    by (apply length_section_sizes; lia).
  rewrite Hlen. apply list_fmap_ext. intros i x Hix.
  apply lookup_seq in Hix as [-> Hi]. rewrite Nat.add_0_l.
  change (section_sizes (length ary) (Z.to_nat k)) with (0%nat :: sizes).
  rewrite !div_points_nth by lia. done.
Qed.

Lemma array_split_length ary k splits :
  array_split ary k = Ok splits → length splits = Z.to_nat k ∧ 0 < k.
Proof.
  unfold array_split. destruct (Z.leb_spec k 0); [done|].
  intros [= <-]. by rewrite length_fmap, length_seq.
Qed.

Lemma array_split_concat ary k splits :
  array_split ary k = Ok splits → concat splits = ary.
Proof.
  intros Hs. pose proof (array_split_length _ _ _ Hs) as [_ Hk].
  pose proof (array_split_Ok ary k Hk) as Heq. cbv zeta in Heq.
  remember (tail (section_sizes (length ary) (Z.to_nat k))) as sizes eqn:Hsz.
  rewrite Heq in Hs. injection Hs as <-.
  rewrite slices_concat. subst sizes.
  rewrite sum_section_sizes by lia. apply firstn_all.
Qed.

(** "nearly equal": every piece has [n / k] or [n / k + 1] elements. *)
Lemma array_split_piece_length ary k splits piece :
  array_split ary k = Ok splits → piece ∈ splits →
  let q := (length ary / Z.to_nat k)%nat in
  length piece = q ∨ length piece = S q.
Proof.
  intros Hs Hp. pose proof (array_split_length _ _ _ Hs) as [_ Hk].
  pose proof (array_split_Ok ary k Hk) as Heq. cbv zeta in Heq.
  pose proof (sum_section_sizes (length ary) (Z.to_nat k) ltac:(lia)) as Hsum.
  assert (∀ s, s ∈ tail (section_sizes (length ary) (Z.to_nat k)) →
               s = (length ary / Z.to_nat k)%nat ∨
               s = S (length ary / Z.to_nat k)) as Hsizes.
  { intros s Hsz. unfold section_sizes in Hsz. simpl in Hsz.
    apply elem_of_app in Hsz as [Hsz|Hsz];
      apply elem_of_replicate in Hsz as [-> _]; auto. }
  remember (tail (section_sizes (length ary) (Z.to_nat k))) as sizes eqn:Hsz.
  rewrite Heq in Hs. injection Hs as <-.
  apply list_elem_of_fmap in Hp as (i & -> & Hi).
  apply elem_of_seq in Hi as [_ Hi]. simpl in Hi.
  destruct (lookup_lt_is_Some_2 _ _ Hi) as [s Hs].
  rewrite (sum_list_take_S _ _ _ Hs). unfold slice.
  rewrite length_take, length_drop.
  assert (sum_list (take (S i) sizes) ≤ length ary)%nat as Hle.
  { rewrite <-Hsum. rewrite <-(take_drop (S i) sizes) at 2.
    rewrite sum_list_with_app. lia. }
  rewrite (sum_list_take_S _ _ _ Hs) in Hle.
  apply list_elem_of_lookup_2, Hsizes in Hs. simpl. lia.
Qed.

End array_split_facts.

(** ** Every named index subset is strictly increasing *)

Section indices_facts.
Import Np.

Lemma np_concatenate_Ok {A} (arrays : list (list A)) :
  arrays ≠ [] → np_concatenate arrays = Ok (concat arrays).
Proof. by destruct arrays. Qed.

Lemma sorted_app_arange l a b :
  StronglySorted Z.lt l → (∀ x, x ∈ l → x < a) →
  StronglySorted Z.lt (l ++ arange a b).
Proof.
  intros Hl Hlt. apply StronglySorted_app_2; [|done|apply arange_sorted].
  intros x y Hx Hy%elem_of_arange. specialize (Hlt _ Hx). lia.
Qed.

(** a table lookup in the two-level dict built by [indices] *)
Lemma idx_table_lookup (aa al ah va vl vh : list Z) (spec : string * string)
    (by_contrast : gmap string (list Z)) idxes :
  ({[ "all" := {[ "all" := aa; "lo" := al; "hi" := ah ]};
      "valid20" := {[ "all" := va; "lo" := vl; "hi" := vh ]} ]} : idx_table)
    !! spec.1 = Some by_contrast →
  by_contrast !! spec.2 = Some idxes →
  idxes = aa ∨ idxes = al ∨ idxes = ah ∨
  idxes = va ∨ idxes = vl ∨ idxes = vh.
Proof.
  intros H1 H2.
  apply lookup_insert_Some in H1 as [[_ <-]|[_ H1]];
    [|apply lookup_singleton_Some in H1 as [_ <-]];
    (apply lookup_insert_Some in H2 as [[_ <-]|[_ H2]];
     [|apply lookup_insert_Some in H2 as [[_ <-]|[_ H2]];
       [|apply lookup_singleton_Some in H2 as [_ <-]]]);
    tauto.
Qed.

Lemma hard_coded_ranges_sorted :
  StronglySorted Z.lt (arange 0 6400) ∧
  StronglySorted Z.lt (concat [arange 0 1600; arange 3200 4800]) ∧
  StronglySorted Z.lt (concat [arange 1600 3200; arange 4800 6400]) ∧
  StronglySorted Z.lt
    (concat [arange 20 1600; arange (1600 + 20) 3200;
             arange (3200 + 20) 4800; arange (4800 + 20) 6400]).
Proof.
  split_and!.
  - apply arange_sorted.
  - cbn [concat]. rewrite app_nil_r.
    apply sorted_app_arange; [apply arange_sorted|].
    intros x Hx. rewrite ?elem_of_app, ?elem_of_arange in Hx. lia.
  - cbn [concat]. rewrite app_nil_r.
    apply sorted_app_arange; [apply arange_sorted|].
    intros x Hx. rewrite ?elem_of_app, ?elem_of_arange in Hx. lia.
  - cbn [concat]. rewrite app_nil_r, !app_assoc.
    do 3 (apply sorted_app_arange;
          [|intros x Hx; rewrite ?elem_of_app, ?elem_of_arange in Hx; lia]).
    apply arange_sorted.
Qed.

Lemma lookup_subset_sorted self spec idxes :
  lookup_subset self spec = Ok idxes → StronglySorted Z.lt idxes.
Proof.
  unfold lookup_subset. intros H.
  apply bind_Ok in H as (tbl & Htbl & H).
  apply bind_Ok in H as (by_contrast & H1 & H2).
  destruct (tbl !! spec.1) as [d|] eqn:E1; [injection H1 as ->|done].
  destruct (by_contrast !! spec.2) as [l|] eqn:E2; [injection H2 as ->|done].
  unfold indices in Htbl. repeat case_bool_decide; [| |done].
  - (* stimulus type 12: the hard-coded ranges *)
    rewrite !np_concatenate_Ok in Htbl by done.
    cbn [mbind result_bind] in Htbl.
    apply Ok_inj in Htbl. rewrite <-Htbl in E1.
    pose proof (idx_table_lookup _ _ _ _ _ _ _ _ _ E1 E2) as Hin.
    destruct hard_coded_ranges_sorted as (Ha & Hl & Hh & Hv).
    destruct Hin as [Hin|[Hin|[Hin|[Hin|[Hin|Hin]]]]]; rewrite Hin;
      [exact Ha|exact Hl|exact Hh|exact Hv|apply intersect1d_sorted..].
  - (* stimulus type 19: computed from the segment metadata *)
    apply bind_Ok in Htbl as (c & _ & Htbl).
    apply bind_Ok in Htbl as (t & _ & Htbl).
    apply Ok_inj in Htbl. rewrite <-Htbl in E1.
    pose proof (idx_table_lookup _ _ _ _ _ _ _ _ _ E1 E2) as Hin.
    destruct Hin as [Hin|[Hin|[Hin|[Hin|[Hin|Hin]]]]]; rewrite Hin;
      try apply intersect1d_sorted; try apply where_sorted;
      apply arange_sorted.
Qed.

End indices_facts.

(** ** The k-fold partition *)

Section fold_facts.
Import Np.
Implicit Types (splits : list (list Z)) (idxes train test : list Z).

(** the pieces other than the [i]-th never contain an element of the
    [i]-th when the whole array has no repetition *)
Lemma other_pieces_disjoint splits i test x :
  NoDup (concat splits) → splits !! i = Some test →
  x ∈ concat (take i splits ++ drop (S i) splits) → x ∉ test.
Proof.
  intros Hnd Hi Hx Htest.
  rewrite <-(take_drop_middle _ _ _ Hi) in Hnd.
  rewrite concat_app, concat_cons in Hnd.
  rewrite concat_app, elem_of_app in Hx.
  apply NoDup_app in Hnd as (_ & Hl & Hr).
  apply NoDup_app in Hr as (_ & Hr & _).
  destruct Hx as [Hx|Hx].
  - apply (Hl x Hx). apply elem_of_app; auto.
  - by apply (Hr x).
Qed.

Lemma build_folds_Ok splits :
  (2 ≤ length splits)%nat →
  build_folds splits
  = Ok ((λ i, (concat (take i splits ++ drop (S i) splits),
               default [] (splits !! i))) <$> seq 0 (length splits)).
Proof.
  intros Hlen. unfold build_folds. apply mapM_Ok_fmap.
  apply Forall_forall. intros i [_ Hi]%elem_of_seq. simpl in Hi.
  destruct (lookup_lt_is_Some_2 _ _ Hi) as [test ->]. simpl.
  rewrite np_concatenate_Ok; [done|].
  intros Hnil%(f_equal length).
  rewrite length_app, length_take, length_drop in Hnil. simpl in Hnil. lia.
Qed.

Lemma build_folds_tests splits k_folds :
  build_folds splits = Ok k_folds → (2 ≤ length splits)%nat →
  snd <$> k_folds = splits.
Proof.
  intros Hb Hlen. rewrite build_folds_Ok in Hb by done. apply Ok_inj in Hb as <-.
  rewrite <-list_fmap_compose. apply list_eq. intros i.
  rewrite list_lookup_fmap. destruct (decide (i < length splits)%nat) as [Hi|Hi].
  - rewrite lookup_seq_lt by done. simpl.
    by destruct (lookup_lt_is_Some_2 _ _ Hi) as [test ->].
  - rewrite lookup_seq_ge by lia. by rewrite lookup_ge_None_2 by lia.
Qed.

Lemma build_folds_elem splits k_folds train test :
  build_folds splits = Ok k_folds → (2 ≤ length splits)%nat →
  (train, test) ∈ k_folds →
  ∃ i, splits !! i = Some test ∧
       train = concat (take i splits ++ drop (S i) splits).
Proof.
  intros Hb Hlen Hin. rewrite build_folds_Ok in Hb by done.
  apply Ok_inj in Hb as <-.
  apply list_elem_of_fmap in Hin as (i & [= -> ->] & [_ Hi]%elem_of_seq).
  simpl in Hi. destruct (lookup_lt_is_Some_2 _ _ Hi) as [t Ht].
  exists i. by rewrite Ht.
Qed.

Lemma no_overlap_true (f : fold) :
  (∀ x, x ∈ f.1 → x ∉ f.2) → no_overlap f = true.
Proof.
  intros Hd. unfold no_overlap. apply bool_decide_eq_true, size_empty_iff.
  apply elem_of_equiv_empty. intros x.
  rewrite elem_of_intersection, !elem_of_list_to_set.
  intros [H1 H2]. by apply (Hd x).
Qed.

Lemma select_folds_subseteq include (k_folds : list fold) f :
  f ∈ select_folds include k_folds → f ∈ k_folds.
Proof.
  unfold select_folds. intros ([i g] & -> & Hin)%list_elem_of_fmap.
  apply list_elem_of_filter in Hin as [_ Hin].
  by apply elem_of_zip_r in Hin.
Qed.

(** what [get_indices] does with [2 <= k_folds]: both assertions hold,
    and the folds are those of [build_folds], filtered when a non-empty
    [fold_idxes_to_include] is given *)
Lemma get_indices_kfold self spec k include idxes :
  lookup_subset self spec = Ok idxes → 2 ≤ k →
  ∃ splits k_folds,
    array_split idxes k = Ok splits ∧
    build_folds splits = Ok k_folds ∧
    length splits = Z.to_nat k ∧
    get_indices self spec (KInt k) include
    = Ok (match include with
          | Some ((_ :: _) as incl) => select_folds incl k_folds
          | _ => k_folds
          end).
Proof.
  intros Hsub Hk.
  pose proof (lookup_subset_sorted _ _ _ Hsub) as Hsorted.
  destruct (array_split idxes k) as [splits|] eqn:Hsplit; last first.
  { unfold array_split in Hsplit. destruct (Z.leb_spec k 0); [lia|done]. }
  pose proof (array_split_length _ _ _ Hsplit) as [Hlen _].
  pose proof (array_split_concat _ _ _ Hsplit) as Hcat.
  assert (2 ≤ length splits)%nat as Hlen2 by lia.
  destruct (build_folds splits) as [k_folds|e] eqn:Hb;
    [|by rewrite build_folds_Ok in Hb].
  exists splits, k_folds. split_and!; [done..|].
  unfold get_indices. rewrite Hsub.
    cbn [mbind result_bind is_all_train is_none_or_one array_split_by].
  case_bool_decide; [lia|].
  rewrite Hsplit. cbn [mbind result_bind]. rewrite Hb. cbn [mbind result_bind].
  (* assert(all(no_overlap)) *)
  assert (forallb no_overlap k_folds = true) as ->.
  { apply Is_true_true, forallb_True, Forall_forall.
    intros [train test] Hin. apply Is_true_true.
    apply no_overlap_true. simpl. intros x Hx.
    destruct (build_folds_elem _ _ _ _ Hb Hlen2 Hin) as (i & Hi & ->).
    eapply other_pieces_disjoint; [|done..].
    rewrite Hcat. by apply lt_sorted_NoDup. }
  cbn [py_assert mbind result_bind].
  (* assert(all(all_test == idxes)) *)
  rewrite (build_folds_tests _ _ Hb Hlen2).
  rewrite np_concatenate_Ok by (intros ->; simpl in *; lia).
  cbn [mbind result_bind]. rewrite Hcat, sort_sorted by done.
  rewrite bool_decide_eq_true_2 by done. cbn [py_assert mbind result_bind].
  by destruct include as [[|??]|].
Qed.

End fold_facts.

Example example_stimulus_init :
  Stimulus_init (STInt 19) example_store = Ok example_stimulus.
Proof. vm_compute. reflexivity. Qed.

Section fold_claims.
Import Np.

Lemma filter_none {A} (P : A → Prop) `{∀ x, Decision (P x)} (l : list A) :
  Forall (λ x, ¬ P x) l → filter P l = [].
Proof.
  induction 1 as [|x l Hx _ IH]; [done|]. by rewrite filter_cons_False.
Qed.

Lemma elem_of_concat {A} (ls : list (list A)) x :
  x ∈ concat ls ↔ ∃ l, l ∈ ls ∧ x ∈ l.
Proof.
  induction ls as [|l ls IH]; simpl.
  - split; [by intros ?%elem_of_nil|]. by intros (? & ?%elem_of_nil & _).
  - rewrite elem_of_app, IH. split.
    + intros [?|(l' & ? & ?)]; [exists l|exists l']; split; auto; by constructor.
    + intros (l' & [->|?]%elem_of_cons & ?); eauto.
Qed.

Lemma exactly_one_test (k_folds : list fold) x :
  NoDup (concat (snd <$> k_folds)) → x ∈ concat (snd <$> k_folds) →
  length (filter (λ f : fold, x ∈ f.2) k_folds) = 1%nat.
Proof.
  induction k_folds as [|[train test] k_folds IH]; csimpl.
  - by intros _ ?%elem_of_nil.
  - intros (Htest & Hdisj & Hrest)%NoDup_app Hx. rewrite filter_cons. simpl.
    case_decide as Hin.
    + simpl. f_equal. rewrite filter_none; [done|]. apply Forall_forall.
      intros [tr te] Hf Hte. simpl in Hte. apply (Hdisj x Hin).
      apply elem_of_concat. exists te. split; [|done].
      apply list_elem_of_fmap. by exists (tr, te).
    + apply IH; [done|]. apply elem_of_app in Hx as [?|?]; done.
Qed.

End fold_claims.

(** C1.  For every index subset produced by [indices] and every integer
    [k_folds >= 2], [get_indices] returns, and in every [(train, test)]
    pair it returns no index is in both the train set and the test set;
    this holds whatever [fold_idxes_to_include] is. *)
Theorem get_indices_no_overlap self spec k include idxes :
  lookup_subset self spec = Ok idxes → 2 ≤ k →
  ∃ k_folds,
    get_indices self spec (KInt k) include = Ok k_folds ∧
    ∀ train test, (train, test) ∈ k_folds → ∀ x, x ∈ train → x ∉ test.
Proof.
  intros Hsub Hk.
  destruct (get_indices_kfold self spec k include idxes Hsub Hk)
    as (splits & all_folds & Hsplit & Hb & Hlen & ->).
  eexists. split; [done|]. intros train test Hin x Hx.
  assert ((train, test) ∈ all_folds) as Hin'.
  { destruct include as [[|??]|]; [done| |done].
    by eapply select_folds_subseteq. }
  destruct (build_folds_elem _ _ _ _ Hb ltac:(lia) Hin') as (i & Hi & ->).
  eapply other_pieces_disjoint; [|done..].
  rewrite (array_split_concat _ _ _ Hsplit).
  by eapply lt_sorted_NoDup, lookup_subset_sorted.
Qed.

Lemma get_indices_no_overlap_witness :
  lookup_subset example_stimulus ("all", "lo")
    = Ok ((λ i, 2 * i) <$> seqZ 0 30) ∧
  ∃ k_folds,
    get_indices example_stimulus ("all", "lo") (KInt 4) (Some [0; 2])
      = Ok k_folds ∧
    ∀ train test, (train, test) ∈ k_folds → ∀ x, x ∈ train → x ∉ test.
Proof.
  split; [vm_compute; reflexivity|].
  apply (get_indices_no_overlap example_stimulus ("all", "lo") 4 (Some [0; 2])
           ((λ i, 2 * i) <$> seqZ 0 30)); [vm_compute; reflexivity|lia].
Defined.

(** C2, as the code has it.  For every index subset produced by [indices]
    and every integer [k_folds >= 2], when [fold_idxes_to_include] is
    [None] or empty, [get_indices] returns [k_folds] folds, the sorted
    concatenation of their test sets is the subset, and every index of
    the subset is in exactly one test set. *)
Theorem get_indices_coverage self spec k include idxes :
  lookup_subset self spec = Ok idxes → 2 ≤ k →
  include = None ∨ include = Some [] →
  ∃ k_folds,
    get_indices self spec (KInt k) include = Ok k_folds ∧
    length k_folds = Z.to_nat k ∧
    Np.sort (concat (snd <$> k_folds)) = idxes ∧
    ∀ x, x ∈ idxes → length (filter (λ f : fold, x ∈ f.2) k_folds) = 1%nat.
Proof.
  intros Hsub Hk Hincl.
  destruct (get_indices_kfold self spec k include idxes Hsub Hk)
    as (splits & all_folds & Hsplit & Hb & Hlen & Hget).
  pose proof (lookup_subset_sorted _ _ _ Hsub) as Hsorted.
  pose proof (build_folds_tests _ _ Hb ltac:(lia)) as Htests.
  pose proof (array_split_concat _ _ _ Hsplit) as Hcat.
  exists all_folds. split_and!.
  - rewrite Hget. by destruct Hincl as [-> | ->].
  - by rewrite <-Hlen, <-Htests, length_fmap.
  - rewrite Htests, Hcat. by apply sort_sorted.
  - intros x Hx. apply exactly_one_test; rewrite Htests, Hcat; [|done].
    by apply lt_sorted_NoDup.
Qed.

Lemma get_indices_coverage_witness :
  lookup_subset example_stimulus ("all", "hi")
    = Ok ((λ i, 2 * i + 1) <$> seqZ 0 30) ∧
  ∃ k_folds,
    get_indices example_stimulus ("all", "hi") (KInt 7) None = Ok k_folds ∧
    length k_folds = 7%nat ∧
    Np.sort (concat (snd <$> k_folds)) = (λ i, 2 * i + 1) <$> seqZ 0 30 ∧
    ∀ x, x ∈ (λ i, 2 * i + 1) <$> seqZ 0 30 →
         length (filter (λ f : fold, x ∈ f.2) k_folds) = 1%nat.
Proof.
  split; [vm_compute; reflexivity|].
  apply (get_indices_coverage example_stimulus ("all", "hi") 7 None
           ((λ i, 2 * i + 1) <$> seqZ 0 30));
    [vm_compute; reflexivity|lia|by left].
Defined.

(** C2 as stated fails when a selection of folds is requested: with
    [fold_idxes_to_include = [0]] only the first of the two folds is
    returned, and its test set is the first half of the subset. *)
Lemma get_indices_selected_folds_do_not_cover :
  lookup_subset example_stimulus ("all", "all") = Ok (seqZ 0 60) ∧
  get_indices example_stimulus ("all", "all") (KInt 2) (Some [0])
    = Ok [(seqZ 30 30, seqZ 0 30)] ∧
  Np.sort (concat (snd <$> [(seqZ 30 30, seqZ 0 30)])) ≠ seqZ 0 60 ∧
  length (filter (λ f : fold, 45 ∈ f.2) [(seqZ 30 30, seqZ 0 30)]) ≠ 1%nat.
Proof.
  split_and!; [vm_compute; reflexivity..| |].
  - vm_compute. discriminate.
  - vm_compute. discriminate.
Qed.

(** C9.  With [k_folds] [None] or [1], [get_indices] returns exactly one
    pair: the subset is cut into 10 consecutive pieces whose lengths
    differ by at most one, [train] is the first nine pieces and [test] the
    tenth; [train] and [test] are disjoint and together they are the
    subset. *)
Theorem get_indices_single_split self spec k_folds include idxes :
  lookup_subset self spec = Ok idxes →
  k_folds = KNone ∨ k_folds = KInt 1 →
  ∃ splits train test,
    Np.array_split idxes 10 = Ok splits ∧
    length splits = 10%nat ∧
    concat splits = idxes ∧
    (∀ piece, piece ∈ splits →
       length piece = (length idxes / 10)%nat ∨
       length piece = S (length idxes / 10)) ∧
    get_indices self spec k_folds include = Ok [(train, test)] ∧
    train = concat (take 9 splits) ∧
    splits !! 9%nat = Some test ∧
    train ++ test = idxes ∧
    (∀ x, x ∈ train → x ∉ test).
Proof.
  intros Hsub Hk.
  pose proof (lookup_subset_sorted _ _ _ Hsub) as Hsorted.
  destruct (Np.array_split idxes 10) as [splits|] eqn:Hsplit; [|done].
  pose proof (array_split_length _ _ _ Hsplit) as [Hlen _].
  pose proof (array_split_concat _ _ _ Hsplit) as Hcat.
  change (Z.to_nat 10) with 10%nat in Hlen.
  destruct (lookup_lt_is_Some_2 splits 9) as [test Htest]; [lia|].
  assert (splits = take 9 splits ++ [test]) as Hsnoc.
  { rewrite <-(take_drop_middle _ _ _ Htest) at 1. f_equal.
    rewrite drop_ge by lia. done. }
  assert (last splits = Some test) as Hlast by (rewrite Hsnoc; apply last_snoc).
  assert (concat (take 9 splits) ++ test = idxes) as Happ.
  { rewrite <-Hcat. rewrite Hsnoc at 2.
    rewrite concat_app. simpl. by rewrite app_nil_r. }
  exists splits, (concat (take 9 splits)), test. split_and!; try done.
  - intros piece Hin.
    apply (array_split_piece_length _ _ _ _ Hsplit Hin).
  - assert (get_indices self spec KNone include
            = Ok [(concat (take 9 splits), test)]) as HNone.
    { unfold get_indices. rewrite Hsub.
    cbn [mbind result_bind is_all_train is_none_or_one array_split_by].
      rewrite Hsplit. cbn [mbind result_bind]. rewrite Hlen, Hlast.
      change (10 - 1)%nat with 9%nat.
      rewrite np_concatenate_Ok; [done|].
      intros Hnil%(f_equal length). rewrite length_take in Hnil.
      change (length []) with 0%nat in Hnil. lia. }
    destruct Hk as [-> | ->]; [done|].
    rewrite <-HNone. unfold get_indices. rewrite Hsub.
    cbn [mbind result_bind is_all_train is_none_or_one array_split_by].
    by rewrite bool_decide_eq_true_2.
  - intros x Hx Hx'. apply lt_sorted_NoDup in Hsorted.
    rewrite <-Happ in Hsorted. apply NoDup_app in Hsorted as (_ & Hd & _).
    by apply (Hd x).
Qed.

Lemma get_indices_single_split_witness :
  lookup_subset example_stimulus ("all", "all") = Ok (seqZ 0 60) ∧
  ∃ splits train test,
    Np.array_split (seqZ 0 60) 10 = Ok splits ∧
    length splits = 10%nat ∧
    concat splits = seqZ 0 60 ∧
    (∀ piece, piece ∈ splits →
       length piece = (length (seqZ 0 60) / 10)%nat ∨
       length piece = S (length (seqZ 0 60) / 10)) ∧
    get_indices example_stimulus ("all", "all") (KInt 1) None
      = Ok [(train, test)] ∧
    train = concat (take 9 splits) ∧
    splits !! 9%nat = Some test ∧
    train ++ test = seqZ 0 60 ∧
    (∀ x, x ∈ train → x ∉ test).
Proof.
  split; [vm_compute; reflexivity|].
  apply (get_indices_single_split example_stimulus ("all", "all") (KInt 1) None
           (seqZ 0 60)); [vm_compute; reflexivity|by right].
Defined.

Example get_indices_single_split_example :
  get_indices example_stimulus ("all", "all") KNone None
  = Ok [(seqZ 0 54, seqZ 54 6)].
Proof. vm_compute. reflexivity. Qed.

(** ** The ['valid20'] subsets *)

Section valid20.
Import Np.

Lemma stimulus_order_12 :
  stimulus_order [12]
  = ["type_12_drc1_dur25_contrast20"; "type_12_drc1_dur25_contrast40";
     "type_12_drc2_dur25_contrast20"; "type_12_drc2_dur25_contrast40"].
Proof. reflexivity. Qed.

(** the segment metadata [__init__] derives from four grids of 1600
    columns *)
Lemma Stimulus_init_12 store self :
  Stimulus_init (STInt 12) store = Ok self →
  (∀ code info, code ∈ stimulus_order [12] → store !! code = Some info →
                grid_columns info = 1600%nat) →
  stim_types self = [12] ∧
  segment_lengths self = replicate 4 1600%nat ∧
  t_bins_from_onset self = replicate 4 (arange 0 1600).
Proof.
  unfold Stimulus_init. rewrite stimulus_order_12. intros Hinit Hcols.
  cbn [mapM mbind mret result_bind result_ret] in Hinit.
  repeat match type of Hinit with
    | context [store !! ?c] =>
        let E := fresh "E" in
        destruct (store !! c) as [?|] eqn:E; cbn [of_option] in Hinit; [|done];
        apply Hcols in E; [|rewrite !elem_of_cons; tauto]
    end.
  apply Ok_inj in Hinit as <-. cbn [stim_types segment_lengths t_bins_from_onset].
  cbn [fmap list_fmap].
  repeat match goal with E : grid_columns _ = _ |- _ => rewrite E; clear E end.
  done.
Qed.

Lemma hard_coded_valid20_mod i :
  i ∈ concat [arange 20 1600; arange (1600 + 20) 3200;
              arange (3200 + 20) 4800; arange (4800 + 20) 6400]
  ↔ 0 ≤ i < 6400 ∧ 20 ≤ i mod 1600.
Proof.
  cbn [concat]. rewrite !elem_of_app, !elem_of_arange, elem_of_nil.
  pose proof (Z.div_mod i 1600 ltac:(lia)).
  pose proof (Z.mod_pos_bound i 1600 ltac:(lia)).
  lia.
Qed.

Lemma hard_coded_valid20_filter :
  concat [arange 20 1600; arange (1600 + 20) 3200;
          arange (3200 + 20) 4800; arange (4800 + 20) 6400]
  = filter (λ i, 20 ≤ i mod 1600) (arange 0 6400).
Proof. vm_compute. reflexivity. Qed.

Lemma hard_coded_valid20_where :
  concat [arange 20 1600; arange (1600 + 20) 3200;
          arange (3200 + 20) 4800; arange (4800 + 20) 6400]
  = where_ ((λ t, bool_decide (20 ≤ t))
              <$> concat (replicate 4 (arange 0 1600))).
Proof. vm_compute. reflexivity. Qed.

End valid20.

Lemma idx_table_lookups self (aa al ah va vl vh : list Z) :
  indices self
  = Ok {[ "all" := {[ "all" := aa; "lo" := al; "hi" := ah ]};
          "valid20" := {[ "all" := va; "lo" := vl; "hi" := vh ]} ]} →
  lookup_subset self ("all", "all") = Ok aa ∧
  lookup_subset self ("all", "lo") = Ok al ∧
  lookup_subset self ("all", "hi") = Ok ah ∧
  lookup_subset self ("valid20", "all") = Ok va ∧
  lookup_subset self ("valid20", "lo") = Ok vl ∧
  lookup_subset self ("valid20", "hi") = Ok vh.
Proof.
  intros H. unfold lookup_subset. rewrite H. cbn [mbind result_bind fst snd].
  rewrite lookup_insert_eq, lookup_insert_ne, lookup_singleton_eq by done.
  cbn [of_option mbind result_bind].
  rewrite !lookup_insert_eq.
  rewrite !(lookup_insert_ne _ "all" "lo"), !(lookup_insert_ne _ "all" "hi") by done.
  rewrite !lookup_insert_eq.
  rewrite !(lookup_insert_ne _ "lo" "hi"), !lookup_singleton_eq by done.
  done.
Qed.

(** C3.  For stimulus type 12, whose four grids have 1600 columns each,
    ['valid20']['all'] holds exactly the indices [i] of [0, 6400) with
    [i mod 1600 >= 20]; it is the array [np.where(t_bins_from_onset >= 20)]
    obtained from the segment metadata; and ['valid20']['lo'] and
    ['valid20']['hi'] are its intersections with ['all']['lo'] and
    ['all']['hi']. *)
Theorem valid20_indices_stim12 store self :
  Stimulus_init (STInt 12) store = Ok self →
  (∀ code info, code ∈ stimulus_order [12] → store !! code = Some info →
                grid_columns info = 1600%nat) →
  ∃ va vl vh al ah,
    lookup_subset self ("valid20", "all") = Ok va ∧
    lookup_subset self ("valid20", "lo") = Ok vl ∧
    lookup_subset self ("valid20", "hi") = Ok vh ∧
    lookup_subset self ("all", "lo") = Ok al ∧
    lookup_subset self ("all", "hi") = Ok ah ∧
    (∀ i, i ∈ va ↔ 0 ≤ i < 6400 ∧ 20 ≤ i mod 1600) ∧
    va = filter (λ i, 20 ≤ i mod 1600) (Np.arange 0 6400) ∧
    va = Np.where_ ((λ t, bool_decide (20 ≤ t))
                      <$> concat (t_bins_from_onset self)) ∧
    vl = Np.intersect1d va al ∧
    vh = Np.intersect1d va ah ∧
    (∀ i, i ∈ vl ↔ i ∈ va ∧ i ∈ al) ∧
    (∀ i, i ∈ vh ↔ i ∈ va ∧ i ∈ ah).
Proof.
  intros Hinit Hcols.
  destruct (Stimulus_init_12 _ _ Hinit Hcols) as (Hty & _ & Hbins).
  assert (∃ al ah va,
    al = concat [Np.arange 0 1600; Np.arange 3200 4800] ∧
    ah = concat [Np.arange 1600 3200; Np.arange 4800 6400] ∧
    va = concat [Np.arange 20 1600; Np.arange (1600 + 20) 3200;
                 Np.arange (3200 + 20) 4800; Np.arange (4800 + 20) 6400] ∧
    indices self
    = Ok {[ "all" := {[ "all" := Np.arange 0 6400; "lo" := al; "hi" := ah ]};
            "valid20" := {[ "all" := va;
                            "lo" := Np.intersect1d va al;
                            "hi" := Np.intersect1d va ah ]} ]})
    as (al & ah & va & Hal & Hah & Hva & Hidx).
  { eexists _, _, _. split_and!; [reflexivity..|].
    unfold indices. rewrite bool_decide_eq_true_2 by done.
    rewrite !np_concatenate_Ok by done. reflexivity. }
  apply idx_table_lookups in Hidx as (_ & Hl & Hh & Hv & Hvl & Hvh).
  exists va, (Np.intersect1d va al), (Np.intersect1d va ah), al, ah.
  do 5 (split; [assumption|]).
  split; [intros i; rewrite Hva; apply hard_coded_valid20_mod|].
  split; [rewrite Hva; apply hard_coded_valid20_filter|].
  split; [rewrite Hva, Hbins; apply hard_coded_valid20_where|].
  do 2 (split; [reflexivity|]).
  split; intros i; apply elem_of_intersect1d.
Qed.

Lemma valid20_indices_stim12_witness :
  ∃ va vl vh al ah,
    lookup_subset example_stimulus_12 ("valid20", "all") = Ok va ∧
    lookup_subset example_stimulus_12 ("valid20", "lo") = Ok vl ∧
    lookup_subset example_stimulus_12 ("valid20", "hi") = Ok vh ∧
    lookup_subset example_stimulus_12 ("all", "lo") = Ok al ∧
    lookup_subset example_stimulus_12 ("all", "hi") = Ok ah ∧
    (∀ i, i ∈ va ↔ 0 ≤ i < 6400 ∧ 20 ≤ i mod 1600) ∧
    va = filter (λ i, 20 ≤ i mod 1600) (Np.arange 0 6400) ∧
    va = Np.where_ ((λ t, bool_decide (20 ≤ t))
                      <$> concat (t_bins_from_onset example_stimulus_12)) ∧
    vl = Np.intersect1d va al ∧
    vh = Np.intersect1d va ah ∧
    (∀ i, i ∈ vl ↔ i ∈ va ∧ i ∈ al) ∧
    (∀ i, i ∈ vh ↔ i ∈ va ∧ i ∈ ah).
Proof.
  apply (valid20_indices_stim12 example_store_12 example_stimulus_12).
  - vm_compute. reflexivity.
  - intros code info Hcode. rewrite stimulus_order_12, !elem_of_cons, elem_of_nil in Hcode.
    destruct Hcode as [->|[->|[->|[->|[]]]]]; vm_compute; intros [= <-]; reflexivity.
Defined.

(** ** The windows of the batch jobs *)

Section windows.
Context {A : Type}.
Implicit Types (l : list A).

Lemma ceil_div_bounds (n S : Z) :
  0 ≤ n → 1 ≤ S →
  let L := - ((- n) / S) in
  0 ≤ L ∧ n ≤ S * L ∧ S * L < n + S.
Proof.
  intros Hn HS L. subst L.
  pose proof (Z.div_mod (- n) S ltac:(lia)).
  pose proof (Z.mod_pos_bound (- n) S ltac:(lia)).
  nia.
Qed.

Lemma take_clamped l (k : nat) : take (k `min` length l) l = take k l.
Proof.
  destruct (decide (k ≤ length l)%nat).
  - by rewrite Nat.min_l.
  - rewrite Nat.min_r, !take_ge by lia. done.
Qed.

(** a slice with non-negative bounds is a [take] of a [drop] *)
Lemma py_slice_nonneg l (a len : nat) :
  py_slice l (Z.of_nat a) (Z.of_nat a + Z.of_nat len) = take len (drop a l).
Proof.
  unfold py_slice.
  destruct (Z.ltb_spec (Z.of_nat a) 0) as [|_]; [lia|].
  destruct (Z.ltb_spec (Z.of_nat a + Z.of_nat len) 0) as [|_]; [lia|].
  destruct (decide (a ≤ length l)%nat) as [Ha|Ha].
  - rewrite (Z.min_l (Z.of_nat a)), Nat2Z.id by lia.
    rewrite <-(take_clamped (drop a l) len), length_drop. f_equal. lia.
  - rewrite (Z.min_r (Z.of_nat a)), Nat2Z.id by lia.
    rewrite !drop_ge by lia. by rewrite !take_nil.
Qed.


End windows.

Lemma segment_window_Ok {A} (clusters : list A) (S : Z) (j : nat) :
  1 ≤ S →
  let L := Z.to_nat (- ((- Z.of_nat (length clusters)) / S)) in
  segment_window clusters (Z.of_nat j + 1) S
  = Ok (take L (drop (j * L) clusters)).
Proof.
  intros HS L. unfold segment_window, ceil_div.
  destruct (Z.eqb_spec S 0) as [|_]; [lia|]. cbn [mbind result_bind]. f_equal.
  destruct (ceil_div_bounds (Z.of_nat (length clusters)) S) as (HL & _); [lia..|].
  cbn zeta in HL.
  assert (- ((- Z.of_nat (length clusters)) / S) = Z.of_nat L) as ->
    by (unfold L; lia).
  replace ((Z.of_nat j + 1 - 1) * Z.of_nat L) with (Z.of_nat (j * L)) by nia.
  apply py_slice_nonneg.
Qed.

Example segment_windows_7_3 :
  mapM (λ s, segment_window [1; 2; 3; 4; 5; 6; 7] s 3) (seqZ 1 3)
  = Ok [[1; 2; 3]; [4; 5; 6]; [7]].
Proof. reflexivity. Qed.

(** ** Noise ratio at load time *)

Lemma init_noiseratio_optogenetic d whole per_condition opt :
  d !! "optogenetic" = Some opt → truthy opt = true →
  ∃ d', init_power_fields d whole per_condition = Ok d' ∧
        d' !! "noiseratio"
        = Some (VFloat
                  (let p := per_condition "light_off" in
                   if PrimFloat.eqb (signal_power p) 0 then PrimFloat.nan
                   else PrimFloat.div (noise_power p) (signal_power p))).
Proof.
  intros Hopt Ht. unfold init_power_fields, cluster_get.
  rewrite Hopt. cbn [of_option mbind result_bind]. rewrite Ht.
  cbn [foldl]. rewrite lookup_insert_ne, lookup_insert_eq by done.
  cbn [of_option mbind result_bind]. eexists. split; [done|].
  unfold condition_power_fields. cbn [foldl fst snd].
  by rewrite lookup_insert_eq.
Qed.

Lemma init_noiseratio_not_optogenetic d whole per_condition opt :
  d !! "optogenetic" = Some opt → truthy opt = false →
  ∃ d', init_power_fields d whole per_condition = Ok d' ∧
        d' !! "noiseratio"
        = Some (VFloat (PrimFloat.div (noise_power whole) (signal_power whole))).
Proof.
  intros Hopt Ht. unfold init_power_fields, cluster_get.
  rewrite Hopt. cbn [of_option mbind result_bind]. rewrite Ht.
  eexists. split; [done|]. by rewrite lookup_insert_eq.
Qed.

(** C8 at its failing input.  A cluster that is not optogenetic and whose
    signal power is zero with a non-zero noise power gets the noise ratio
    [+inf], which is not NaN; the optogenetic branch guards this case. *)
Theorem init_noiseratio_zero_signal_is_inf :
  ∃ d,
    init_power_fields {[ "optogenetic" := VInt 0 ]}
      {| signal_power := 0; noise_power := 0.5; total_power := 0.5 |}
      (λ _, {| signal_power := 0; noise_power := 0.5; total_power := 0.5 |})
    = Ok d ∧
    d !! "signal_power" = Some (VFloat 0) ∧
    d !! "noiseratio" = Some (VFloat infinity) ∧
    PrimFloat.is_nan infinity = false.
Proof.
  destruct (init_noiseratio_not_optogenetic {[ "optogenetic" := VInt 0 ]}
              {| signal_power := 0; noise_power := 0.5; total_power := 0.5 |}
              (λ _, {| signal_power := 0; noise_power := 0.5; total_power := 0.5 |})
              (VInt 0)) as (d & Hd & Hnr); [done..|].
  exists d. split_and!; [done| |done|done].
  unfold init_power_fields, cluster_get in Hd.
  rewrite lookup_singleton_eq in Hd. cbn in Hd. apply Ok_inj in Hd as <-.
  by rewrite !lookup_insert_ne, lookup_insert_eq by done.
Qed.

Example init_noiseratio_zero_signal_optogenetic :
  ∃ d,
    init_power_fields {[ "optogenetic" := VInt 1 ]}
      {| signal_power := 0; noise_power := 0.5; total_power := 0.5 |}
      (λ _, {| signal_power := 0; noise_power := 0.5; total_power := 0.5 |})
    = Ok d ∧
    d !! "noiseratio" = Some (VFloat PrimFloat.nan).
Proof.
  destruct (init_noiseratio_optogenetic {[ "optogenetic" := VInt 1 ]}
              {| signal_power := 0; noise_power := 0.5; total_power := 0.5 |}
              (λ _, {| signal_power := 0; noise_power := 0.5; total_power := 0.5 |})
              (VInt 1)) as (d & Hd & Hnr); [done..|].
  by exists d.
Qed.

(** ** [select_data] with a noise-ratio threshold *)





(** a threshold above [2^63] keeps every cluster that is not NaN *)
Example select_data_threshold_huge :
  select_data [("noiseratio", VInt (2 ^ 63))] example_clusters
  = Ok [example_clusters !!! 0%nat; example_clusters !!! 2%nat].
Proof. vm_compute. reflexivity. Qed.

Example select_data_threshold_200 :
  select_data [("noiseratio", VInt 200)] example_clusters
  = Ok (take 1 example_clusters).
Proof. vm_compute. reflexivity. Qed.

(** ** Reasoning about stateful computations *)

Section monad_facts.
Context {A B : Type}.

Lemma M_bind_inv (m : M A) (f : A → M B) w r w' :
  (m ≫= f) w = (r, w') →
  (∃ a w1, m w = (Ok a, w1) ∧ f a w1 = (r, w')) ∨
  (∃ e, m w = (Raise e, w') ∧ r = Raise e).
Proof.
  unfold mbind, M_bind. destruct (m w) as [[a|e] w1]; intros Heq.
  - left. eauto.
  - right. injection Heq as <- <-. eauto.
Qed.

Lemma M_bind_Ok (m : M A) (f : A → M B) w a w1 :
  m w = (Ok a, w1) → (m ≫= f) w = f a w1.
Proof. unfold mbind, M_bind. by intros ->. Qed.

Lemma M_bind_Raise (m : M A) (f : A → M B) w e w1 :
  m w = (Raise e, w1) → (m ≫= f) w = (Raise e, w1).
Proof. unfold mbind, M_bind. by intros ->. Qed.

Lemma lift_bind (x : result A) (f : A → M B) w :
  (lift x ≫= f) w = match x with Ok a => f a w | Raise e => (Raise e, w) end.
Proof. unfold mbind, M_bind, lift. by destruct x. Qed.

Lemma ret_bind (a : A) (f : A → M B) w : (mret a ≫= f) w = f a w.
Proof. done. Qed.

Lemma gets_bind (g : world → A) (f : A → M B) w :
  (gets g ≫= f) w = f (g w) w.
Proof. done. Qed.

Lemma modify_bind (g : world → world) (f : unit → M B) w :
  (modify g ≫= f) w = f tt (g w).
Proof. done. Qed.

End monad_facts.

Section respects_facts.
Context (P : world → world → Prop) `{!Reflexive P, !Transitive P}.

Lemma respects_ret {A} (a : A) : respects P (mret a).
Proof. intros w r w' [= <- <-]. done. Qed.

Lemma respects_lift {A} (x : result A) : respects P (lift x).
Proof. intros w r w' [= <- <-]. done. Qed.

Lemma respects_gets {A} (g : world → A) : respects P (gets g).
Proof. intros w r w' [= <- <-]. done. Qed.

Lemma respects_modify (g : world → world) :
  (∀ w, P w (g w)) → respects P (modify g).
Proof. intros Hg w r w' [= <- <-]. apply Hg. Qed.

Lemma respects_bind {A B} (m : M A) (f : A → M B) :
  respects P m → (∀ a, respects P (f a)) → respects P (m ≫= f).
Proof.
  intros Hm Hf w r w' Hrun.
  apply M_bind_inv in Hrun as [(a & w1 & H1 & H2)|(e & H1 & _)].
  - etrans; [by eapply Hm|by eapply Hf].
  - by eapply Hm.
Qed.

Lemma respects_try_except {A} (body handler : M A) handled :
  respects P body → respects P handler →
  respects P (try_except body handled handler).
Proof.
  intros Hb Hh w r w'. unfold try_except.
  destruct (body w) as [[a|e] w1] eqn:E.
  - intros [= <- <-]. by eapply Hb.
  - destruct (handled e).
    + intros Hrun. etrans; [by eapply Hb|by eapply Hh].
    + intros [= <- <-]. by eapply Hb.
Qed.

Lemma respects_for_fold {A B} (body : B → A → M B) acc xs :
  (∀ acc x, x ∈ xs → respects P (body acc x)) →
  respects P (for_fold body acc xs).
Proof.
  revert acc. induction xs as [|x xs IH]; intros acc Hbody; simpl.
  - apply respects_ret.
  - apply respects_bind.
    + apply Hbody. by left.
    + intros acc'. apply IH. intros ?? Hin. apply Hbody. by right.
Qed.

Lemma respects_for_each {A} (body : A → M unit) xs :
  (∀ x, x ∈ xs → respects P (body x)) → respects P (for_each body xs).
Proof. intros Hbody. apply respects_for_fold. auto. Qed.

Lemma respects_if {A} (b : bool) (m1 m2 : M A) :
  respects P m1 → respects P m2 → respects P (if b then m1 else m2).
Proof. by destruct b. Qed.

End respects_facts.

(** ** What the cache layer leaves alone *)

Global Instance same_io_refl : Reflexive same_io.
Proof. by intros w. Qed.
Global Instance same_io_trans : Transitive same_io.
Proof. intros w1 w2 w3 (?&?&?&?) (?&?&?&?). unfold same_io. split_and!; congruence. Qed.

Ltac respects_step :=
  lazymatch goal with
  | |- respects ?P (mret _) => apply (respects_ret P)
  | |- respects ?P (lift _) => apply (respects_lift P)
  | |- respects ?P (gets _) => apply (respects_gets P)
  | |- respects ?P (_ ≫= _) => apply (respects_bind P); [|intros ?]
  | |- respects ?P (try_except _ _ _) => apply (respects_try_except P)
  | |- respects ?P (for_each _ _) => apply (respects_for_each P); intros ? _
  | |- respects ?P (for_fold _ _ _) =>
      apply (respects_for_fold P); intros ? ? _
  | |- respects ?P (modify _) => apply (respects_modify P); intros ?
  | |- respects _ (match ?x with _ => _ end) => destruct x
  | |- respects _ (let _ := _ in _) => cbv zeta
  end.

Section frame.
Context `{Runtime}.

Lemma load_pickle_same_io path : respects same_io (load_pickle path).
Proof. intros w r w' [= _ <-]. done. Qed.

Lemma iterdir_same_io dir : respects same_io (iterdir dir).
Proof. intros w r w' [= _ <-]. done. Qed.

Lemma merge_one_same_io ids nf entry :
  respects same_io (merge_one ids nf entry).
Proof. unfold merge_one. repeat respects_step; done. Qed.

Lemma merge_results_same_io arg nf : respects same_io (merge_results arg nf).
Proof.
  unfold merge_results.
  repeat first [apply merge_one_same_io | apply load_pickle_same_io | respects_step].
Qed.

Lemma load_results_same_io func params fieldname :
  respects same_io (load_results func params fieldname).
Proof.
  unfold load_results.
  repeat first [apply merge_results_same_io | apply load_pickle_same_io
               | apply iterdir_same_io | respects_step].
Qed.

Lemma check_results_present_same_io fieldname noiseratio state optogenetic :
  respects same_io
    (check_results_present fieldname noiseratio state optogenetic).
Proof. unfold check_results_present. repeat respects_step; done. Qed.

Lemma load_analyses_same_io names : respects same_io (load_analyses names).
Proof.
  unfold load_analyses.
  repeat first [apply load_results_same_io
               | apply check_results_present_same_io | respects_step].
Qed.

End frame.

(** ** [merge_results] touches only the clusters its entries name *)

Section merge.
Implicit Types (ids : list value) (w : world) (c : cluster).

Lemma merge_one_inv ids nf entry w r w' :
  merge_one ids nf entry w = (r, w') →
  (∃ e, r = Raise e ∧ w' = w) ∨
  (∃ idx target updated,
     r = Ok tt ∧
     entry_index ids entry = Ok idx ∧
     self_clusters w !! idx = Some target ∧
     merged_cluster nf target entry = Ok updated ∧
     w' = set_clusters (<[idx := updated]> (self_clusters w)) w).
Proof.
  unfold merge_one. rewrite lift_bind.
  destruct (entry_index ids entry) as [idx|e] eqn:Hidx; [|intros [= <- <-]; left; by eexists].
  rewrite gets_bind, lift_bind.
  destruct (self_clusters w !! idx) as [target|] eqn:Ht;
    [|intros [= <- <-]; left; by eexists].
  cbn [of_option]. rewrite lift_bind.
  destruct (merged_cluster nf target entry) as [updated|e] eqn:Hupd;
    [|intros [= <- <-]; left; by eexists].
  intros [= <- <-]. right. by eexists _, _, _.
Qed.

Lemma merge_effect_refl ids nf es w : merge_effect ids nf es w w.
Proof.
  split_and!; [done..|]. intros i c Hc. exists c. split_and!; auto.
Qed.

Lemma merge_effect_mono ids nf es es' w w' :
  es ⊆ es' → merge_effect ids nf es w w' → merge_effect ids nf es' w w'.
Proof.
  intros Hsub (Hio & Hlen & Hcl). split_and!; [done..|].
  intros i c Hc. destruct (Hcl i c Hc) as (c' & Hc' & Hchg & Hframe).
  exists c'. split_and!; [done| |done].
  destruct Hchg as [?|(entry & ? & ?)]; [by left|right; eauto].
Qed.

Lemma merge_effect_trans ids nf es w1 w2 w3 :
  merge_effect ids nf es w1 w2 → merge_effect ids nf es w2 w3 →
  merge_effect ids nf es w1 w3.
Proof.
  intros (Hio1 & Hlen1 & Hcl1) (Hio2 & Hlen2 & Hcl2).
  split_and!; [by etrans|congruence|].
  intros i c Hc. destruct (Hcl1 i c Hc) as (c1 & Hc1 & Hchg1 & Hframe1).
  destruct (Hcl2 i c1 Hc1) as (c2 & Hc2 & Hchg2 & Hframe2).
  exists c2. split_and!; [done| |].
  - destruct Hchg2 as [->|?]; [done|by right].
  - intros f Hf k Hk. by rewrite (Hframe2 f Hf k Hk), (Hframe1 f Hf k Hk).
Qed.

Lemma merge_one_effect ids nf entry w r w' :
  merge_one ids nf entry w = (r, w') →
  merge_effect ids nf [entry] w w' ∧
  (r = Ok tt → merge_gain ids nf [entry] w').
Proof.
  intros [(e & -> & ->)|(idx & target & updated & -> & Hidx & Ht & Hupd & ->)]
    %merge_one_inv.
  { split; [apply merge_effect_refl|done]. }
  pose proof (lookup_lt_Some _ _ _ Ht) as Hlt.
  split.
  - split_and!; [done|apply length_insert|].
    intros i c Hc. cbn [self_clusters set_clusters].
    destruct (decide (i = idx)) as [->|Hne].
    + exists updated. rewrite list_lookup_insert_eq by done.
      split_and!; [done|right; exists entry; split; [by left|done]|].
      intros f Hf k Hk. unfold merged_cluster in Hupd. rewrite Hf in Hupd.
      destruct (entry_payload entry) as [v|]; [|done].
      apply Ok_inj in Hupd as <-. rewrite lookup_insert_ne by done. congruence.
    + exists c. rewrite list_lookup_insert_ne by done. split_and!; auto.
  - intros _ f i Hf (entry' & ->%list_elem_of_singleton & Hi).
    assert (i = idx) as -> by congruence.
    unfold merged_cluster in Hupd. rewrite Hf in Hupd.
    destruct (entry_payload entry) as [v|] eqn:Hv; [|done].
    apply Ok_inj in Hupd as <-.
    exists entry, v, (<[f := v]> target). cbn [self_clusters set_clusters].
    rewrite list_lookup_insert_eq, lookup_insert_eq by done.
    split_and!; [by left|done..].
Qed.

(** a merge step keeps what an earlier merge gained, or replaces it by
    the payload of one of its own entries *)
Lemma merge_gain_step ids nf es1 es2 w1 w2 :
  merge_gain ids nf es1 w1 → merge_effect ids nf es2 w1 w2 →
  merge_gain ids nf es2 w2 → merge_gain ids nf (es1 ++ es2) w2.
Proof.
  intros Hg1 (_ & _ & Hcl) Hg2 f i Hf (entry & Hin & Hi).
  assert (∀ entry, entry ∈ es2 → entry_index ids entry = Ok i →
          ∃ entry v c', entry ∈ es1 ++ es2 ∧ entry_index ids entry = Ok i ∧
                        entry_payload entry = Ok v ∧
                        self_clusters w2 !! i = Some c' ∧ c' !! f = Some v)
    as Hlater.
  { intros e2 Hin2 Hi2.
    destruct (Hg2 f i Hf) as (e & v & c' & ? & ? & ? & ? & ?); [eauto|].
    exists e, v, c'. split_and!; [apply elem_of_app; by right|done..]. }
  apply elem_of_app in Hin as [Hin1|Hin2]; [|by eapply Hlater].
  destruct (Hg1 f i Hf) as (e & v & c1 & He & Hie & Hv & Hc1 & Hfv); [eauto|].
  destruct (Hcl i c1 Hc1) as (c2 & Hc2 & [->|(e2 & Hin2 & Hi2)] & _);
    [|by eapply Hlater].
  exists e, v, c1. split_and!; [apply elem_of_app; by left|done..].
Qed.

Lemma for_each_merge ids nf es w r w' :
  for_each (merge_one ids nf) es w = (r, w') →
  merge_effect ids nf es w w' ∧ (r = Ok tt → merge_gain ids nf es w').
Proof.
  revert w. induction es as [|entry es IH]; intros w.
  - intros [= <- <-]. split; [apply merge_effect_refl|].
    intros _ f i _ (? & []%elem_of_nil & _).
  - unfold for_each. cbn [for_fold]. intros Hrun.
    apply M_bind_inv in Hrun as [([] & w1 & H1 & H2)|(e & H1 & ->)].
    + apply merge_one_effect in H1 as [Heff1 Hgain1].
      apply IH in H2 as [Heff2 Hgain2]. split.
      * eapply merge_effect_trans; (eapply merge_effect_mono; [|done]).
        -- intros x ->%list_elem_of_singleton. by left.
        -- intros x ?. by right.
      * intros ->. apply (merge_gain_step ids nf [entry] es w1 w'); auto.
    + apply merge_one_effect in H1 as [Heff1 _]. split; [|done].
      eapply merge_effect_mono; [|done].
      intros x ->%list_elem_of_singleton. by left.
Qed.

End merge.

Section merge_results_facts.

Lemma mapM_Ok_lookup {A B} (f : A → result B) l k i x :
  mapM f l = Ok k → l !! i = Some x → ∃ y, k !! i = Some y ∧ f x = Ok y.
Proof.
  revert k i. induction l as [|a l IH]; intros k i Hm Hi; [done|].
  cbn in Hm. destruct (f a) as [b|] eqn:Hfa; [|done]. cbn in Hm.
  destruct (mapM f l) as [k'|] eqn:Hk'; [|done]. cbn in Hm.
  apply Ok_inj in Hm as <-. destruct i as [|i]; simpl in *.
  - injection Hi as <-. eauto.
  - eauto.
Qed.

Lemma entry_index_Ok ids entry i :
  entry_index ids entry = Ok i →
  ∃ uid id, getitem entry "unique_id" = Ok uid ∧ ids !! i = Some id ∧
            py_eq id uid = true.
Proof.
  unfold entry_index. intros Hidx.
  destruct (getitem entry "unique_id") as [uid|]; [|done]. cbn in Hidx.
  destruct (list_find _ ids) as [[j id]|] eqn:Hfind; [|done]. cbn in Hidx.
  apply Ok_inj in Hidx as <-.
  apply list_find_Some in Hfind as (? & ? & _). eauto.
Qed.

(** the loop over the named files *)
Lemma for_each_files ids nf st filenames w r w' :
  for_each
    (λ filename,
       filename ← lift (match filename with
                        | VStr s => Ok s
                        | _ => Raise AttributeError
                        end);
       data ← load_pickle (results_filename st filename);
       entries ← lift (py_iter data);
       for_each (merge_one ids nf) entries)
    filenames w = (r, w') →
  merge_effect ids nf (filenames ≫= file_entries st (files w)) w w' ∧
  (r = Ok tt →
   merge_gain ids nf (filenames ≫= file_entries st (files w)) w').
Proof.
  revert w. induction filenames as [|filename filenames IH]; intros w.
  - intros [= <- <-]. split; [apply merge_effect_refl|].
    intros _ f i _ (? & []%elem_of_nil & _).
  - unfold for_each. cbn [for_fold]. intros Hrun.
    assert (∀ r1 w1,
      (filename ← lift (match filename with
                        | VStr s => Ok s
                        | _ => Raise AttributeError
                        end);
       data ← load_pickle (results_filename st filename);
       entries ← lift (py_iter data);
       for_each (merge_one ids nf) entries) w = (r1, w1) →
      merge_effect ids nf (file_entries st (files w) filename) w w1 ∧
      (r1 = Ok tt → merge_gain ids nf (file_entries st (files w) filename) w1))
      as Hbody.
    { intros r1 w1. rewrite lift_bind.
      assert (∀ e es, (Raise e : result unit, w) = (r1, w1) →
                      merge_effect ids nf es w w1 ∧
                      (r1 = Ok tt → merge_gain ids nf es w1))
        as Hraise.
      { intros e es [= <- <-]. split; [apply merge_effect_refl|done]. }
      destruct filename as [| | | |s| | | |]; try by apply Hraise.
      unfold load_pickle at 1. unfold mbind at 1, M_bind at 1.
      unfold file_entries.
      destruct (files w !! results_filename st s) as [data|];
        [|destruct (bool_decide _); by apply Hraise].
      rewrite lift_bind. destruct (py_iter data) as [es|]; [|by apply Hraise].
      apply for_each_merge. }
    apply M_bind_inv in Hrun as [([] & w1 & H1 & H2)|(e & H1 & ->)].
    + apply Hbody in H1 as [Heff1 Hgain1].
      apply IH in H2 as [Heff2 Hgain2].
      assert (files w1 = files w) as Hfs by apply Heff1.
      rewrite Hfs in Heff2, Hgain2. cbn [mbind list_bind]. split.
      * eapply merge_effect_trans; (eapply merge_effect_mono; [|done]).
        -- intros x ?. apply elem_of_app. by left.
        -- intros x ?. apply elem_of_app. by right.
      * intros ->. apply (merge_gain_step _ _ _ _ w1 w'); auto.
    + apply Hbody in H1 as [Heff1 _]. split; [|done].
      eapply merge_effect_mono; [|done].
      intros x ?. cbn [mbind list_bind]. apply elem_of_app. by left.
Qed.

(** [merge_results] in terms of the entries it goes through *)
Lemma merge_results_effect arg nf w r w' :
  merge_results arg nf w = (r, w') →
  ∀ ids, mapM (λ d, cluster_get d "unique_id") (self_clusters w) = Ok ids →
  merge_effect ids nf (merged_entries (self_stim_types w) (files w) arg) w w' ∧
  (r = Ok tt →
   merge_gain ids nf (merged_entries (self_stim_types w) (files w) arg) w').
Proof.
  unfold merge_results. rewrite gets_bind, lift_bind. intros Hrun ids Hids.
  rewrite Hids in Hrun. rewrite lift_bind in Hrun.
  assert (∀ e es, (Raise e : result unit, w) = (r, w') →
                  merge_effect ids nf es w w' ∧
                  (r = Ok tt → merge_gain ids nf es w')) as Hraise.
  { intros e es [= <- <-]. split; [apply merge_effect_refl|done]. }
  unfold merged_entries.
  destruct arg as [| | | | |items| | |];
    try (cbn [mbind result_bind] in Hrun; rewrite gets_bind in Hrun;
         apply for_each_files in Hrun;
         cbn [mbind list_bind] in Hrun; by rewrite app_nil_r in Hrun).
  destruct (head items) as [first|]; cbn [of_option mbind result_bind] in Hrun;
    [|by eapply Hraise].
  destruct (py_contains "unique_id" first) as [[]|]; [| |by eapply Hraise].
  - rewrite lift_bind in Hrun. cbn [py_iter] in Hrun.
    by apply for_each_merge.
  - rewrite gets_bind in Hrun. by apply for_each_files in Hrun.
Qed.

End merge_results_facts.

(** C5.  Whatever [merge_results] returns or raises, the list of clusters
    keeps its length, and for every cluster: it is left as it was when
    its ['unique_id'] equals the ['unique_id'] of no entry of the merged
    list (given directly or read from the named files); with
    [new_fieldname] given, all its keys other than [new_fieldname] are as
    before; and after a complete merge with [new_fieldname] given, the
    cluster that [unique_ids.index] finds for an entry holds under
    [new_fieldname] the first field other than ['unique_id'] of an entry
    with that index. *)
Theorem merge_results_frame arg nf w r w' :
  merge_results arg nf w = (r, w') →
  length (self_clusters w') = length (self_clusters w) ∧
  ∀ i c, self_clusters w !! i = Some c →
    ∃ c', self_clusters w' !! i = Some c' ∧
      ((∀ entry uid id,
          entry ∈ merged_entries (self_stim_types w) (files w) arg →
          getitem entry "unique_id" = Ok uid →
          c !! "unique_id" = Some id → py_eq id uid = false) →
       c' = c) ∧
      (∀ f, fieldname_given nf = Some f → ∀ k, k ≠ f → c' !! k = c !! k) ∧
      (∀ f ids, fieldname_given nf = Some f → r = Ok tt →
         mapM (λ d, cluster_get d "unique_id") (self_clusters w) = Ok ids →
         (∃ entry,
            entry ∈ merged_entries (self_stim_types w) (files w) arg ∧
            entry_index ids entry = Ok i) →
         ∃ entry v,
           entry ∈ merged_entries (self_stim_types w) (files w) arg ∧
           entry_index ids entry = Ok i ∧
           entry_payload entry = Ok v ∧ c' !! f = Some v).
Proof.
  intros Hrun.
  destruct (mapM (λ d, cluster_get d "unique_id") (self_clusters w))
    as [ids|e] eqn:Hids; last first.
  { (* a cluster without 'unique_id': KeyError before anything is merged *)
    unfold merge_results in Hrun. rewrite gets_bind, lift_bind, Hids in Hrun.
    injection Hrun as <- <-. split; [done|]. intros i c Hc. exists c.
    split_and!; [done|done|done|]. intros f ids _ [=]. }
  destruct (merge_results_effect _ _ _ _ _ Hrun ids Hids)
    as [(_ & Hlen & Hcl) Hgain].
  split; [done|]. intros i c Hc.
  destruct (Hcl i c Hc) as (c' & Hc' & Hchg & Hframe).
  exists c'. split_and!; [done| |done|].
  - intros Hnomatch. destruct Hchg as [?|(entry & Hin & Hidx)]; [done|].
    apply entry_index_Ok in Hidx as (uid & id & Huid & Hid & Heq).
    destruct (mapM_Ok_lookup _ _ _ _ _ Hids Hc) as (id' & Hid' & Hget).
    unfold cluster_get in Hget. destruct (c !! "unique_id") as [x|] eqn:Hx; [|done].
    apply Ok_inj in Hget as ->.
    rewrite (Hnomatch entry uid id) in Heq; [done..|congruence].
  - intros f ids' Hf -> [= <-] Hmatch.
    destruct (Hgain eq_refl f i Hf Hmatch)
      as (entry & v & c'' & Hin & Hidx & Hv & Hc'' & Hfv).
    exists entry, v. split_and!; [done..|congruence].
Qed.

Lemma merge_results_frame_witness :
  merge_results example_results (Some "fit") example_world
  = (Ok tt,
     set_clusters
       [ <["fit" := VDict [("cc", VFloat 0.25)]]> (example_clusters !!! 0%nat);
         example_clusters !!! 1%nat;
         <["fit" := VDict [("cc", VFloat 0.5)]]> (example_clusters !!! 2%nat) ]
       example_world) ∧
  ∀ i c, example_clusters !! i = Some c → i = 1%nat →
    (∀ entry uid id,
        entry ∈ merged_entries [12] ∅ example_results →
        getitem entry "unique_id" = Ok uid →
        c !! "unique_id" = Some id → py_eq id uid = false) ∧
    ∃ c', [ <["fit" := VDict [("cc", VFloat 0.25)]]> (example_clusters !!! 0%nat);
            example_clusters !!! 1%nat;
            <["fit" := VDict [("cc", VFloat 0.5)]]> (example_clusters !!! 2%nat) ]
            !! i = Some c' ∧ c' = c.
Proof.
  assert (merge_results example_results (Some "fit") example_world
          = (Ok tt,
             set_clusters
               [ <["fit" := VDict [("cc", VFloat 0.25)]]> (example_clusters !!! 0%nat);
                 example_clusters !!! 1%nat;
                 <["fit" := VDict [("cc", VFloat 0.5)]]> (example_clusters !!! 2%nat) ]
               example_world)) as Hrun by (vm_compute; reflexivity).
  split; [exact Hrun|]. intros i c Hc ->.
  assert (∀ entry uid id,
            entry ∈ merged_entries [12] ∅ example_results →
            getitem entry "unique_id" = Ok uid →
            c !! "unique_id" = Some id → py_eq id uid = false) as Hno.
  { injection Hc as <-. intros entry uid id Hin Hu Hid.
    vm_compute in Hid. injection Hid as <-.
    change (merged_entries [12] ∅ example_results)
      with [ VDict [("unique_id", VStr "ac-e002-p001-c001");
                    ("coch_kernel", VDict [("cc", VFloat 0.5)])];
             VDict [("unique_id", VStr "ic-e001-p001-c001");
                    ("coch_kernel", VDict [("cc", VFloat 0.25)])] ] in Hin.
    rewrite !elem_of_cons, elem_of_nil in Hin.
    destruct Hin as [->|[->|[]]]; vm_compute in Hu; injection Hu as <-;
      vm_compute; reflexivity. }
  split; [exact Hno|].
  destruct (merge_results_frame _ _ _ _ _ Hrun) as [_ Hcl].
  destruct (Hcl 1%nat c Hc) as (c' & Hc' & Hsame & _).
  exists c'. split; [exact Hc'|]. apply Hsame, Hno.
Defined.

(** ** Resuming [run_analysis] from an existing results file *)

Section resume.
Context `{Runtime}.

(** applying the analysis logs one call and changes nothing else *)
Lemma apply_func_to_cluster_inv func c params fail_on_error w r w' :
  apply_func_to_cluster func c params fail_on_error w = (r, w') →
  w' = log_call c w.
Proof.
  unfold apply_func_to_cluster. rewrite gets_bind, modify_bind.
  intros Hrun.
  apply M_bind_inv in Hrun as [(result & w1 & H1 & H2)|(e & H1 & _)].
  - assert (w1 = log_call c w) as ->.
    { destruct fail_on_error.
      - unfold lift in H1. by injection H1 as _ <-.
      - unfold try_except, lift in H1.
        destruct (fn_call func c (self_clusters w) params);
          by injection H1 as _ <-. }
    destruct (negb (truthy result)); [by injection H2 as _ <-|].
    rewrite lift_bind in H2.
    destruct (cluster_get c "unique_id"); by injection H2 as _ <-.
  - destruct fail_on_error.
    + unfold lift in H1. by injection H1 as _ <-.
    + unfold try_except, lift in H1.
      destruct (fn_call func c (self_clusters w) params);
        by injection H1 as _ <-.
Qed.

Global Instance same_disk_refl : Reflexive same_disk.
Proof. by intros w. Qed.
Global Instance same_disk_trans : Transitive same_disk.
Proof. intros w1 w2 w3 [??] [??]. unfold same_disk. split; congruence. Qed.

Lemma apply_func_to_cluster_same_disk func c params fail_on_error :
  respects same_disk (apply_func_to_cluster func c params fail_on_error).
Proof. by intros w r w' ->%apply_func_to_cluster_inv. Qed.

(** the loop of [run_single_file] leaves the files alone *)
Lemma single_file_loop_same_disk func params fail_on_error ignore_existing
    processed_ids window res :
  respects same_disk
    (for_fold
       (λ res c,
          uid ← lift (cluster_get c "unique_id");
          if py_in uid processed_ids && negb ignore_existing then mret res
          else
            r ← apply_func_to_cluster func c params fail_on_error;
            if truthy r then lift (py_append res r) else mret res)
       res window).
Proof.
  repeat first [apply apply_func_to_cluster_same_disk | respects_step].
Qed.

(** what [dump_pickle] does to the files *)
Lemma dump_pickle_inv path v w r w' :
  dump_pickle path v w = (r, w') →
  (r = Ok tt ∧ py_pickle_error v = None ∧ w' = with_pickle path v w) ∨
  (∃ e, r = Raise e ∧ py_pickle_error v = Some e ∧
        w' = without_pickle path w).
Proof.
  unfold dump_pickle. destruct (py_pickle_error v) as [e|]; intros [= <- <-].
  - right. by exists e.
  - by left.
Qed.

Lemma dump_pickle_bind {A} path v (f : unit → M A) w :
  (dump_pickle path v ≫= f) w =
  match py_pickle_error v with
  | None => f tt (with_pickle path v w)
  | Some e => (Raise e, without_pickle path w)
  end.
Proof. unfold mbind, M_bind, dump_pickle. by destruct (py_pickle_error v). Qed.

(** the loop of [run_single_file] when [ignore_existing] is off *)
Lemma resume_loop func params fail_on_error processed_ids window items w r w' :
  for_fold
    (λ res c,
       uid ← lift (cluster_get c "unique_id");
       if py_in uid processed_ids && negb false then mret res
       else
         r ← apply_func_to_cluster func c params fail_on_error;
         if truthy r then lift (py_append res r) else mret res)
    (VList items) window w = (r, w') →
  files w' = files w ∧
  ∃ called,
    calls w' = calls w ++ called ∧
    Forall (λ c, ∀ uid, c !! "unique_id" = Some uid →
                        py_in uid processed_ids = false) called ∧
    ∀ res, r = Ok res → ∃ added, res = VList (items ++ added).
Proof.
  revert items w. induction window as [|c window IH]; intros items w.
  - intros [= <- <-]. split; [done|]. exists []. rewrite app_nil_r.
    split_and!; [done|constructor|]. intros res [= <-]. exists [].
    by rewrite app_nil_r.
  - cbn [for_fold]. intros Hrun.
    assert (∀ e, r = Raise e → w' = w →
                 files w' = files w ∧
                 ∃ called,
                   calls w' = calls w ++ called ∧
                   Forall (λ c, ∀ uid, c !! "unique_id" = Some uid →
                                       py_in uid processed_ids = false) called ∧
                   ∀ res, r = Ok res → ∃ added, res = VList (items ++ added))
      as Hraise.
    { intros e -> ->. split; [done|]. exists []. rewrite app_nil_r.
      split_and!; [done|constructor|done]. }
    apply M_bind_inv in Hrun as [(res1 & w1 & H1 & H2)|(e & H1 & ->)]; last first.
    + (* the body raised *)
      rewrite lift_bind in H1. unfold cluster_get in H1.
      destruct (c !! "unique_id") as [uid|] eqn:Huid; cbn [of_option] in H1;
        [|injection H1 as <-; by eapply Hraise].
      destruct (py_in uid processed_ids && negb false) eqn:Hin; [done|].
      apply M_bind_inv in H1 as [(r1 & w1 & Ha & Hb)|(e1 & Ha & _)].
      * apply apply_func_to_cluster_inv in Ha as ->.
        assert (w' = log_call c w) as ->.
        { destruct (truthy r1); [|done]. unfold lift in Hb. by injection Hb as _ <-. }
        split; [done|]. exists [c]. split_and!; [done| |done].
        constructor; [|constructor]. intros uid' Huid'.
        rewrite Huid in Huid'. injection Huid' as <-.
        by rewrite andb_true_r in Hin.
      * apply apply_func_to_cluster_inv in Ha as ->.
        split; [done|]. exists [c]. split_and!; [done| |done].
        constructor; [|constructor]. intros uid' Huid'.
        rewrite Huid in Huid'. injection Huid' as <-.
        by rewrite andb_true_r in Hin.
    + (* the body returned [res1] *)
      rewrite lift_bind in H1. unfold cluster_get in H1.
      destruct (c !! "unique_id") as [uid|] eqn:Huid; cbn [of_option] in H1;
        [|done].
      destruct (py_in uid processed_ids && negb false) eqn:Hin.
      * injection H1 as <- <-. by apply IH.
      * apply M_bind_inv in H1 as [(r1 & w0 & Ha & Hb)|(e1 & _ & [=])].
        apply apply_func_to_cluster_inv in Ha as ->.
        assert (w1 = log_call c w ∧ ∃ added1, res1 = VList (items ++ added1))
          as [-> [added1 ->]].
        { destruct (truthy r1).
          - unfold lift, py_append in Hb. injection Hb as <- <-. eauto.
          - injection Hb as <- <-. split; [done|]. exists [].
            by rewrite app_nil_r. }
        apply IH in H2 as (Hfiles & called & Hcalls & Hall & Hres).
        split; [done|]. exists (c :: called). split_and!.
        -- rewrite Hcalls. cbn [calls log_call]. by rewrite <-app_assoc.
        -- constructor; [|done]. intros uid' Huid'.
           rewrite Huid in Huid'. injection Huid' as <-.
           by rewrite andb_true_r in Hin.
        -- intros res Hr. destruct (Hres res Hr) as [added ->].
           exists (added1 ++ added). by rewrite app_assoc.
Qed.

Lemma py_in_false x l y : py_in x l = false → y ∈ l → py_eq y x = false.
Proof.
  unfold py_in. induction l as [|z l IH]; [by intros _ ?%elem_of_nil|].
  cbn [existsb]. intros [Hz Hl]%orb_false_iff [->|Hy]%elem_of_cons; auto.
Qed.

Lemma run_single_file_resumes func params fail_on_error path window stored
    w r w' :
  run_single_file func params false fail_on_error path window w = (r, w') →
  files w !! path = Some (VList stored) →
  ∃ called,
    calls w' = calls w ++ called ∧
    (∀ c uid entry uid0,
       c ∈ called → c !! "unique_id" = Some uid →
       entry ∈ stored → getitem entry "unique_id" = Ok uid0 →
       py_eq uid0 uid = false) ∧
    (∀ res, r = Ok res →
       ∃ added, res = VList (stored ++ added) ∧
                files w' = <[path := res]> (files w) ∧
                truncated w' = truncated w ∖ {[path]}) ∧
    (∀ e, r = Raise e →
       same_disk w w' ∨
       ∃ added, py_pickle_error (VList (stored ++ added)) = Some e ∧
                files w' = delete path (files w) ∧
                truncated w' = {[path]} ∪ truncated w).
Proof.
  unfold run_single_file. rewrite gets_bind. cbn [andb]. intros Hrun Hfile.
  unfold try_except at 1, load_pickle at 1, mbind at 1, M_bind at 1 in Hrun.
  rewrite Hfile in Hrun.
  rewrite lift_bind in Hrun. cbn [py_iter] in Hrun. rewrite lift_bind in Hrun.
  destruct (mapM (λ r, getitem r "unique_id") stored) as [processed_ids|e]
    eqn:Hids.
  2:{ injection Hrun as <- <-. exists []. rewrite app_nil_r.
      split_and!; [done| |done|by left]. by intros ???? ?%elem_of_nil. }
  assert (∀ called : list cluster,
    Forall (λ c, ∀ uid, c !! "unique_id" = Some uid →
                        py_in uid processed_ids = false) called →
    ∀ c uid entry uid0,
       c ∈ called → c !! "unique_id" = Some uid →
       entry ∈ stored → getitem entry "unique_id" = Ok uid0 →
       py_eq uid0 uid = false) as Hskip.
  { intros called Hall c uid entry uid0 Hc Huid Hentry Huid0.
    rewrite Forall_forall in Hall. specialize (Hall c Hc uid Huid).
    apply list_elem_of_lookup in Hentry as [i Hi].
    destruct (mapM_Ok_lookup _ _ _ _ _ Hids Hi) as (y & Hy & Hget).
    rewrite Huid0 in Hget. apply Ok_inj in Hget as <-.
    eapply py_in_false; [done|]. by eapply list_elem_of_lookup_2. }
  apply M_bind_inv in Hrun as [(res & w1 & Hloop & Hdump)|(e & Hloop & ->)].
  - pose proof (single_file_loop_same_disk _ _ _ _ _ _ _ _ _ _ Hloop)
      as [Hfs Hts].
    apply resume_loop in Hloop as (_ & called & Hcalls & Hall & Hres).
    destruct (Hres res eq_refl) as [added ->].
    rewrite dump_pickle_bind in Hdump.
    destruct (py_pickle_error (VList (stored ++ added))) as [e|] eqn:Hpickle;
      injection Hdump as <- <-.
    + exists called. split_and!; [done|by apply Hskip|done|].
      intros ? [= <-]. right. exists added. split; [done|].
      cbn [files truncated without_pickle set_files set_truncated].
      by rewrite Hfs, Hts.
    + exists called. split_and!; [done|by apply Hskip| |done].
      intros ? [= <-]. exists added. split; [done|].
      cbn [files truncated with_pickle set_files set_truncated].
      by rewrite Hfs, Hts.
  - pose proof (single_file_loop_same_disk _ _ _ _ _ _ _ _ _ _ Hloop)
      as Hdisk.
    apply resume_loop in Hloop as (_ & called & Hcalls & Hall & Hres).
    exists called. split_and!; [done|by apply Hskip|done|by left].
Qed.

End resume.

Section run_analysis_facts.
Context `{Runtime}.

Lemma load_step_same_io (load_analyses_first : option (list string)) :
  respects same_io
    (match load_analyses_first with
     | Some ((_ :: _) as names) => load_analyses names
     | _ => mret tt
     end).
Proof.
  destruct load_analyses_first as [[|??]|];
    first [apply load_analyses_same_io | apply (respects_ret same_io)].
Qed.

(** [run_analysis] in single-file mode up to its loop: it raises before
    touching the files or calling [func], or it runs [run_single_file]
    from a state with the same files, calls and stimulus types *)
Lemma run_analysis_single_file_inv func params ignore_existing
    this_data_segment total_data_segments fail_on_error load_analyses_first
    w r w' :
  run_analysis func params true false ignore_existing this_data_segment
               total_data_segments fail_on_error load_analyses_first w
  = (r, w') →
  (∃ e, r = Raise e ∧ same_io w w') ∨
  (∃ f path window w1,
     resolve_func func = Ok f ∧
     run_analysis_results_path (self_stim_types w) (FCallable f) params
       = Ok path ∧
     same_io w w1 ∧
     run_single_file f params ignore_existing fail_on_error path window w1
       = (r, w')).
Proof.
  unfold run_analysis. rewrite gets_bind, lift_bind. intros Hrun.
  destruct (ceil_div _ _) as [segment_length|e];
    [|injection Hrun as <- <-; left; by eexists].
  rewrite lift_bind in Hrun.
  destruct (resolve_func func) as [f|e];
    [|injection Hrun as <- <-; left; by eexists].
  apply M_bind_inv in Hrun as [([] & w1 & Hload & Hrun)|(e & Hload & ->)];
    apply load_step_same_io in Hload; [|left; by eexists].
  rewrite gets_bind in Hrun. cbn [negb] in Hrun. rewrite gets_bind in Hrun.
  rewrite lift_bind in Hrun.
  assert (self_stim_types w1 = self_stim_types w) as Hst by apply Hload.
  rewrite Hst in Hrun.
  destruct (run_analysis_results_path (self_stim_types w) (FCallable f) params)
    as [path|e] eqn:Hpath.
  - right. by eexists f, path, _, w1.
  - injection Hrun as <- <-. left. by eexists.
Qed.

End run_analysis_facts.

(** C4.  [run_analysis] with [save_results=True],
    [multiple_results_files=False] and [ignore_existing=False], started
    with a results file that holds the list [stored]: [func] is applied
    to no cluster whose ['unique_id'] equals the ['unique_id'] of a stored
    entry; when it returns, the list written to the results file is
    [stored] followed by the new entries.  When it raises, either the
    files are as they were, or the exception is that of [pickle.dump] on
    the list [stored] followed by the new entries, and the results file,
    emptied when it was opened for writing, holds no pickle any more. *)
Theorem run_analysis_resumes `{Runtime} func params this_data_segment
    total_data_segments fail_on_error load_analyses_first w r w'
    f path stored :
  run_analysis func params true false false this_data_segment
               total_data_segments fail_on_error load_analyses_first w
  = (r, w') →
  resolve_func func = Ok f →
  run_analysis_results_path (self_stim_types w) (FCallable f) params = Ok path →
  files w !! path = Some (VList stored) →
  ∃ called,
    calls w' = calls w ++ called ∧
    (∀ c uid entry uid0,
       c ∈ called → c !! "unique_id" = Some uid →
       entry ∈ stored → getitem entry "unique_id" = Ok uid0 →
       py_eq uid0 uid = false) ∧
    (∀ res, r = Ok res →
       ∃ added, res = VList (stored ++ added) ∧
                files w' = <[path := res]> (files w) ∧
                truncated w' = truncated w ∖ {[path]}) ∧
    (∀ e, r = Raise e →
       (files w' = files w ∧ truncated w' = truncated w) ∨
       ∃ added, py_pickle_error (VList (stored ++ added)) = Some e ∧
                files w' = delete path (files w) ∧
                truncated w' = {[path]} ∪ truncated w).
Proof.
  intros Hrun Hf Hpath Hstored.
  apply run_analysis_single_file_inv in Hrun
    as [(e & -> & Hfs & Hcalls & _ & Hts)
       |(f' & path' & window & w1 & Hf' & Hpath' &
         (Hfs & Hcalls & _ & Hts) & Hrun)].
  - exists []. rewrite app_nil_r.
    split_and!; [done| |done|by left]. by intros ???? ?%elem_of_nil.
  - rewrite Hf in Hf'. apply Ok_inj in Hf' as <-.
    rewrite Hpath in Hpath'. apply Ok_inj in Hpath' as <-.
    rewrite <-Hfs in Hstored.
    destruct (run_single_file_resumes _ _ _ _ _ _ _ _ _ Hrun Hstored)
      as (called & Hc & Hskip & Hok & Hraise).
    exists called. split_and!; [congruence|done| |].
    + intros res Hr. destruct (Hok res Hr) as (added & -> & Hw' & Ht').
      exists added. by rewrite <-Hfs, <-Hts.
    + intros e He. rewrite <-Hfs, <-Hts.
      destruct (Hraise e He) as [[??]|?]; [by left|by right].
Qed.

Lemma run_analysis_resumes_witness :
  ∃ called,
    calls (run_analysis (H := example_runtime) (FStr "coch_kernel")
             example_params true false false 1 1 false None
             example_resumed_world).2
    = calls example_resumed_world ++ called ∧
    (∀ c uid entry uid0,
       c ∈ called → c !! "unique_id" = Some uid →
       entry ∈ example_stored → getitem entry "unique_id" = Ok uid0 →
       py_eq uid0 uid = false) ∧
    (∀ res,
       (run_analysis (H := example_runtime) (FStr "coch_kernel")
          example_params true false false 1 1 false None
          example_resumed_world).1 = Ok res →
       ∃ added,
         res = VList (example_stored ++ added) ∧
         files (run_analysis (H := example_runtime) (FStr "coch_kernel")
                  example_params true false false 1 1 false None
                  example_resumed_world).2
         = <[example_results_path := res]> (files example_resumed_world) ∧
         truncated (run_analysis (H := example_runtime) (FStr "coch_kernel")
                      example_params true false false 1 1 false None
                      example_resumed_world).2
         = truncated example_resumed_world ∖ {[example_results_path]}) ∧
    (∀ e,
       (run_analysis (H := example_runtime) (FStr "coch_kernel")
          example_params true false false 1 1 false None
          example_resumed_world).1 = Raise e →
       (files (run_analysis (H := example_runtime) (FStr "coch_kernel")
                 example_params true false false 1 1 false None
                 example_resumed_world).2
        = files example_resumed_world ∧
        truncated (run_analysis (H := example_runtime) (FStr "coch_kernel")
                     example_params true false false 1 1 false None
                     example_resumed_world).2
        = truncated example_resumed_world) ∨
       ∃ added,
         py_pickle_error (Runtime := example_runtime)
           (VList (example_stored ++ added)) = Some e ∧
         files (run_analysis (H := example_runtime) (FStr "coch_kernel")
                  example_params true false false 1 1 false None
                  example_resumed_world).2
         = delete example_results_path (files example_resumed_world) ∧
         truncated (run_analysis (H := example_runtime) (FStr "coch_kernel")
                      example_params true false false 1 1 false None
                      example_resumed_world).2
         = {[example_results_path]} ∪ truncated example_resumed_world).
Proof.
  apply (run_analysis_resumes (H := example_runtime) (FStr "coch_kernel")
           example_params 1 1 false None example_resumed_world _ _
           example_analysis example_results_path example_stored).
  - apply surjective_pairing.
  - vm_compute. reflexivity.
  - vm_compute. reflexivity.
  - vm_compute. reflexivity.
Defined.

(** the stored entry of the first cluster is kept and [func] is applied
    to the other two clusters only *)
Example run_analysis_resumes_example :
  let out := run_analysis (H := example_runtime) (FStr "coch_kernel")
               example_params true false false 1 1 false None
               example_resumed_world in
  calls out.2 = drop 1 example_clusters ∧
  out.1 = Ok (VList (example_stored ++
                [ VDict [("unique_id", VStr "ic-e001-p001-c002");
                         ("coch_kernel",
                            VDict [("noiseratio_seen", VFloat PrimFloat.nan)])];
                  VDict [("unique_id", VStr "ac-e002-p001-c001");
                         ("coch_kernel",
                            VDict [("noiseratio_seen", VFloat 300)])] ])).
Proof. split; vm_compute; reflexivity. Qed.

(** when [pickle.dump] raises on the list of three entries, the stored
    entry is lost: the results file is left without a pickle, and a
    second run stops on [EOFError] before any call to [func] *)
Example run_analysis_failing_dump :
  let out := run_analysis (H := example_runtime_failing_dump)
               (FStr "coch_kernel") example_params true false false 1 1
               false None example_resumed_world in
  out.1 = Raise PicklingError ∧
  calls out.2 = drop 1 example_clusters ∧
  files out.2 !! example_results_path = None ∧
  example_results_path ∈ truncated out.2 ∧
  let again := run_analysis (H := example_runtime_failing_dump)
                 (FStr "coch_kernel") example_params true false false 1 1
                 false None out.2 in
  again.1 = Raise EOFError ∧ calls again.2 = calls out.2.
Proof.
  cbv zeta. split_and!; vm_compute; reflexivity.
Qed.

(** ** The results file of a save is the one a load opens *)

Global Instance same_stim_types_refl : Reflexive same_stim_types.
Proof. by intros w. Qed.
Global Instance same_stim_types_trans : Transitive same_stim_types.
Proof. unfold same_stim_types. intros w1 w2 w3 ??. congruence. Qed.

Global Instance writes_results_of_refl dir raw :
  Reflexive (writes_results_of dir raw).
Proof. by intros w p. Qed.
Global Instance writes_results_of_trans dir raw :
  Transitive (writes_results_of dir raw).
Proof.
  intros w1 w2 w3 H12 H23 p Hp.
  destruct (H12 p Hp) as [E1 I1], (H23 p Hp) as [E2 I2].
  split; [congruence|tauto].
Qed.

Section save_and_load.
Context `{Runtime}.

Lemma apply_func_to_cluster_respects (R : world → world → Prop) func c params
    fail_on_error :
  (∀ w, R w (log_call c w)) →
  respects R (apply_func_to_cluster func c params fail_on_error).
Proof.
  intros HR w r w' Hrun. apply apply_func_to_cluster_inv in Hrun as ->.
  apply HR.
Qed.




End save_and_load.

Lemma run_analysis_multiple_files_inv `{Runtime} func params ignore_existing
    this_data_segment total_data_segments fail_on_error load_analyses_first
    w r w' :
  run_analysis func params true true ignore_existing this_data_segment
               total_data_segments fail_on_error load_analyses_first w
  = (r, w') →
  (∃ e, r = Raise e ∧ same_io w w') ∨
  (∃ f window w1,
     resolve_func func = Ok f ∧ same_io w w1 ∧
     run_multiple_files f params ignore_existing
       (run_analysis_results_dir (self_stim_types w) (FCallable f) params)
       (build_param_str (FCallable f) params) window w1
     = (r, w')).
Proof.
  unfold run_analysis. rewrite gets_bind, lift_bind. intros Hrun.
  destruct (ceil_div _ _) as [segment_length|e];
    [|injection Hrun as <- <-; left; by eexists].
  rewrite lift_bind in Hrun.
  destruct (resolve_func func) as [f|e];
    [|injection Hrun as <- <-; left; by eexists].
  apply M_bind_inv in Hrun as [([] & w1 & Hload & Hrun)|(e & Hload & ->)];
    apply load_step_same_io in Hload; [|left; by eexists].
  rewrite gets_bind in Hrun. cbn [negb] in Hrun. rewrite gets_bind in Hrun.
  assert (self_stim_types w1 = self_stim_types w) as Hst by apply Hload.
  rewrite Hst in Hrun. right. by eexists f, _, w1.
Qed.


(** ** The window is what [run_analysis] computes *)

Section window_calls.
Context `{Runtime}.

Lemma nosave_loop_calls func params fail_on_error window acc w res w' :
  for_fold
    (λ res c,
       r ← apply_func_to_cluster func c params fail_on_error;
       mret (if truthy r then res ++ [r] else res))
    acc window w = (Ok res, w') →
  calls w' = calls w ++ window.
Proof.
  revert acc w. induction window as [|c window IH]; intros acc w.
  - intros [= _ <-]. by rewrite app_nil_r.
  - cbn [for_fold]. intros Hrun.
    apply M_bind_inv in Hrun as [(acc1 & w1 & Hbody & Hrest)|(? & _ & [=])].
    apply M_bind_inv in Hbody as [(r1 & w0 & Ha & Hb)|(? & _ & [=])].
    apply apply_func_to_cluster_inv in Ha as ->. injection Hb as _ <-.
    apply IH in Hrest as ->. cbn [calls log_call]. by rewrite <-app_assoc.
Qed.

(** Without [save_results] and without analyses to load first, a run
    that returns has applied [func] to the clusters of its window, once
    each and in order. *)
Lemma run_analysis_calls_window func params multiple_results_files
    ignore_existing this_data_segment total_data_segments fail_on_error
    w res w' :
  run_analysis func params false multiple_results_files ignore_existing
               this_data_segment total_data_segments fail_on_error None w
  = (Ok res, w') →
  ∃ window,
    segment_window (self_clusters w) this_data_segment total_data_segments
      = Ok window ∧
    calls w' = calls w ++ window.
Proof.
  unfold run_analysis, segment_window. rewrite gets_bind, lift_bind.
  intros Hrun. destruct (ceil_div _ _) as [segment_length|]; [|done].
  rewrite lift_bind in Hrun. destruct (resolve_func func) as [f|]; [|done].
  rewrite ret_bind in Hrun.
  rewrite gets_bind in Hrun. cbn [negb] in Hrun.
  apply M_bind_inv in Hrun as [(items & w1 & Hloop & Hret)|(? & _ & [=])].
  injection Hret as _ <-. apply nosave_loop_calls in Hloop.
  eexists. split; [reflexivity|done].
Qed.

End window_calls.

(** * Further properties of [Stimulus] *)

Lemma mapM_Raise_elem {A B} (f : A → result B) l e :
  mapM f l = Raise e → ∃ x, x ∈ l ∧ f x = Raise e.
Proof.
  induction l as [|a l IH]; [done|]. cbn.
  destruct (f a) as [b|e'] eqn:Hfa; cbn.
  - destruct (mapM f l) as [k|e'] eqn:Hk; cbn; [done|].
    intros [= ->]. destruct (IH eq_refl) as (x & Hx & Hfx).
    exists x. split; [by right|done].
  - intros [= ->]. exists a. split; [by left|done].
Qed.

Lemma mapM_Ok_length {A B} (f : A → result B) l k :
  mapM f l = Ok k → length k = length l.
Proof.
  revert k. induction l as [|a l IH]; intros k; cbn.
  - by intros [= <-].
  - destruct (f a); cbn; [|done]. destruct (mapM f l); cbn; [|done].
    intros [= <-]. cbn. f_equal. by apply IH.
Qed.

(** the three flags that decide [stimulus_order] *)
Lemma stimulus_order_flags ts :
  stimulus_order ts
  = (if bool_decide (12 ∈ ts) then stimulus_order [12] else [])
    ++ (if bool_decide (19 ∈ ts) then stimulus_order [19] else [])
    ++ (if bool_decide (25 ∈ ts) then stimulus_order [25] else []).
Proof.
  unfold stimulus_order at 1, STIMULI. cbn [mbind list_bind stim_type].
  rewrite app_nil_r.
  by destruct (bool_decide (12 ∈ ts)), (bool_decide (19 ∈ ts)),
    (bool_decide (25 ∈ ts)).
Qed.

(** X1.  [stimulus_order] follows the order of the [STIMULI] table: it
    depends on the requested types only through which of them are
    requested (not their order or repetition), never yields a code twice,
    and yields nothing for a type that is not in the table. *)
Theorem stimulus_order_by_membership (ts ts' : list Z) :
  (∀ t, t ∈ ts ↔ t ∈ ts') →
  stimulus_order ts = stimulus_order ts' ∧
  NoDup (stimulus_order ts) ∧
  (12 ∉ ts → 19 ∉ ts → 25 ∉ ts → stimulus_order ts = []).
Proof.
  intros Hmem. rewrite (stimulus_order_flags ts), (stimulus_order_flags ts').
  rewrite !(bool_decide_ext _ _ (Hmem _)). split_and!.
  - done.
  - destruct (bool_decide (12 ∈ ts')), (bool_decide (19 ∈ ts')),
      (bool_decide (25 ∈ ts')); apply (bool_decide_unpack _); by vm_compute.
  - rewrite <-!(bool_decide_ext _ _ (Hmem _)). intros ???.
    by rewrite !bool_decide_eq_false_2.
Qed.

Lemma stimulus_order_by_membership_witness :
  stimulus_order [19; 12] = stimulus_order [12; 19; 12] ∧
  NoDup (stimulus_order [19; 12]) ∧
  (12 ∉ [19; 12] → 19 ∉ [19; 12] → 25 ∉ [19; 12] → stimulus_order [19; 12] = []).
Proof.
  apply (stimulus_order_by_membership [19; 12] [12; 19; 12]).
  intros t. rewrite !elem_of_cons, elem_of_nil. tauto.
Defined.

(** X2.  [Stimulus.__init__] either raises [KeyError], exactly when the
    store lacks a grid for one of the codes of [stimulus_order], or
    builds one segment per code, in that order: segment [k] has the
    length of grid [k], its contrast vector, and the time bins
    [0 .. length - 1]. *)
Theorem Stimulus_init_segments arg store :
  let ts := match arg with STInt t => [t] | STList ts => ts end in
  match Stimulus_init arg store with
  | Ok self =>
      stim_types self = ts ∧
      grid_file_codes self = stimulus_order ts ∧
      length (segment_lengths self) = length (stimulus_order ts) ∧
      ∀ k code, stimulus_order ts !! k = Some code →
        ∃ info, store !! code = Some info ∧
                segment_lengths self !! k = Some (grid_columns info) ∧
                c_t self !! k = Some (contrast info) ∧
                t_bins_from_onset self !! k
                = Some (Np.arange 0 (Z.of_nat (grid_columns info)))
  | Raise e =>
      e = KeyError ∧ ∃ code, code ∈ stimulus_order ts ∧ store !! code = None
  end.
Proof.
  intros ts. unfold Stimulus_init. fold ts.
  destruct (mapM (λ code, of_option KeyError (store !! code))
                 (stimulus_order ts)) as [infos|e] eqn:Hinfos;
    cbn [mbind result_bind].
  - split_and!; [done|done| |].
    + cbn. rewrite length_fmap. by eapply mapM_Ok_length.
    + intros k code Hk.
      destruct (mapM_Ok_lookup _ _ _ _ _ Hinfos Hk) as (info & Hinfo & Hget).
      exists info. destruct (store !! code) as [i|]; [|done].
      apply Ok_inj in Hget as ->. cbn.
      rewrite !list_lookup_fmap, Hinfo. done.
  - apply mapM_Raise_elem in Hinfos as (code & Hcode & Hget).
    destruct (store !! code) as [i|] eqn:Hs; [done|].
    cbn in Hget. injection Hget as <-. eauto.
Qed.

(** X3.  A [Stimulus] of any type list other than [[12]] and [[19]] can
    be built, but [indices] knows no subset for it: every call of
    [get_indices] raises [UnboundLocalError], whatever the arguments. *)
Theorem get_indices_unsupported_type self spec k_folds include :
  stim_types self ≠ [12] → stim_types self ≠ [19] →
  indices self = Raise UnboundLocalError ∧
  get_indices self spec k_folds include = Raise UnboundLocalError.
Proof.
  intros H12 H19.
  assert (indices self = Raise UnboundLocalError) as Hidx.
  { unfold indices. by rewrite !bool_decide_eq_false_2. }
  split; [done|]. unfold get_indices, lookup_subset. by rewrite Hidx.
Qed.

Lemma get_indices_unsupported_type_witness :
  ∃ self,
    Stimulus_init (STInt 25) example_store_25 = Ok self ∧
    indices self = Raise UnboundLocalError ∧
    get_indices self ("all", "all") (KInt 4) None = Raise UnboundLocalError.
Proof.
  destruct (Stimulus_init (STInt 25) example_store_25) as [self|] eqn:Hinit;
    [|by vm_compute in Hinit].
  exists self. split; [done|].
  assert (stim_types self = [25]) as Hty.
  { vm_compute in Hinit. by injection Hinit as <-. }
  apply (get_indices_unsupported_type self ("all", "all") (KInt 4) None);
    rewrite Hty; done.
Defined.

(** ** Positions inside the segments *)

Section segments.
Import Np.

(** where the time bin [t] of segment [k] sits in the concatenation *)
Lemma concat_aranges_lookup (lens : list nat) (n : nat) (t : Z) :
  concat ((λ len, arange 0 (Z.of_nat len)) <$> lens) !! n = Some t ↔
  ∃ k len, lens !! k = Some len ∧ 0 ≤ t < Z.of_nat len ∧
           n = (sum_list (take k lens) + Z.to_nat t)%nat.
Proof.
  revert n. induction lens as [|len lens IH]; intros n.
  - cbn. split; [done|]. by intros (k & len & ? & _).
  - cbn [fmap list_fmap concat].
    destruct (decide (n < len)%nat) as [Hlt|Hge].
    + rewrite lookup_app_l by (unfold arange; rewrite length_seqZ; lia).
      unfold arange. rewrite lookup_seqZ. split.
      * intros [-> _]. exists 0%nat, len. cbn. split_and!; first [done|lia].
      * intros (k & len' & Hk & Ht & Hn). destruct k as [|k].
        -- cbn in Hk, Hn. injection Hk as <-. lia.
        -- cbn in Hn. lia.
    + rewrite lookup_app_r by (unfold arange; rewrite length_seqZ; lia).
      unfold arange at 1. rewrite length_seqZ, IH.
      replace (Z.to_nat (Z.of_nat len - 0)) with len by lia. split.
      * intros (k & len' & Hk & Ht & Hn). exists (S k), len'. cbn.
        split_and!; first [done|lia].
      * intros (k & len' & Hk & Ht & Hn). destruct k as [|k].
        -- cbn in Hk, Hn. injection Hk as <-. lia.
        -- cbn in Hk, Hn. exists k, len'. split_and!; first [done|lia].
Qed.

End segments.

(** X4.  For a stimulus of type 19 built by [__init__], whatever the
    lengths of its segments, ['valid20']['all'] holds exactly the
    positions whose offset inside their own segment is at least 20: the
    first 20 bins of every segment are dropped, and a segment of 20 bins
    or fewer contributes nothing. *)
Theorem valid20_drops_first_20_of_each_segment store self valid20_all :
  Stimulus_init (STInt 19) store = Ok self →
  lookup_subset self ("valid20", "all") = Ok valid20_all →
  ∀ x, x ∈ valid20_all ↔
       ∃ k len offset,
         segment_lengths self !! k = Some len ∧
         20 ≤ offset < Z.of_nat len ∧
         x = Z.of_nat (sum_list (take k (segment_lengths self))) + offset.
Proof.
  intros Hinit Hsub.
  unfold Stimulus_init in Hinit. cbn [mbind result_bind] in Hinit.
  destruct (mapM _ (stimulus_order [19])) as [infos|] eqn:Hinfos; [|done].
  cbn [mbind result_bind] in Hinit. apply Ok_inj in Hinit as <-.
  assert (∃ c t,
    indices {| stim_types := [19]; grid_file_codes := stimulus_order [19];
               segment_lengths := grid_columns <$> infos;
               c_t := contrast <$> infos;
               t_bins_from_onset :=
                 (λ i, Np.arange 0 (Z.of_nat (grid_columns i))) <$> infos |}
    = Ok {[ "all" := {[ "all" := Np.arange 0 (Z.of_nat (sum_list (grid_columns <$> infos)));
                        "lo" := Np.where_ ((λ c, bool_decide (c = 0)) <$> c);
                        "hi" := Np.where_ ((λ c, bool_decide (c = 1)) <$> c) ]};
            "valid20" :=
              {[ "all" := Np.where_ ((λ t, bool_decide (20 ≤ t)) <$> t);
                 "lo" := Np.intersect1d
                           (Np.where_ ((λ t, bool_decide (20 ≤ t)) <$> t))
                           (Np.where_ ((λ c, bool_decide (c = 0)) <$> c));
                 "hi" := Np.intersect1d
                           (Np.where_ ((λ t, bool_decide (20 ≤ t)) <$> t))
                           (Np.where_ ((λ c, bool_decide (c = 1)) <$> c)) ]} ]} ∧
    t = concat ((λ len, Np.arange 0 (Z.of_nat len)) <$> (grid_columns <$> infos)))
    as (c & t & Hidx & Ht).
  { assert (infos ≠ []) as Hne.
    { apply mapM_Ok_length in Hinfos. intros ->. by vm_compute in Hinfos. }
    eexists _, _. unfold indices. cbn [stim_types c_t t_bins_from_onset segment_lengths].
    rewrite bool_decide_eq_false_2, bool_decide_eq_true_2 by done.
    rewrite !np_concatenate_Ok by (by destruct infos).
    cbn [mbind result_bind]. split; [reflexivity|].
    by rewrite <-list_fmap_compose. }
  apply idx_table_lookups in Hidx as (_ & _ & _ & Hv & _).
  rewrite Hv in Hsub. apply Ok_inj in Hsub as <-.
  intros x. cbn [segment_lengths]. rewrite elem_of_where. subst t. split.
  - intros (n & -> & Hn). rewrite list_lookup_fmap in Hn.
    destruct (concat _ !! n) as [t|] eqn:Hlk; [|done].
    cbn in Hn. injection Hn as Hn. apply bool_decide_eq_true in Hn.
    apply concat_aranges_lookup in Hlk as (k & len & Hk & Hr & ->).
    exists k, len, t. split_and!; first [done|lia].
  - intros (k & len & offset & Hk & Hoff & ->).
    exists (sum_list (take k (grid_columns <$> infos)) + Z.to_nat offset)%nat.
    split; [lia|]. rewrite list_lookup_fmap.
    rewrite (proj2 (concat_aranges_lookup _ _ offset)); last first.
    { exists k, len. split_and!; first [done|lia]. }
    cbn. f_equal. apply bool_decide_eq_true. lia.
Qed.

Lemma valid20_drops_first_20_of_each_segment_witness :
  ∃ self valid20_all,
    Stimulus_init (STInt 19) example_store_22 = Ok self ∧
    lookup_subset self ("valid20", "all") = Ok valid20_all ∧
    ∀ x, x ∈ valid20_all ↔
         ∃ k len offset,
           segment_lengths self !! k = Some len ∧
           20 ≤ offset < Z.of_nat len ∧
           x = Z.of_nat (sum_list (take k (segment_lengths self))) + offset.
Proof.
  eexists _, _. split; [vm_compute; reflexivity|].
  split; [vm_compute; reflexivity|].
  apply (valid20_drops_first_20_of_each_segment example_store_22);
    vm_compute; reflexivity.
Defined.

(** ** Low and high contrast never overlap *)

Lemma where_masks_disjoint {A} (p q : A → bool) (l : list A) x :
  (∀ a, p a = true → q a = true → False) →
  x ∈ Np.where_ (p <$> l) → x ∉ Np.where_ (q <$> l).
Proof.
  intros Hpq (n & -> & Hn)%elem_of_where (m & Hm & Hm')%elem_of_where.
  assert (m = n) as -> by lia.
  rewrite list_lookup_fmap in Hn, Hm'.
  destruct (l !! n) as [a|]; [|done]. cbn in *.
  injection Hn as Hn. injection Hm' as Hm'. eauto.
Qed.

(** the shape of the table [indices] returns *)
Lemma indices_shape self tbl :
  indices self = Ok tbl →
  ∃ all_all all_lo all_hi v_all,
    tbl = {[ "all" := {[ "all" := all_all; "lo" := all_lo; "hi" := all_hi ]};
             "valid20" := {[ "all" := v_all;
                             "lo" := Np.intersect1d v_all all_lo;
                             "hi" := Np.intersect1d v_all all_hi ]} ]} ∧
    (∀ x, x ∈ all_lo → x ∉ all_hi).
Proof.
  unfold indices. repeat case_bool_decide; [| |done].
  - rewrite !np_concatenate_Ok by done. cbn [mbind result_bind].
    intros Htbl. apply Ok_inj in Htbl. eexists _, _, _, _.
    split; [symmetry; exact Htbl|].
    intros x. cbn [concat]. rewrite !elem_of_app, !elem_of_arange, elem_of_nil.
    lia.
  - intros Htbl.
    apply bind_Ok in Htbl as (c & _ & Htbl).
    apply bind_Ok in Htbl as (t & _ & Htbl).
    apply Ok_inj in Htbl. eexists _, _, _, _.
    split; [symmetry; exact Htbl|].
    intros x. apply where_masks_disjoint. intros a Ha Hb.
    apply bool_decide_eq_true in Ha, Hb. lia.
Qed.

(** X5.  For both supported stimulus types the low-contrast and the
    high-contrast subsets share no index, in the ['all'] family and in the
    ['valid20'] family alike. *)
Theorem contrast_subsets_disjoint self family lo hi :
  lookup_subset self (family, "lo") = Ok lo →
  lookup_subset self (family, "hi") = Ok hi →
  ∀ x, x ∈ lo → x ∉ hi.
Proof.
  unfold lookup_subset. intros Hlo Hhi.
  destruct (indices self) as [tbl|] eqn:Hidx; [|done].
  cbn [mbind result_bind fst snd] in Hlo, Hhi.
  destruct (indices_shape _ _ Hidx) as (aa & al & ah & va & Htbl & Hdisj).
  destruct (tbl !! family) as [by_contrast|] eqn:Hfam; [|done].
  cbn [of_option mbind result_bind] in Hlo, Hhi.
  destruct (by_contrast !! "lo") as [lo'|] eqn:Elo; [|done].
  destruct (by_contrast !! "hi") as [hi'|] eqn:Ehi; [|done].
  apply Ok_inj in Hlo as ->. apply Ok_inj in Hhi as ->.
  rewrite Htbl in Hfam.
  apply lookup_insert_Some in Hfam as [[_ <-]|[_ Hfam]];
    [|apply lookup_singleton_Some in Hfam as [_ <-]].
  - rewrite lookup_insert_ne, lookup_insert_eq in Elo by done.
    rewrite !lookup_insert_ne, lookup_singleton_eq in Ehi by done.
    injection Elo as <-. injection Ehi as <-. done.
  - rewrite lookup_insert_ne, lookup_insert_eq in Elo by done.
    rewrite !lookup_insert_ne, lookup_singleton_eq in Ehi by done.
    injection Elo as <-. injection Ehi as <-.
    intros x [_ Hl]%elem_of_intersect1d [_ Hh]%elem_of_intersect1d.
    by apply (Hdisj x).
Qed.

Lemma contrast_subsets_disjoint_witness :
  lookup_subset example_stimulus ("all", "lo")
    = Ok ((λ i, 2 * i) <$> seqZ 0 30) ∧
  lookup_subset example_stimulus ("all", "hi")
    = Ok ((λ i, 2 * i + 1) <$> seqZ 0 30) ∧
  ∀ x, x ∈ (λ i, 2 * i) <$> seqZ 0 30 → x ∉ (λ i, 2 * i + 1) <$> seqZ 0 30.
Proof.
  assert (lookup_subset example_stimulus ("all", "lo")
          = Ok ((λ i, 2 * i) <$> seqZ 0 30)) as Hlo by (vm_compute; reflexivity).
  assert (lookup_subset example_stimulus ("all", "hi")
          = Ok ((λ i, 2 * i + 1) <$> seqZ 0 30)) as Hhi by (vm_compute; reflexivity).
  split_and!; [done..|].
  exact (contrast_subsets_disjoint example_stimulus "all" _ _ Hlo Hhi).
Defined.

(** ** Each fold splits the subset *)

(** X6.  For [k_folds >= 2], in every fold that [get_indices] returns the
    train and test sets together are a rearrangement of the subset, and
    the test set holds [n // k_folds] or [n // k_folds + 1] of its [n]
    indices. *)
Theorem get_indices_fold_partition self spec k include idxes :
  lookup_subset self spec = Ok idxes → 2 ≤ k →
  ∃ k_folds,
    get_indices self spec (KInt k) include = Ok k_folds ∧
    ∀ train test, (train, test) ∈ k_folds →
      train ++ test ≡ₚ idxes ∧
      (length test = (length idxes / Z.to_nat k)%nat ∨
       length test = S (length idxes / Z.to_nat k)).
Proof.
  intros Hsub Hk.
  destruct (get_indices_kfold self spec k include idxes Hsub Hk)
    as (splits & all_folds & Hsplit & Hb & Hlen & ->).
  eexists. split; [done|]. intros train test Hin.
  assert ((train, test) ∈ all_folds) as Hin'.
  { destruct include as [[|??]|]; [done| |done].
    by eapply select_folds_subseteq. }
  destruct (build_folds_elem _ _ _ _ Hb ltac:(lia) Hin') as (i & Hi & ->).
  split.
  - rewrite <-(array_split_concat _ _ _ Hsplit).
    rewrite <-(take_drop_middle _ _ _ Hi) at 3.
    rewrite !concat_app, concat_cons.
    rewrite <-app_assoc. apply Permutation_app_head, Permutation_app_comm.
  - apply (array_split_piece_length _ _ _ _ Hsplit).
    by eapply list_elem_of_lookup_2.
Qed.

Lemma get_indices_fold_partition_witness :
  ∃ k_folds,
    get_indices example_stimulus ("all", "all") (KInt 7) (Some [1; 6])
      = Ok k_folds ∧
    ∀ train test, (train, test) ∈ k_folds →
      train ++ test ≡ₚ seqZ 0 60 ∧
      (length test = (length (seqZ 0 60) / Z.to_nat 7)%nat ∨
       length test = S (length (seqZ 0 60) / Z.to_nat 7)).
Proof.
  apply (get_indices_fold_partition example_stimulus ("all", "all") 7
           (Some [1; 6]) (seqZ 0 60)); [vm_compute; reflexivity|lia].
Defined.

(** with [k_folds] [None] or [1], an existing subset always gives one
    pair *)
Lemma get_indices_one_split_Ok self spec k_folds include idxes :
  lookup_subset self spec = Ok idxes →
  k_folds = KNone ∨ k_folds = KInt 1 →
  ∃ fold, get_indices self spec k_folds include = Ok [fold].
Proof.
  intros Hsub Hk.
  destruct (Np.array_split idxes 10) as [splits|] eqn:Hsplit; [|done].
  pose proof (array_split_length _ _ _ Hsplit) as [Hlen _].
  change (Z.to_nat 10) with 10%nat in Hlen.
  destruct (lookup_lt_is_Some_2 splits 9) as [test Htest]; [lia|].
  assert (last splits = Some test) as Hlast.
  { rewrite <-(take_drop_middle _ _ _ Htest).
    rewrite drop_ge by lia. apply last_snoc. }
  assert (get_indices self spec KNone include
          = Ok [(concat (take 9 splits), test)]) as HNone.
  { unfold get_indices. rewrite Hsub.
    cbn [mbind result_bind is_all_train is_none_or_one array_split_by].
    rewrite Hsplit. cbn [mbind result_bind]. rewrite Hlen, Hlast.
    change (10 - 1)%nat with 9%nat.
    rewrite np_concatenate_Ok; [done|].
    intros Hnil%(f_equal length). rewrite length_take in Hnil.
    change (length []) with 0%nat in Hnil. lia. }
  eexists. destruct Hk as [-> | ->]; [exact HNone|].
  rewrite <-HNone. unfold get_indices. rewrite Hsub.
    cbn [mbind result_bind is_all_train is_none_or_one array_split_by].
  by rewrite bool_decide_eq_true_2.
Qed.

Lemma get_indices_outcome_holds self spec k_folds include idxes :
  lookup_subset self spec = Ok idxes →
  get_indices_outcome self spec k_folds include idxes.
Proof.
  intros Hsub. destruct k_folds as [s| |k]; unfold get_indices_outcome.
  - unfold get_indices. rewrite Hsub.
    cbn [mbind result_bind is_all_train is_none_or_one array_split_by].
    case_bool_decide; [done|]. case_bool_decide as Hs.
    + by subst s.
    + by destruct s.
  - apply (get_indices_one_split_Ok self spec KNone include idxes Hsub).
    by left.
  - case_bool_decide as Hk0.
    + unfold get_indices. rewrite Hsub.
    cbn [mbind result_bind is_all_train is_none_or_one array_split_by].
      rewrite bool_decide_eq_false_2 by lia.
      unfold Np.array_split. destruct (Z.leb_spec k 0); [done|lia].
    + destruct (decide (k = 1)) as [->|Hk1].
      * destruct (get_indices_one_split_Ok self spec (KInt 1) include idxes
                    Hsub) as [fold ->]; [by right|]. eauto.
      * destruct (get_indices_kfold self spec k include idxes Hsub)
          as (? & ? & _ & _ & _ & ->); [lia|]. eauto.
Qed.

(** X7.  The two [assert]s of [get_indices] are never violated: no
    stimulus, subset name, [k_folds] or fold selection makes it raise
    [AssertionError].  For a subset that exists it returns, except for an
    integer [k_folds <= 0] ([ValueError], from [np.array_split]), for the
    empty string ([np.array_split] gives one piece, and [np.concatenate]
    of the empty list of the other pieces raises [ValueError]) and for
    any other string but ['all_train'] ([TypeError], from the slice that
    [np.array_split] takes with a character as its bound). *)
Theorem get_indices_asserts_hold self spec k_folds include :
  get_indices self spec k_folds include ≠ Raise AssertionError ∧
  (∀ idxes, lookup_subset self spec = Ok idxes →
            get_indices_outcome self spec k_folds include idxes).
Proof.
  split; [|apply get_indices_outcome_holds].
  destruct (lookup_subset self spec) as [idxes|e] eqn:Hsub.
  - pose proof (get_indices_outcome_holds self spec k_folds include idxes Hsub)
      as Hcases.
    unfold get_indices_outcome in Hcases. destruct k_folds as [s| |k].
    + revert Hcases. repeat case_bool_decide; by intros ->.
    + destruct Hcases as [? ->]. done.
    + revert Hcases. case_bool_decide; [by intros ->|]. intros [? ->]. done.
  - unfold get_indices. rewrite Hsub.
    cbn [mbind result_bind is_all_train is_none_or_one array_split_by].
    intros [= ->]. unfold lookup_subset in Hsub.
    destruct (indices self) as [tbl|e] eqn:Hidx; cbn [mbind result_bind] in Hsub.
    + destruct (tbl !! spec.1) as [d|]; cbn in Hsub; [|done].
      by destruct (d !! spec.2).
    + injection Hsub as ->. unfold indices in Hidx.
      repeat case_bool_decide; [| |done].
      * rewrite !np_concatenate_Ok in Hidx by done. done.
      * destruct (np_concatenate (c_t self)) as [c|] eqn:Hc; cbn in Hidx.
        -- destruct (np_concatenate (t_bins_from_onset self)) as [t|] eqn:Ht;
             cbn in Hidx; [done|]. injection Hidx as ->.
           by destruct (t_bins_from_onset self).
        -- injection Hidx as ->. by destruct (c_t self).
Qed.

(** the three outcomes for a string *)
Example get_indices_of_a_string :
  get_indices example_stimulus ("all", "hi") (KStr "all_train") None
    = Ok [(Np.arange 0 30 ≫= λ i, [2 * i + 1], [])] ∧
  get_indices example_stimulus ("all", "hi") (KStr "") None
    = Raise ValueError ∧
  get_indices example_stimulus ("all", "hi") (KStr "5") None
    = Raise TypeError.
Proof. split_and!; vm_compute; reflexivity. Qed.

Lemma get_indices_asserts_hold_witness :
  get_indices example_stimulus ("valid20", "lo") (KInt 0) (Some [3])
    ≠ Raise AssertionError ∧
  get_indices_outcome example_stimulus ("valid20", "lo") (KInt 0) (Some [3]) [].
Proof.
  destruct (get_indices_asserts_hold example_stimulus ("valid20", "lo")
              (KInt 0) (Some [3])) as [Hno Hout].
  split; [exact Hno|]. apply Hout. vm_compute. reflexivity.
Defined.

(** ** Selecting folds *)

Lemma elem_of_select_folds include (k_folds : list fold) f :
  f ∈ select_folds include k_folds ↔
  ∃ i, Z.of_nat i ∈ include ∧ k_folds !! i = Some f.
Proof.
  unfold select_folds. rewrite list_elem_of_fmap. split.
  - intros ([i g] & -> & Hin). apply list_elem_of_filter in Hin as [Hi Hin].
    apply list_elem_of_lookup in Hin as [j Hj].
    apply lookup_zip_with_Some in Hj as (i' & g' & [= <- <-] & Hseq & Hg).
    apply lookup_seq in Hseq as [-> _]. exists j. done.
  - intros (i & Hi & Hf). exists (i, f). split; [done|].
    apply list_elem_of_filter. split; [done|].
    apply list_elem_of_lookup. exists i.
    apply lookup_zip_with_Some. exists i, f. split_and!; [done| |done].
    apply lookup_seq. split; [done|]. by eapply lookup_lt_Some.
Qed.

Lemma select_folds_sublist include (k_folds : list fold) :
  select_folds include k_folds `sublist_of` k_folds.
Proof.
  unfold select_folds.
  rewrite <-(snd_zip (seq 0 (length k_folds)) k_folds) at 3
    by (rewrite length_seq; lia).
  apply fmap_sublist, sublist_filter.
Qed.

(** X8.  For [k_folds >= 2] the folds are numbered from 0 in the order of
    the test pieces.  An empty [fold_idxes_to_include] selects every fold,
    like [None]; a non-empty one keeps fold [i] exactly when the number
    [i] is listed, in fold order whatever the order or repetitions of the
    list, and a listed number that is negative or too large selects
    nothing. *)
Theorem get_indices_fold_selection self spec k idxes :
  lookup_subset self spec = Ok idxes → 2 ≤ k →
  ∃ all_folds,
    get_indices self spec (KInt k) None = Ok all_folds ∧
    length all_folds = Z.to_nat k ∧
    get_indices self spec (KInt k) (Some []) = Ok all_folds ∧
    ∀ i0 rest,
      ∃ selected,
        get_indices self spec (KInt k) (Some (i0 :: rest)) = Ok selected ∧
        selected `sublist_of` all_folds ∧
        ∀ f, f ∈ selected ↔
             ∃ i, Z.of_nat i ∈ i0 :: rest ∧ all_folds !! i = Some f.
Proof.
  intros Hsub Hk.
  destruct (get_indices_kfold self spec k None idxes Hsub Hk)
    as (splits & all_folds & Hsplit & Hb & Hlen & Hnone).
  exists all_folds. split; [done|]. split.
  { rewrite <-Hlen, <-(build_folds_tests _ _ Hb) by lia.
    by rewrite length_fmap. }
  split.
  { destruct (get_indices_kfold self spec k (Some []) idxes Hsub Hk)
      as (splits' & all_folds' & Hsplit' & Hb' & _ & ->).
    rewrite Hsplit in Hsplit'. apply Ok_inj in Hsplit' as <-.
    rewrite Hb in Hb'. by apply Ok_inj in Hb' as <-. }
  intros i0 rest.
  destruct (get_indices_kfold self spec k (Some (i0 :: rest)) idxes Hsub Hk)
    as (splits' & all_folds' & Hsplit' & Hb' & _ & ->).
  rewrite Hsplit in Hsplit'. apply Ok_inj in Hsplit' as <-.
  rewrite Hb in Hb'. apply Ok_inj in Hb' as <-.
  eexists. split; [done|]. split; [apply select_folds_sublist|].
  apply elem_of_select_folds.
Qed.

Lemma get_indices_fold_selection_witness :
  ∃ all_folds,
    get_indices example_stimulus ("all", "hi") (KInt 4) None = Ok all_folds ∧
    length all_folds = Z.to_nat 4 ∧
    get_indices example_stimulus ("all", "hi") (KInt 4) (Some [])
      = Ok all_folds ∧
    ∀ i0 rest,
      ∃ selected,
        get_indices example_stimulus ("all", "hi") (KInt 4) (Some (i0 :: rest))
          = Ok selected ∧
        selected `sublist_of` all_folds ∧
        ∀ f, f ∈ selected ↔
             ∃ i, Z.of_nat i ∈ i0 :: rest ∧ all_folds !! i = Some f.
Proof.
  apply (get_indices_fold_selection example_stimulus ("all", "hi") 4
           ((λ i, 2 * i + 1) <$> seqZ 0 30)); [vm_compute; reflexivity|lia].
Defined.

(** ** [get_sorted] *)

Lemma mapM_Ok_Forall2 {A B} (f : A → result B) l k :
  mapM f l = Ok k ↔ Forall2 (λ x y, f x = Ok y) l k.
Proof.
  revert k. induction l as [|a l IH]; intros k; cbn.
  - split; [intros [= <-]; constructor|by inversion 1].
  - split.
    + destruct (f a) as [b|] eqn:Hfa; [|done]. cbn.
      destruct (mapM f l) as [k'|] eqn:Hm; [|done]. cbn.
      intros [= <-]. constructor; [done|]. by apply IH.
    + inversion 1 as [|? b ? k' Hfa Hrest]; subst.
      rewrite Hfa. cbn. apply IH in Hrest. by rewrite Hrest.
Qed.



Lemma list_find_str_NoDup (names : list string) j n :
  NoDup names → names !! j = Some n →
  list_find (λ v, py_eq v (VStr n) = true) (VStr <$> names)
  = Some (j, VStr n).
Proof.
  intros Hnd Hj. apply list_find_Some. split_and!.
  - by rewrite list_lookup_fmap, Hj.
  - cbn. by apply bool_decide_eq_true.
  - intros j' v' Hj' Hlt.
    rewrite list_lookup_fmap in Hj'.
    destruct (names !! j') as [n'|] eqn:Hn'; [|done]. injection Hj' as <-.
    cbn. intros Heq%bool_decide_eq_true. subst n'.
    pose proof (NoDup_lookup _ _ _ _ Hnd Hn' Hj). lia.
Qed.

(** X10.  If the clusters carry pairwise different strings under [key]
    (like ['unique_id']), [get_sorted(key=[...])] returns for every list
    of such strings the clusters that carry them, in the order asked for;
    asking for the strings in cluster order gives back [self.clusters]. *)
Theorem get_sorted_by_name key (clusters : list cluster) names order :
  Forall2 (λ c n, c !! key = Some (VStr n)) clusters names →
  NoDup names →
  Forall (λ j, (j < length clusters)%nat) order →
  get_sorted [(key, VList ((λ j, VStr (names !!! j)) <$> order))] clusters
  = Ok ((λ j, clusters !!! j) <$> order) ∧
  get_sorted [(key, VList (VStr <$> names))] clusters = Ok clusters.
Proof.
  intros Hkeys Hnd Horder.
  assert (mapM (λ c, cluster_get c key) clusters = Ok (VStr <$> names)) as Hvals.
  { apply mapM_Ok_Forall2. apply Forall2_fmap_r.
    eapply Forall2_impl; [exact Hkeys|]. cbn. intros c n Hc.
    unfold cluster_get. by rewrite Hc. }
  pose proof (Forall2_length _ _ _ Hkeys) as Hlen.
  assert (∀ order, Forall (λ j, (j < length clusters)%nat) order →
    get_sorted [(key, VList ((λ j, VStr (names !!! j)) <$> order))] clusters
    = Ok ((λ j, clusters !!! j) <$> order)) as Hgen.
  { clear order Horder. intros order Horder.
    unfold get_sorted. rewrite bool_decide_eq_false_2 by (cbn; lia).
    cbn [Dict.keys fmap list_fmap head of_option mbind result_bind fst].
    rewrite Hvals. cbn [mbind result_bind Dict.get].
    rewrite bool_decide_eq_true_2 by done.
    cbn [of_option mbind result_bind py_iter].
    apply mapM_fmap_Ok. eapply Forall_impl; [exact Horder|]. cbn beta.
    intros j Hj.
    destruct (lookup_lt_is_Some_2 names j) as [n Hn]; [lia|].
    destruct (lookup_lt_is_Some_2 clusters j) as [c Hc]; [lia|].
    rewrite (list_lookup_total_correct _ _ _ Hn).
    rewrite (list_lookup_total_correct _ _ _ Hc).
    rewrite (list_find_str_NoDup names j n Hnd Hn).
    cbn [of_option mbind result_bind fst]. by rewrite Hc. }
  split; [by apply Hgen|].
  specialize (Hgen (seq 0 (length clusters))).
  assert ((λ j, VStr (names !!! j)) <$> seq 0 (length clusters)
          = VStr <$> names) as Hn.
  { apply list_eq. intros i. rewrite !list_lookup_fmap.
    destruct (decide (i < length clusters)%nat) as [Hi|Hi].
    - rewrite lookup_seq_lt by done. cbn.
      destruct (lookup_lt_is_Some_2 names i) as [n Hn]; [lia|].
      by rewrite Hn, (list_lookup_total_correct _ _ _ Hn).
    - rewrite lookup_seq_ge by lia. by rewrite lookup_ge_None_2 by lia. }
  assert ((λ j, clusters !!! j) <$> seq 0 (length clusters) = clusters) as Hc.
  { apply list_eq. intros i. rewrite !list_lookup_fmap.
    destruct (decide (i < length clusters)%nat) as [Hi|Hi].
    - rewrite lookup_seq_lt by done. cbn.
      destruct (lookup_lt_is_Some_2 clusters i) as [c Hc]; [lia|].
      by rewrite Hc, (list_lookup_total_correct _ _ _ Hc).
    - rewrite lookup_seq_ge by lia. by rewrite lookup_ge_None_2 by lia. }
  rewrite Hn, Hc in Hgen. apply Hgen.
  apply Forall_forall. intros j [_ Hj]%elem_of_seq. cbn in Hj. lia.
Qed.

Lemma get_sorted_by_name_witness :
  get_sorted
    [("unique_id",
      VList ((λ j, VStr (["ic-e001-p001-c001"; "ic-e001-p001-c002";
                          "ac-e002-p001-c001"] !!! j)) <$> [2; 0; 2]%nat))]
    example_clusters
  = Ok ((λ j, example_clusters !!! j) <$> [2; 0; 2]%nat) ∧
  get_sorted
    [("unique_id",
      VList (VStr <$> ["ic-e001-p001-c001"; "ic-e001-p001-c002";
                       "ac-e002-p001-c001"]))]
    example_clusters
  = Ok example_clusters.
Proof.
  apply (get_sorted_by_name "unique_id" example_clusters
           ["ic-e001-p001-c001"; "ic-e001-p001-c002"; "ac-e002-p001-c001"]
           [2; 0; 2]%nat).
  - repeat constructor.
  - apply (bool_decide_unpack _). by vm_compute.
  - repeat constructor.
Defined.

(** ** [find_missing_results] *)

Lemma foldl_Raise {A B} (body : result B → A → result B) e l :
  (∀ x, body (Raise e) x = Raise e) → foldl body (Raise e) l = Raise e.
Proof. intros Hb. induction l as [|x l IH]; [done|]. cbn. by rewrite Hb. Qed.

(** The loop of [find_missing_results] as comprehensions: [expected] are
    the clusters that pass the three tests, [missing] the ids of those
    without the field, [n_found] the number of those with it. *)
Lemma find_missing_loop fieldname (keep : cluster → result bool) clusters
    missing0 n0 missing n_found :
  foldl (λ acc c,
           '(missing, n_found) ← acc;
           expected ← keep c;
           if (expected : bool) then
             if bool_decide (is_Some (c !! fieldname))
             then Ok (missing, S n_found)
             else uid ← cluster_get c "unique_id"; Ok (missing ++ [uid], n_found)
           else Ok (missing, n_found))
        (Ok (missing0, n0)) clusters = Ok (missing, n_found) →
  ∃ expected ids,
    filter_result keep clusters = Ok expected ∧
    Forall2 (λ c id, c !! "unique_id" = Some id)
            (filter (λ c, c !! fieldname = None) expected) ids ∧
    missing = missing0 ++ ids ∧
    n_found = (n0 + length (filter (λ c, is_Some (c !! fieldname)) expected))%nat.
Proof.
  revert missing0 n0. induction clusters as [|c clusters IH]; intros missing0 n0.
  - cbn. intros [= <- <-]. exists [], []. split_and!; [done|constructor| |].
    + by rewrite app_nil_r.
    + cbn. lia.
  - cbn [foldl filter_result mbind result_bind].
    destruct (keep c) as [[]|e] eqn:Hkeep; cbn [mbind result_bind].
    + case_bool_decide as Hf.
      * intros (expected & ids & -> & Hids & -> & ->)%IH.
        exists (c :: expected), ids. cbn [mbind result_bind].
        split; [done|]. rewrite !filter_cons.
        destruct (decide (c !! fieldname = None)) as [Hn|_];
          [rewrite Hn in Hf; by destruct Hf|].
        destruct (decide (is_Some (c !! fieldname))); [|done].
        split_and!; [done..|]. cbn [length]. lia.
      * unfold cluster_get.
        destruct (c !! "unique_id") as [uid|] eqn:Huid;
          cbn [of_option mbind result_bind];
          [|intros Hr; rewrite foldl_Raise in Hr; done].
        intros (expected & ids & -> & Hids & -> & ->)%IH.
        exists (c :: expected), (uid :: ids). cbn [mbind result_bind].
        split; [done|]. rewrite !filter_cons.
        destruct (decide (is_Some (c !! fieldname))); [done|].
        destruct (decide (c !! fieldname = None)) as [_|Hn];
          [|destruct (c !! fieldname); [by destruct Hf|done]].
        split_and!; [by constructor|by rewrite <-app_assoc|done].
    + intros (expected & ids & -> & Hids & -> & ->)%IH.
      exists expected, ids. done.
    + intros Hr. rewrite foldl_Raise in Hr; done.
Qed.

Lemma filter_result_sublist {A} (keep : A → result bool) l kept :
  filter_result keep l = Ok kept → kept `sublist_of` l.
Proof.
  revert kept. induction l as [|x l IH]; intros kept; cbn.
  - intros [= <-]. constructor.
  - destruct (keep x) as [b|]; [|done]. cbn.
    destruct (filter_result keep l) as [kept'|]; [|done]. cbn.
    intros [= <-]. destruct b; [apply sublist_skip|apply sublist_cons]; eauto.
Qed.

Lemma filter_sublist_mono {A} (P : A → Prop) `{∀ x, Decision (P x)} l1 l2 :
  l1 `sublist_of` l2 → filter P l1 `sublist_of` filter P l2.
Proof.
  induction 1 as [|x l1 l2 _ IH|x l1 l2 _ IH]; [constructor| |];
    rewrite ?filter_cons; destruct (decide (P x));
    try (by apply sublist_skip); try (by apply sublist_cons); done.
Qed.

(** X11.  When [find_missing_results] returns, every id it reports
    belongs to a cluster that has no entry under [fieldname], the count
    [n_found] is at most the number of clusters that have one, and the
    reported and the counted clusters are together at most all
    clusters. *)
Theorem find_missing_results_sound fieldname noiseratio state optogenetic
    clusters missing n_found :
  find_missing_results fieldname noiseratio state optogenetic clusters
  = Ok (missing, n_found) →
  (length missing + n_found ≤ length clusters)%nat ∧
  (n_found ≤ length (filter (λ c, is_Some (c !! fieldname)) clusters))%nat ∧
  ∀ id, id ∈ missing →
        ∃ c, c ∈ clusters ∧ c !! "unique_id" = Some id ∧ c !! fieldname = None.
Proof.
  unfold find_missing_results.
  intros (expected & ids & Hexp & Hids & -> & ->)%find_missing_loop.
  apply filter_result_sublist in Hexp.
  pose proof (Forall2_length _ _ _ Hids) as Hlen.
  pose proof (sublist_length _ _ Hexp) as Hle.
  pose proof (length_filter (λ c, c !! fieldname = None) expected) as Hl1.
  assert (length (filter (λ c, c !! fieldname = None) expected)
          + length (filter (λ c, is_Some (c !! fieldname)) expected)
          = length expected)%nat as Hsplit.
  { clear. induction expected as [|c l IH]; [done|]. rewrite !filter_cons.
    destruct (c !! fieldname) as [v|] eqn:Hc.
    - destruct (decide (Some v = None)); [done|].
      destruct (decide (is_Some (Some v))) as [_|Hn]; [|by destruct Hn].
      cbn [length]. lia.
    - destruct (decide (None = None)); [|done].
      destruct (decide (is_Some (None : option value))) as [[? ?]|_]; [done|].
      cbn [length]. lia. }
  cbn [app plus]. split_and!.
  - lia.
  - by apply sublist_length, filter_sublist_mono.
  - intros id Hid. apply list_elem_of_lookup in Hid as [i Hi].
    destruct (Forall2_lookup_r _ _ _ _ _ Hids Hi) as (c & Hc & Hcid).
    apply list_elem_of_lookup_2, list_elem_of_filter in Hc as [Hnone Hc].
    exists c. split_and!; [|done..].
    by eapply elem_of_sublist.
Qed.

Lemma find_missing_results_sound_witness :
  (length [VStr "ic-e001-p001-c002"; VStr "ac-e002-p001-c001"] + 1
   ≤ length example_recorded)%nat ∧
  (1 ≤ length (filter (λ c, is_Some (c !! "coch_kernel_main"))
                      example_recorded))%nat ∧
  ∀ id, id ∈ [VStr "ic-e001-p001-c002"; VStr "ac-e002-p001-c001"] →
        ∃ c, c ∈ example_recorded ∧ c !! "unique_id" = Some id ∧
             c !! "coch_kernel_main" = None.
Proof.
  apply (find_missing_results_sound "coch_kernel_main" (VStr "inf") VNone
           (VBool false) example_recorded).
  vm_compute. reflexivity.
Defined.

(** X12.  With the default arguments ([noiseratio='inf'], [state=None],
    [optogenetic=False]) and clusters that are all anaesthetised or awake
    and carry a ['unique_id'], [find_missing_results] returns: every
    cluster is either counted, when it has the field, or reported by its
    id, in cluster order, when it has not. *)
Theorem find_missing_results_default fieldname (clusters : list cluster) :
  Forall (λ c, (c !! "state" = Some (VStr "anaesthetised") ∨
                c !! "state" = Some (VStr "awake")) ∧
               is_Some (c !! "unique_id")) clusters →
  ∃ missing,
    find_missing_results fieldname (VStr "inf") VNone (VBool false) clusters
    = Ok (missing,
          length (filter (λ c, is_Some (c !! fieldname)) clusters)) ∧
    Forall2 (λ c id, c !! "unique_id" = Some id)
            (filter (λ c, c !! fieldname = None) clusters) missing.
Proof.
  intros Hcl. unfold find_missing_results. cbn [truthy negb].
  assert (∀ missing0 n0, ∃ ids,
    foldl (λ acc c,
             '(missing, n_found) ← acc;
             expected ← expects_result (VStr "inf")
                          (VList [VStr "anaesthetised"; VStr "awake"])
                          (VBool false) c;
             if (expected : bool) then
               if bool_decide (is_Some (c !! fieldname))
               then Ok (missing, S n_found)
               else uid ← cluster_get c "unique_id";
                    Ok (missing ++ [uid], n_found)
             else Ok (missing, n_found))
          (Ok (missing0, n0)) clusters
    = Ok (missing0 ++ ids,
          (n0 + length (filter (λ c, is_Some (c !! fieldname)) clusters))%nat) ∧
    Forall2 (λ c id, c !! "unique_id" = Some id)
            (filter (λ c, c !! fieldname = None) clusters) ids) as Hloop.
  { induction Hcl as [|c clusters [Hstate [uid Huid]] _ IH]; intros missing0 n0.
    - exists []. cbn. rewrite app_nil_r, Nat.add_0_r. split; [done|constructor].
    - assert (expects_result (VStr "inf")
                (VList [VStr "anaesthetised"; VStr "awake"]) (VBool false) c
              = Ok true) as Hexp.
      { unfold expects_result, cluster_get.
        destruct Hstate as [-> | ->]; vm_compute; reflexivity. }
      cbn [foldl mbind result_bind]. rewrite Hexp. cbn [mbind result_bind].
      rewrite !filter_cons. case_bool_decide as Hf.
      + destruct (IH missing0 (S n0)) as (ids & -> & Hids). exists ids.
        destruct (decide (is_Some (c !! fieldname))); [|done].
        destruct (decide (c !! fieldname = None)) as [Hn|_];
          [rewrite Hn in Hf; by destruct Hf|].
        split; [|done]. cbn [length]. do 2 f_equal. lia.
      + assert (cluster_get c "unique_id" = Ok uid) as ->
          by (unfold cluster_get; by rewrite Huid).
        cbn [mbind result_bind].
        destruct (IH (missing0 ++ [uid]) n0) as (ids & -> & Hids).
        exists (uid :: ids).
        destruct (decide (is_Some (c !! fieldname))); [done|].
        destruct (decide (c !! fieldname = None)) as [_|Hn];
          [|destruct (c !! fieldname); [by destruct Hf|done]].
        split; [by rewrite <-app_assoc|by constructor]. }
  destruct (Hloop [] 0%nat) as (ids & Hrun & Hids). exists ids. done.
Qed.

Lemma find_missing_results_default_witness :
  ∃ missing,
    find_missing_results "coch_kernel_main" (VStr "inf") VNone (VBool false)
                         example_recorded
    = Ok (missing,
          length (filter (λ c, is_Some (c !! "coch_kernel_main"))
                         example_recorded)) ∧
    Forall2 (λ c id, c !! "unique_id" = Some id)
            (filter (λ c, c !! "coch_kernel_main" = None) example_recorded)
            missing.
Proof.
  apply (find_missing_results_default "coch_kernel_main" example_recorded).
  repeat constructor; by eexists.
Defined.

(** X13.  After [merge_results] has merged, under the name
    [new_fieldname], a result list (or result files) in which every
    cluster has an entry, [find_missing_results] for that name reports no
    cluster, whatever its other arguments. *)
Theorem merge_results_then_nothing_missing arg f w w' ids noiseratio state
    optogenetic missing n_found :
  merge_results arg (Some f) w = (Ok tt, w') → f ≠ "" →
  mapM (λ d, cluster_get d "unique_id") (self_clusters w) = Ok ids →
  (∀ i, (i < length (self_clusters w))%nat →
        ∃ entry, entry ∈ merged_entries (self_stim_types w) (files w) arg ∧
                 entry_index ids entry = Ok i) →
  find_missing_results f noiseratio state optogenetic (self_clusters w')
  = Ok (missing, n_found) →
  missing = [].
Proof.
  intros Hrun Hf Hids Hall Hfind.
  destruct (merge_results_effect _ _ _ _ _ Hrun ids Hids)
    as [(_ & Hlen & _) Hgain].
  specialize (Hgain eq_refl).
  assert (fieldname_given (Some f) = Some f) as Hgiven.
  { cbn. by rewrite bool_decide_eq_false_2. }
  assert (∀ c', c' ∈ self_clusters w' → is_Some (c' !! f)) as Hhas.
  { intros c' [i Hi]%list_elem_of_lookup.
    pose proof (lookup_lt_Some _ _ _ Hi) as Hlt. rewrite Hlen in Hlt.
    destruct (Hgain f i Hgiven (Hall i Hlt))
      as (entry & v & c'' & _ & _ & _ & Hc'' & Hv).
    rewrite Hi in Hc''. injection Hc'' as <-. by eexists. }
  unfold find_missing_results in Hfind.
  apply find_missing_loop in Hfind as (expected & ids' & Hexp & Hids' & -> & _).
  apply filter_result_sublist in Hexp.
  assert (filter (λ c, c !! f = None) expected = []) as Hnil.
  { destruct (filter _ expected) as [|c rest] eqn:Hflt; [done|].
    assert (c ∈ filter (λ c, c !! f = None) expected) as Hin
      by (rewrite Hflt; left).
    apply list_elem_of_filter in Hin as [Hn Hc].
    destruct (Hhas c) as [v Hv]; [by eapply elem_of_sublist|]. congruence. }
  rewrite Hnil in Hids'. by inversion Hids'.
Qed.

Lemma merge_results_then_nothing_missing_witness :
  merge_results example_results_all
                (Some "coch_kernel_main") example_recorded_world
  = (Ok tt,
     set_clusters
       [ <["coch_kernel_main" := VDict [("cc", VFloat 0.25)]]>
           (example_recorded !!! 0%nat);
         <["coch_kernel_main" := VDict [("cc", VFloat 0.125)]]>
           (example_recorded !!! 1%nat);
         <["coch_kernel_main" := VDict [("cc", VFloat 0.5)]]>
           (example_recorded !!! 2%nat) ]
       example_recorded_world) ∧
  find_missing_results "coch_kernel_main" (VInt 400) VNone (VBool false)
    [ <["coch_kernel_main" := VDict [("cc", VFloat 0.25)]]>
        (example_recorded !!! 0%nat);
      <["coch_kernel_main" := VDict [("cc", VFloat 0.125)]]>
        (example_recorded !!! 1%nat);
      <["coch_kernel_main" := VDict [("cc", VFloat 0.5)]]>
        (example_recorded !!! 2%nat) ]
  = Ok ([], 2%nat) ∧
  ([] : list value) = [].
Proof.
  assert (merge_results example_results_all
            (Some "coch_kernel_main") example_recorded_world
          = (Ok tt,
             set_clusters
               [ <["coch_kernel_main" := VDict [("cc", VFloat 0.25)]]>
                   (example_recorded !!! 0%nat);
                 <["coch_kernel_main" := VDict [("cc", VFloat 0.125)]]>
                   (example_recorded !!! 1%nat);
                 <["coch_kernel_main" := VDict [("cc", VFloat 0.5)]]>
                   (example_recorded !!! 2%nat) ]
               example_recorded_world)) as Hmerge by (vm_compute; reflexivity).
  assert (find_missing_results "coch_kernel_main" (VInt 400) VNone (VBool false)
            [ <["coch_kernel_main" := VDict [("cc", VFloat 0.25)]]>
                (example_recorded !!! 0%nat);
              <["coch_kernel_main" := VDict [("cc", VFloat 0.125)]]>
                (example_recorded !!! 1%nat);
              <["coch_kernel_main" := VDict [("cc", VFloat 0.5)]]>
                (example_recorded !!! 2%nat) ]
          = Ok ([], 2%nat)) as Hfind by (vm_compute; reflexivity).
  split; [exact Hmerge|]. split; [exact Hfind|].
  apply (merge_results_then_nothing_missing
           example_results_all "coch_kernel_main" example_recorded_world _
           [VStr "ic-e001-p001-c001"; VStr "ic-e001-p001-c002";
            VStr "ac-e002-p001-c001"]
           (VInt 400) VNone (VBool false) [] 2%nat Hmerge).
  - done.
  - vm_compute. reflexivity.
  - intros i Hi. cbn in Hi.
    destruct i as [|[|[|i]]]; [| | |lia].
    + exists (VDict [("unique_id", VStr "ic-e001-p001-c001");
                     ("coch_kernel", VDict [("cc", VFloat 0.25)])]).
      split; [|vm_compute; reflexivity].
      apply list_elem_of_In. vm_compute. auto 6.
    + exists (VDict [("unique_id", VStr "ic-e001-p001-c002");
                     ("coch_kernel", VDict [("cc", VFloat 0.125)])]).
      split; [|vm_compute; reflexivity].
      apply list_elem_of_In. vm_compute. auto 6.
    + exists (VDict [("unique_id", VStr "ac-e002-p001-c001");
                     ("coch_kernel", VDict [("cc", VFloat 0.5)])]).
      split; [|vm_compute; reflexivity].
      apply list_elem_of_In. vm_compute. auto 6.
  - exact Hfind.
Defined.

(** ** Runs that do not save *)

Global Instance keeps_files_refl : Reflexive keeps_files.
Proof. by intros w. Qed.
Global Instance keeps_files_trans : Transitive keeps_files.
Proof. intros w1 w2 w3 [??] [??]. unfold keeps_files. split; congruence. Qed.

Global Instance only_calls_refl : Reflexive only_calls.
Proof. by intros w. Qed.
Global Instance only_calls_trans : Transitive only_calls.
Proof.
  intros w1 w2 w3 (?&?&?) (?&?&?). unfold only_calls. split_and!; congruence.
Qed.

Lemma respects_weaken {A} (P Q : world → world → Prop) (m : M A) :
  (∀ w w', P w w' → Q w w') → respects P m → respects Q m.
Proof. intros HPQ Hm w r w' Hrun. by eapply HPQ, Hm. Qed.

Section no_save.
Context `{Runtime}.

Lemma nosave_loop_length func params fail_on_error window acc w res w' :
  for_fold
    (λ res c,
       r ← apply_func_to_cluster func c params fail_on_error;
       mret (if truthy r then res ++ [r] else res))
    acc window w = (Ok res, w') →
  (length res ≤ length acc + length window)%nat.
Proof.
  revert acc w. induction window as [|c window IH]; intros acc w.
  - intros [= <- _]. cbn. lia.
  - cbn [for_fold]. intros Hrun.
    apply M_bind_inv in Hrun as [(acc1 & w1 & Hbody & Hrest)|(? & _ & [=])].
    apply M_bind_inv in Hbody as [(r1 & w0 & Ha & Hb)|(? & _ & [=])].
    injection Hb as <- _. apply IH in Hrest.
    destruct (truthy r1); [rewrite length_app in Hrest|]; cbn in *; lia.
Qed.

(** X14.  A run with [save_results=False] never touches the files,
    whatever it returns or raises and whatever analyses it loads first.
    With nothing to load it leaves the clusters as they are too, and when
    it returns, it returns a list and has applied [func] to the clusters
    of its window, once each and in order; the list has at most one entry
    per cluster of the window. *)
Theorem run_analysis_without_save func params multiple_results_files
    ignore_existing this_data_segment total_data_segments fail_on_error
    load_analyses_first w r w' :
  run_analysis func params false multiple_results_files ignore_existing
               this_data_segment total_data_segments fail_on_error
               load_analyses_first w
  = (r, w') →
  files w' = files w ∧
  self_stim_types w' = self_stim_types w ∧
  (load_analyses_first = None →
   self_clusters w' = self_clusters w ∧
   ∀ res, r = Ok res →
     ∃ items window,
       res = VList items ∧
       segment_window (self_clusters w) this_data_segment total_data_segments
         = Ok window ∧
       calls w' = calls w ++ window ∧
       (length items ≤ length window)%nat).
Proof.
  intros Hrun. split_and!.
  - revert Hrun. cut (respects keeps_files
      (run_analysis func params false multiple_results_files ignore_existing
         this_data_segment total_data_segments fail_on_error
         load_analyses_first)).
    { intros Hr Hrun. by apply Hr in Hrun as [? ?]. }
    unfold run_analysis. cbn [negb].
    repeat first
      [ apply apply_func_to_cluster_respects; by intros ?
      | apply (respects_weaken same_io keeps_files);
          [by intros ?? (?&?&?&?)|apply load_analyses_same_io]
      | respects_step ].
  - revert Hrun. cut (respects keeps_files
      (run_analysis func params false multiple_results_files ignore_existing
         this_data_segment total_data_segments fail_on_error
         load_analyses_first)).
    { intros Hr Hrun. by apply Hr in Hrun as [? ?]. }
    unfold run_analysis. cbn [negb].
    repeat first
      [ apply apply_func_to_cluster_respects; by intros ?
      | apply (respects_weaken same_io keeps_files);
          [by intros ?? (?&?&?&?)|apply load_analyses_same_io]
      | respects_step ].
  - intros ->. split.
    + revert Hrun. cut (respects only_calls
        (run_analysis func params false multiple_results_files ignore_existing
           this_data_segment total_data_segments fail_on_error None)).
      { intros Hr Hrun. by apply Hr in Hrun as (?&?&?). }
      unfold run_analysis. cbn [negb].
      repeat first
        [ apply apply_func_to_cluster_respects; by intros ?
        | respects_step ].
    + intros res ->. revert Hrun.
      unfold run_analysis, segment_window. rewrite gets_bind, lift_bind.
      intros Hrun. destruct (ceil_div _ _) as [segment_length|]; [|done].
      rewrite lift_bind in Hrun. destruct (resolve_func func) as [f|]; [|done].
      rewrite ret_bind in Hrun.
      rewrite gets_bind in Hrun. cbn [negb] in Hrun.
      apply M_bind_inv in Hrun as [(items & w1 & Hloop & Hret)|(? & _ & [=])].
      injection Hret as <- <-.
      pose proof (nosave_loop_length _ _ _ _ _ _ _ _ Hloop) as Hlen.
      apply nosave_loop_calls in Hloop.
      eexists _, _. split; [reflexivity|]. split; [reflexivity|].
      split; [done|]. cbn in Hlen. lia.
Qed.

End no_save.

Lemma run_analysis_without_save_witness :
  let out := run_analysis (H := example_runtime) (FStr "coch_kernel")
               example_params false true true 2 2 false None
               example_resumed_world in
  files out.2 = files example_resumed_world ∧
  self_stim_types out.2 = self_stim_types example_resumed_world ∧
  self_clusters out.2 = self_clusters example_resumed_world ∧
  ∀ res, out.1 = Ok res →
    ∃ items window,
      res = VList items ∧
      segment_window (self_clusters example_resumed_world) 2 2 = Ok window ∧
      calls out.2 = calls example_resumed_world ++ window ∧
      (length items ≤ length window)%nat.
Proof.
  intros out.
  destruct (run_analysis_without_save (H := example_runtime)
              (FStr "coch_kernel") example_params true true 2 2 false None
              example_resumed_world out.1 out.2) as (Hfiles & Hstim & Hrest).
  { apply surjective_pairing. }
  destruct (Hrest eq_refl) as [Hclusters Hres]. done.
Defined.

(** ** Runs that ignore the stored results *)

Section ignore_existing.
Context `{Runtime}.

Lemma M_bind_unfold {A B} (m : M A) (f : A → M B) w :
  (m ≫= f) w = match m w with
               | (Ok a, w') => f a w'
               | (Raise e, w') => (Raise e, w')
               end.
Proof. done. Qed.

Lemma files_blind_ret {A} (a : A) : files_blind (mret a).
Proof. done. Qed.

Lemma files_blind_lift {A} (x : result A) : files_blind (lift x).
Proof. done. Qed.

Lemma files_blind_bind {A B} (m : M A) (f : A → M B) :
  files_blind m → (∀ a, files_blind (f a)) → files_blind (m ≫= f).
Proof.
  intros Hm Hf fs w. unfold mbind, M_bind. rewrite Hm.
  destruct (m w) as [[a|e] w1]; cbn [fst snd]; [apply Hf|done].
Qed.

Lemma files_blind_try_except {A} (body handler : M A) handled :
  files_blind body → files_blind handler →
  files_blind (try_except body handled handler).
Proof.
  intros Hb Hh fs w. unfold try_except. rewrite Hb.
  destruct (body w) as [[a|e] w1]; cbn [fst snd]; [done|].
  destruct (handled e); [apply Hh|done].
Qed.

Lemma files_blind_for_fold {A B} (body : B → A → M B) acc xs :
  (∀ acc x, files_blind (body acc x)) → files_blind (for_fold body acc xs).
Proof.
  intros Hbody. revert acc. induction xs as [|x xs IH]; intros acc; simpl.
  - apply files_blind_ret.
  - apply files_blind_bind; [apply Hbody|apply IH].
Qed.

(** [apply_func_to_cluster] does not look at the files *)
Lemma apply_func_to_cluster_files_blind func c params fail_on_error :
  files_blind (apply_func_to_cluster func c params fail_on_error).
Proof.
  unfold apply_func_to_cluster.
  apply files_blind_bind; [done|intros clusters].
  apply files_blind_bind; [done|intros _].
  apply files_blind_bind.
  - destruct fail_on_error; [apply files_blind_lift|].
    apply files_blind_try_except; [apply files_blind_lift|apply files_blind_ret].
  - intros result. destruct (negb (truthy result)); [apply files_blind_ret|].
    apply files_blind_bind; [apply files_blind_lift|intros uid].
    apply files_blind_ret.
Qed.

(** neither does the loop over one results file *)
Lemma single_file_loop_files_blind func params fail_on_error ignore_existing
    processed_ids window acc :
  files_blind
    (for_fold
       (λ res c,
          uid ← lift (cluster_get c "unique_id");
          if py_in uid processed_ids && negb ignore_existing then mret res
          else
            r ← apply_func_to_cluster func c params fail_on_error;
            if truthy r then lift (py_append res r) else mret res)
       acc window).
Proof.
  apply files_blind_for_fold. intros res c.
  apply files_blind_bind; [apply files_blind_lift|intros uid].
  destruct (py_in uid processed_ids && negb ignore_existing);
    [apply files_blind_ret|].
  apply files_blind_bind; [apply apply_func_to_cluster_files_blind|intros r].
  destruct (truthy r); [apply files_blind_lift|apply files_blind_ret].
Qed.

Lemma single_file_loop_keeps_files func params fail_on_error ignore_existing
    processed_ids window acc :
  respects keeps_files
    (for_fold
       (λ res c,
          uid ← lift (cluster_get c "unique_id");
          if py_in uid processed_ids && negb ignore_existing then mret res
          else
            r ← apply_func_to_cluster func c params fail_on_error;
            if truthy r then lift (py_append res r) else mret res)
       acc window).
Proof.
  repeat first
    [ apply apply_func_to_cluster_respects; by intros ?
    | respects_step ].
Qed.

(** with [ignore_existing] every cluster of the window is computed *)
Lemma ignore_loop_calls func params fail_on_error processed_ids window acc
    w res w' :
  for_fold
    (λ res c,
       uid ← lift (cluster_get c "unique_id");
       if py_in uid processed_ids && negb true then mret res
       else
         r ← apply_func_to_cluster func c params fail_on_error;
         if truthy r then lift (py_append res r) else mret res)
    acc window w = (Ok res, w') →
  calls w' = calls w ++ window.
Proof.
  revert acc w. induction window as [|c window IH]; intros acc w.
  - intros [= _ <-]. by rewrite app_nil_r.
  - cbn [for_fold]. intros Hrun.
    apply M_bind_inv in Hrun as [(acc1 & w1 & Hbody & Hrest)|(? & _ & [=])].
    rewrite lift_bind in Hbody.
    destruct (cluster_get c "unique_id") as [uid|]; [|done].
    rewrite andb_false_r in Hbody.
    apply M_bind_inv in Hbody as [(r1 & w0 & Ha & Hb)|(? & _ & [=])].
    apply apply_func_to_cluster_inv in Ha as ->.
    assert (w1 = log_call c w) as ->.
    { destruct (truthy r1); [|by injection Hb].
      unfold lift in Hb. by injection Hb. }
    apply IH in Hrest as ->. cbn [calls log_call]. by rewrite <-app_assoc.
Qed.

(** with [ignore_existing] the loop starts from the empty list, whether
    the file exists or not *)
Lemma run_single_file_ignore_existing func params fail_on_error path window w :
  run_single_file func params true fail_on_error path window w
  = (res ← for_fold
             (λ res c,
                uid ← lift (cluster_get c "unique_id");
                if py_in uid [] && negb true then mret res
                else
                  r ← apply_func_to_cluster func c params fail_on_error;
                  if truthy r then lift (py_append res r) else mret res)
             (VList []) window;
     _ ← dump_pickle path res;
     mret res) w.
Proof.
  unfold run_single_file. rewrite gets_bind. cbn [andb].
  destruct (path_exists path w) eqn:Hex.
  - rewrite ret_bind. by rewrite lift_bind.
  - unfold path_exists in Hex. apply orb_false_iff in Hex as [Hf Ht].
    apply bool_decide_eq_false in Hf.
    unfold mbind at 1, M_bind at 1. unfold try_except, load_pickle.
    assert (files w !! path = None) as ->.
    { destruct (files w !! path) eqn:E; [|done]. destruct Hf. by eexists. }
    rewrite Ht. rewrite bool_decide_eq_true_2 by done.
    cbn [mret M_ret]. by rewrite lift_bind.
Qed.

Lemma run_single_file_ignore_set_files func params fail_on_error path window
    fs w :
  let out := run_single_file func params true fail_on_error path window w in
  ∃ fs',
    run_single_file func params true fail_on_error path window (set_files fs w)
    = (out.1, set_files fs' out.2) ∧
    ∀ res, out.1 = Ok res → fs' = <[path := res]> fs.
Proof.
  cbv zeta. rewrite !run_single_file_ignore_existing.
  rewrite !(M_bind_unfold (for_fold _ _ _)).
  rewrite single_file_loop_files_blind.
  destruct (for_fold _ (VList []) window w) as [[res|e] w1]; cbn [fst snd];
    [|by exists fs].
  rewrite !dump_pickle_bind.
  destruct (py_pickle_error res) as [e|]; cbn [fst snd].
  - by exists (delete path fs).
  - exists (<[path := res]> fs). split; [done|]. by intros ? [= <-].
Qed.

(** X15.  A single-file run with [ignore_existing=True] and nothing to
    load first does not depend on the files: started from any other file
    store it returns or raises the same, makes the same calls, and when
    it returns, the results file holds exactly the returned list (the
    list stored before is dropped, not extended) and [func] has been
    applied to every cluster of the window. *)
Theorem run_analysis_ignore_existing func params this_data_segment
    total_data_segments fail_on_error w r w' fs :
  run_analysis func params true false true this_data_segment
               total_data_segments fail_on_error None w
  = (r, w') →
  ∃ w2,
    run_analysis func params true false true this_data_segment
                 total_data_segments fail_on_error None (set_files fs w)
    = (r, w2) ∧
    calls w2 = calls w' ∧ self_clusters w2 = self_clusters w' ∧
    ∀ res, r = Ok res →
      ∃ f path window,
        resolve_func func = Ok f ∧
        run_analysis_results_path (self_stim_types w) (FCallable f) params
          = Ok path ∧
        files w' = <[path := res]> (files w) ∧
        files w2 = <[path := res]> fs ∧
        segment_window (self_clusters w) this_data_segment total_data_segments
          = Ok window ∧
        calls w' = calls w ++ window.
Proof.
  unfold run_analysis, segment_window. rewrite !gets_bind, !lift_bind.
  cbn [self_clusters set_files].
  destruct (ceil_div _ _) as [segment_length|];
    [|intros [= <- <-]; eexists; split_and!; done].
  rewrite !lift_bind.
  destruct (resolve_func func) as [f|];
    [|intros [= <- <-]; eexists; split_and!; done].
  rewrite !ret_bind, !gets_bind. cbn [negb self_clusters set_files].
  rewrite !gets_bind, !lift_bind. cbn [self_stim_types set_files].
  destruct (run_analysis_results_path _ _ _) as [path|] eqn:Hpath;
    [|intros [= <- <-]; eexists; split_and!; done].
  intros Hrun.
  destruct (run_single_file_ignore_set_files f params fail_on_error path
              (py_slice (self_clusters w)
                 ((this_data_segment - 1) * segment_length)
                 ((this_data_segment - 1) * segment_length + segment_length))
              fs w) as (fs' & -> & Hfs').
  rewrite Hrun in Hfs' |- *. cbn [fst snd] in *.
  eexists. split; [reflexivity|]. split; [reflexivity|].
  split; [reflexivity|].
  intros res ->. exists f, path. eexists.
  split; [done|]. split; [done|]. rewrite (Hfs' res eq_refl).
  rewrite run_single_file_ignore_existing in Hrun.
  apply M_bind_inv in Hrun as [(res1 & w1 & Hloop & Hrun)|(? & _ & [=])].
  rewrite dump_pickle_bind in Hrun.
  destruct (py_pickle_error res1); [done|].
  injection Hrun as -> <-.
  pose proof (single_file_loop_keeps_files f params fail_on_error true []
                _ _ _ _ _ Hloop) as [Hf _].
  apply ignore_loop_calls in Hloop.
  cbn [files with_pickle set_truncated set_files calls self_clusters].
  rewrite Hf.
  split_and!; done.
Qed.

End ignore_existing.

Lemma run_analysis_ignore_existing_witness :
  let out := run_analysis (H := example_runtime) (FStr "coch_kernel")
               example_params true false true 1 1 false None
               example_resumed_world in
  ∃ w2,
    run_analysis (H := example_runtime) (FStr "coch_kernel")
      example_params true false true 1 1 false None
      (set_files ∅ example_resumed_world)
    = (out.1, w2) ∧
    calls w2 = calls out.2 ∧ self_clusters w2 = self_clusters out.2 ∧
    ∀ res, out.1 = Ok res →
      ∃ f path window,
        resolve_func (H := example_runtime) (FStr "coch_kernel") = Ok f ∧
        run_analysis_results_path (H := example_runtime)
          (self_stim_types example_resumed_world) (FCallable f) example_params
          = Ok path ∧
        files out.2 = <[path := res]> (files example_resumed_world) ∧
        files w2 = <[path := res]> ∅ ∧
        segment_window (self_clusters example_resumed_world) 1 1 = Ok window ∧
        calls out.2 = calls example_resumed_world ++ window.
Proof.
  intros out.
  apply (run_analysis_ignore_existing (H := example_runtime)
           (FStr "coch_kernel") example_params 1 1 false
           example_resumed_world out.1 out.2 ∅).
  apply surjective_pairing.
Defined.

(** ** Running the same analysis again *)

Lemma mapM_Ok_app {A B} (f : A → result B) l1 l2 k1 k2 :
  mapM f l1 = Ok k1 → mapM f l2 = Ok k2 → mapM f (l1 ++ l2) = Ok (k1 ++ k2).
Proof.
  intros H1%mapM_Ok_Forall2 H2%mapM_Ok_Forall2.
  apply mapM_Ok_Forall2. by apply Forall2_app.
Qed.

Lemma py_in_app x l1 l2 : py_in x (l1 ++ l2) = py_in x l1 || py_in x l2.
Proof. unfold py_in. apply existsb_app. Qed.

Section run_again.
Context `{Runtime}.

(** What one call of [apply_func_to_cluster] gives: [None], or the dict
    of the cluster's id and the result, or an exception; and it gives the
    same from every state with the same clusters. *)
Lemma apply_func_to_cluster_outcome func c params fail_on_error w r w' :
  apply_func_to_cluster func c params fail_on_error w = (r, w') →
  (r = Ok VNone ∨
   (∃ result uid,
      c !! "unique_id" = Some uid ∧
      r = Ok (VDict (Dict.set (fn_name func) result [("unique_id", uid)]))) ∨
   ∃ e, r = Raise e) ∧
  ∀ w2, self_clusters w2 = self_clusters w →
        apply_func_to_cluster func c params fail_on_error w2
        = (r, log_call c w2).
Proof.
  unfold apply_func_to_cluster. rewrite gets_bind, modify_bind. intros Hrun.
  assert (∀ (result : value) w0,
            (if negb (truthy result) then mret VNone
             else uid ← lift (cluster_get c "unique_id");
                  mret (VDict (Dict.set (fn_name func) result
                                 [("unique_id", uid)]))) w0 = (r, w') →
            (r = Ok VNone ∨
             (∃ result uid,
                c !! "unique_id" = Some uid ∧
                r = Ok (VDict (Dict.set (fn_name func) result
                                 [("unique_id", uid)]))) ∨
             ∃ e, r = Raise e) ∧
            ∀ w3, (if negb (truthy result) then mret VNone
                   else uid ← lift (cluster_get c "unique_id");
                        mret (VDict (Dict.set (fn_name func) result
                                       [("unique_id", uid)]))) w3 = (r, w3))
    as Htail.
  { intros result w0. destruct (negb (truthy result)).
    - intros [= <- <-]. split; [by left|done].
    - rewrite lift_bind. unfold cluster_get.
      destruct (c !! "unique_id") as [uid|] eqn:Huid; cbn [of_option].
      + intros [= <- <-]. split; [right; left; by eexists _, _|].
        intros w3. by rewrite lift_bind.
      + intros [= <- <-]. split; [right; right; by eexists|].
        intros w3. by rewrite lift_bind. }
  destruct fail_on_error.
  - rewrite lift_bind in Hrun.
    destruct (fn_call func c (self_clusters w) params) as [result|e] eqn:Hcall.
    + destruct (Htail _ _ Hrun) as [Hcases Hsame]. split; [done|].
      intros w2 Hw2. rewrite gets_bind, modify_bind, lift_bind, Hw2, Hcall.
      apply Hsame.
    + injection Hrun as <- <-. split; [right; right; by eexists|].
      intros w2 Hw2. by rewrite gets_bind, modify_bind, lift_bind, Hw2, Hcall.
  - rewrite M_bind_unfold in Hrun. unfold try_except, lift in Hrun.
    destruct (fn_call func c (self_clusters w) params) as [result|e] eqn:Hcall.
    + destruct (Htail _ _ Hrun) as [Hcases Hsame]. split; [done|].
      intros w2 Hw2. rewrite gets_bind, modify_bind, M_bind_unfold.
      unfold try_except, lift. rewrite Hw2, Hcall. apply Hsame.
    + cbn [mret M_ret] in Hrun.
      destruct (Htail VNone _ Hrun) as [Hcases Hsame]. split; [done|].
      intros w2 Hw2. rewrite gets_bind, modify_bind, M_bind_unfold.
      unfold try_except, lift. rewrite Hw2, Hcall. cbn [mret M_ret].
      apply (Hsame (log_call c w2)).
Qed.

(** The first run: what it appends, and for every cluster of the window
    why it has or has not an entry. *)
Lemma first_run_loop func params fail_on_error processed_ids window acc rs
    w res w' :
  for_fold
    (λ res c,
       uid ← lift (cluster_get c "unique_id");
       if py_in uid processed_ids && negb false then mret res
       else
         r ← apply_func_to_cluster func c params fail_on_error;
         if truthy r then lift (py_append res r) else mret res)
    acc window w = (Ok res, w') →
  py_iter acc = Ok rs → fn_name func ≠ "unique_id" →
  ∃ added ids,
    py_iter res = Ok (rs ++ added) ∧
    mapM (λ r, getitem r "unique_id") added = Ok ids ∧
    self_clusters w' = self_clusters w ∧
    (added = [] → res = acc) ∧
    Forall (λ c, ∃ uid, c !! "unique_id" = Some uid ∧
                 (py_in uid processed_ids = true ∨
                  (∀ w2, self_clusters w2 = self_clusters w →
                         apply_func_to_cluster func c params fail_on_error w2
                         = (Ok VNone, log_call c w2)) ∨
                  uid ∈ ids))
           window.
Proof.
  intros Hrun Hrs Hname. revert acc rs w Hrun Hrs.
  induction window as [|c window IH]; intros acc rs w Hrun Hrs.
  - injection Hrun as <- <-. exists [], []. rewrite app_nil_r.
    split_and!; done.
  - cbn [for_fold] in Hrun.
    apply M_bind_inv in Hrun as [(acc1 & w1 & Hbody & Hrest)|(? & _ & [=])].
    rewrite lift_bind in Hbody. unfold cluster_get in Hbody.
    destruct (c !! "unique_id") as [uid|] eqn:Huid; [|done].
    cbn [of_option] in Hbody. rewrite andb_true_r in Hbody.
    destruct (py_in uid processed_ids) eqn:Hin.
    + injection Hbody as <- <-.
      destruct (IH _ _ _ Hrest Hrs) as (added & ids & ? & ? & ? & ? & Hall).
      exists added, ids. split_and!; [done..|].
      constructor; [|done]. exists uid. split; [done|by left].
    + apply M_bind_inv in Hbody as [(r1 & w0 & Ha & Hb)|(? & _ & [=])].
      pose proof (apply_func_to_cluster_inv _ _ _ _ _ _ _ Ha) as ->.
      destruct (apply_func_to_cluster_outcome _ _ _ _ _ _ _ Ha)
        as [[Hn|[(result & uid' & Huid' & Hd)|(e & [=])]] Hsame].
      * apply Ok_inj in Hn as ->. cbn [truthy] in Hb. injection Hb as <- <-.
        destruct (IH _ _ _ Hrest Hrs) as (added & ids & ? & ? & Hcl & ? & Hall).
        exists added, ids. split_and!; [done..| |].
        { done. }
        constructor.
        -- exists uid. split; [done|]. right; left. done.
        -- eapply Forall_impl; [exact Hall|]. cbn beta.
           intros c' (uid1 & ? & [?|[Hnone|?]]); exists uid1;
             (split; [done|]); [by left| |by right; right].
           right; left. intros w2 Hw2. apply Hnone. by rewrite Hw2.
      * apply Ok_inj in Hd as ->. rewrite Huid in Huid'. injection Huid' as <-.
        assert (truthy (VDict (Dict.set (fn_name func) result
                                 [("unique_id", uid)])) = true) as Ht.
        { cbn [Dict.set]. rewrite bool_decide_eq_false_2 by congruence. done. }
        rewrite Ht in Hb. unfold lift in Hb.
        destruct acc as [| | | | |items| | |]; try done.
        cbn [py_append] in Hb. injection Hb as <- <-.
        cbn [py_iter] in Hrs. apply Ok_inj in Hrs as <-.
        destruct (IH _ (items ++ [VDict (Dict.set (fn_name func) result
                                           [("unique_id", uid)])]) _ Hrest
                    eq_refl)
          as (added & ids & Hres & Hids & Hcl & _ & Hall).
        exists (VDict (Dict.set (fn_name func) result [("unique_id", uid)])
                  :: added), (uid :: ids).
        split_and!.
        -- by rewrite <-app_assoc in Hres.
        -- cbn [mapM getitem Dict.set Dict.get].
           rewrite bool_decide_eq_false_2 by congruence.
           cbn [Dict.get]. rewrite bool_decide_eq_true_2 by done.
           cbn [of_option mbind result_bind]. by rewrite Hids.
        -- done.
        -- done.
        -- constructor.
           ++ exists uid. split; [done|]. right; right. by left.
           ++ eapply Forall_impl; [exact Hall|]. cbn beta.
              intros c' (uid1 & ? & [?|[Hnone|?]]); exists uid1;
                (split; [done|]); [by left| |by right; right; right].
              right; left. intros w2 Hw2. apply Hnone. by rewrite Hw2.
Qed.

(** The second run: every cluster is skipped or gives nothing again. *)
Lemma second_run_loop func params fail_on_error processed_ids window acc cs w :
  self_clusters w = cs →
  Forall (λ c, ∃ uid, c !! "unique_id" = Some uid ∧
               (py_in uid processed_ids = true ∨
                (∀ w2, self_clusters w2 = cs →
                       apply_func_to_cluster func c params fail_on_error w2
                       = (Ok VNone, log_call c w2))))
         window →
  ∃ w' called,
    for_fold
      (λ res c,
         uid ← lift (cluster_get c "unique_id");
         if py_in uid processed_ids && negb false then mret res
         else
           r ← apply_func_to_cluster func c params fail_on_error;
           if truthy r then lift (py_append res r) else mret res)
      acc window w = (Ok acc, w') ∧
    files w' = files w ∧ self_clusters w' = cs ∧
    self_stim_types w' = self_stim_types w ∧
    calls w' = calls w ++ called ∧
    called `sublist_of` window ∧
    Forall (λ c, ∀ w2, self_clusters w2 = cs →
                       apply_func_to_cluster func c params fail_on_error w2
                       = (Ok VNone, log_call c w2)) called.
Proof.
  intros Hcs Hall. revert w Hcs.
  induction Hall as [|c window (uid & Huid & Hc) _ IH]; intros w Hcs.
  - exists w, []. rewrite app_nil_r. split_and!; done.
  - assert (cluster_get c "unique_id" = Ok uid) as Hget
      by (unfold cluster_get; by rewrite Huid).
    destruct (py_in uid processed_ids) eqn:Hin.
    + destruct (IH w Hcs) as (w' & called & Hrun & ? & ? & ? & ? & ? & ?).
      exists w', called. split_and!; [|done..| |done].
      * cbn [for_fold]. rewrite M_bind_unfold, lift_bind, Hget, Hin.
        cbn [andb negb mret M_ret]. exact Hrun.
      * by apply sublist_cons.
    + destruct Hc as [[=]|Hnone].
      destruct (IH (log_call c w) Hcs)
        as (w' & called & Hrun & ? & ? & ? & Hcalls & ? & ?).
      exists w', (c :: called). split_and!; [|done..| | |].
      * cbn [for_fold]. rewrite M_bind_unfold, lift_bind, Hget, Hin.
        cbn [andb negb]. rewrite M_bind_unfold, (Hnone w Hcs).
        cbn [truthy mret M_ret]. exact Hrun.
      * rewrite Hcalls. cbn [calls log_call]. by rewrite <-app_assoc.
      * by apply sublist_skip.
      * by constructor.
Qed.

Lemma py_in_refl x l : py_eq x x = true → x ∈ l → py_in x l = true.
Proof.
  intros Hx Hin. unfold py_in. apply existsb_exists. exists x.
  split; [by apply list_elem_of_In|done].
Qed.

Lemma run_single_file_again func params fail_on_error path window w res w1 :
  run_single_file func params false fail_on_error path window w
  = (Ok res, w1) →
  fn_name func ≠ "unique_id" →
  Forall (λ c, ∀ uid, c !! "unique_id" = Some uid → py_eq uid uid = true)
         window →
  ∃ w2 called,
    run_single_file func params false fail_on_error path window w1
    = (Ok res, w2) ∧
    files w2 = files w1 ∧ self_clusters w2 = self_clusters w1 ∧
    self_clusters w1 = self_clusters w ∧
    self_stim_types w1 = self_stim_types w ∧
    calls w2 = calls w1 ++ called ∧
    called `sublist_of` window ∧
    Forall (λ c, ∀ w0, self_clusters w0 = self_clusters w →
                       apply_func_to_cluster func c params fail_on_error w0
                       = (Ok VNone, log_call c w0)) called.
Proof.
  intros Hrun Hname Hrefl. unfold run_single_file in Hrun.
  rewrite gets_bind in Hrun. cbn [andb] in Hrun.
  apply M_bind_inv in Hrun as [(res0 & w0 & Hload & Hrun)|(? & _ & [=])].
  assert (w0 = w) as ->.
  { unfold try_except, load_pickle in Hload.
    destruct (files w !! path).
    - by injection Hload.
    - destruct (bool_decide (path ∈ truncated w)); [done|].
      rewrite bool_decide_eq_true_2 in Hload by done. by injection Hload. }
  clear Hload. rewrite lift_bind in Hrun.
  destruct (py_iter res0) as [rs0|] eqn:Hrs0; [|done].
  rewrite lift_bind in Hrun.
  destruct (mapM _ rs0) as [ids0|] eqn:Hids0; [|done].
  apply M_bind_inv in Hrun as [(res1 & w' & Hloop & Hrun)|(? & _ & [=])].
  rewrite dump_pickle_bind in Hrun.
  destruct (py_pickle_error res1) eqn:Hpickle; [done|].
  injection Hrun as -> <-.
  pose proof (single_file_loop_keeps_files _ _ _ false _ _ _ _ _ _ Hloop)
    as [Hfiles Hstim].
  destruct (first_run_loop _ _ _ _ _ _ _ _ _ _ Hloop Hrs0 Hname)
    as (added & ids & Hres & Hids & Hcl & _ & Hall).
  destruct (second_run_loop func params fail_on_error (ids0 ++ ids) window res
              (self_clusters w)
              (with_pickle path res w'))
    as (w2 & called & Hrun2 & Hfiles2 & Hcl2 & Hstim2 & Hcalls2 & Hsub & Hnone).
  { done. }
  { apply Forall_forall. intros c Hc.
    rewrite Forall_forall in Hall. rewrite Forall_forall in Hrefl.
    destruct (Hall c Hc) as (uid & Huid & [Hin|[Hn|Hin]]); exists uid;
      (split; [done|]).
    - left. by rewrite py_in_app, Hin.
    - by right.
    - left. rewrite py_in_app. apply orb_true_iff. right.
      apply py_in_refl; [|done]. by apply (Hrefl c Hc). }
  exists (with_pickle path res w2), called.
  split_and!; [| | |done..].
  - unfold run_single_file. rewrite gets_bind. cbn [andb].
    rewrite M_bind_unfold. unfold try_except, load_pickle.
    cbn [files with_pickle set_truncated set_files].
    rewrite lookup_insert_eq.
    rewrite lift_bind, Hres. rewrite lift_bind.
    rewrite (mapM_Ok_app _ _ _ _ _ Hids0 Hids).
    rewrite M_bind_unfold, Hrun2.
    by rewrite dump_pickle_bind, Hpickle.
  - cbn [files with_pickle set_truncated set_files]. rewrite Hfiles2.
    cbn [files with_pickle set_truncated set_files].
    by rewrite insert_insert_eq.
  - cbn [self_clusters with_pickle set_truncated set_files]. by rewrite Hcl2.
Qed.

Lemma elem_of_py_slice {A} (l : list A) a b x : x ∈ py_slice l a b → x ∈ l.
Proof.
  unfold py_slice. intros Hx.
  eapply elem_of_sublist; [exact Hx|].
  etrans; [apply sublist_take|apply sublist_drop].
Qed.

(** X16.  Running a single-file analysis a second time with the same
    arguments returns the list of the first run and leaves the results
    file as it is.  [func] is applied again only to clusters for which it
    gave nothing the first time ([None], another false value or, with
    [fail_on_error=False], an exception), and it gives nothing again.
    The ids are strings, and [func] is not itself called ['unique_id']. *)
Theorem run_analysis_again func params this_data_segment total_data_segments
    fail_on_error w res w1 f :
  run_analysis func params true false false this_data_segment
               total_data_segments fail_on_error None w
  = (Ok res, w1) →
  resolve_func func = Ok f → fn_name f ≠ "unique_id" →
  Forall (λ c, ∀ uid, c !! "unique_id" = Some uid → ∃ s, uid = VStr s)
         (self_clusters w) →
  ∃ w2 called,
    run_analysis func params true false false this_data_segment
                 total_data_segments fail_on_error None w1
    = (Ok res, w2) ∧
    files w2 = files w1 ∧ self_clusters w2 = self_clusters w1 ∧
    calls w2 = calls w1 ++ called ∧
    Forall (λ c, c ∈ self_clusters w ∧
                 ∀ w0, self_clusters w0 = self_clusters w →
                       apply_func_to_cluster f c params fail_on_error w0
                       = (Ok VNone, log_call c w0)) called.
Proof.
  intros Hrun Hf Hname Hstr. unfold run_analysis in Hrun |- *.
  rewrite gets_bind, lift_bind in Hrun.
  destruct (ceil_div _ _) as [segment_length|] eqn:Hceil; [|done].
  rewrite lift_bind, Hf, ret_bind, gets_bind in Hrun. cbn [negb] in Hrun.
  rewrite gets_bind, lift_bind in Hrun.
  destruct (run_analysis_results_path _ _ _) as [path|] eqn:Hpath; [|done].
  destruct (run_single_file_again _ _ _ _ _ _ _ _ Hrun Hname)
    as (w2 & called & Hrun2 & Hfiles & Hcl2 & Hcl1 & Hstim & Hcalls & Hsub
        & Hnone).
  { apply Forall_forall. intros c Hc%elem_of_py_slice uid Huid.
    rewrite Forall_forall in Hstr. destruct (Hstr c Hc uid Huid) as [s ->].
    cbn. by apply bool_decide_eq_true. }
  exists w2, called. split_and!; [|done..|].
  - rewrite gets_bind, lift_bind, Hcl1, Hceil.
    rewrite lift_bind, Hf, ret_bind, gets_bind. cbn [negb].
    rewrite gets_bind, lift_bind, Hstim, Hpath, Hcl1. exact Hrun2.
  - apply Forall_forall. intros c Hc. split.
    + eapply elem_of_py_slice, elem_of_sublist; [exact Hc|exact Hsub].
    + rewrite Forall_forall in Hnone. by apply Hnone.
Qed.

End run_again.

Lemma run_analysis_again_witness :
  let first := run_analysis (H := example_runtime) (FStr "coch_kernel")
                 example_params true false false 1 1 false None
                 example_resumed_world in
  ∃ res w2 called,
    first.1 = Ok res ∧
    run_analysis (H := example_runtime) (FStr "coch_kernel")
      example_params true false false 1 1 false None first.2
    = (Ok res, w2) ∧
    files w2 = files first.2 ∧ self_clusters w2 = self_clusters first.2 ∧
    calls w2 = calls first.2 ++ called ∧
    Forall (λ c, c ∈ self_clusters example_resumed_world ∧
                 ∀ w0, self_clusters w0 = self_clusters example_resumed_world →
                       apply_func_to_cluster example_analysis c
                         example_params false w0
                       = (Ok VNone, log_call c w0)) called.
Proof.
  intros first.
  assert (∃ res, first.1 = Ok res) as [res Hres]
    by (eexists; vm_compute; reflexivity).
  exists res.
  destruct (run_analysis_again (H := example_runtime) (FStr "coch_kernel")
              example_params 1 1 false example_resumed_world res first.2
              example_analysis) as (w2 & called & Hrun2).
  - rewrite <-Hres. apply surjective_pairing.
  - reflexivity.
  - done.
  - repeat constructor; intros uid [= <-]; by eexists.
  - exists w2, called. split; [exact Hres|exact Hrun2].
Defined.

(** ** [merge_results] and [load_results]: failures *)

Lemma for_each_app {A} (body : A → M unit) l1 l2 w w1 :
  for_each body l1 w = (Ok tt, w1) →
  for_each body (l1 ++ l2) w = for_each body l2 w1.
Proof.
  unfold for_each. revert w. induction l1 as [|x l1 IH]; intros w.
  - by intros [= ->].
  - cbn [for_fold app]. intros Hrun.
    apply M_bind_inv in Hrun as [([] & w0 & Hx & Hrest)|(? & _ & [=])].
    rewrite M_bind_unfold, Hx. by apply IH.
Qed.

(** X17.  [merge_results] is not atomic.  When the entries of a result
    list merge up to an entry whose id belongs to no cluster, the call
    raises [ValueError] at that entry: the entries before it stay merged
    and those after it are not looked at. *)
Theorem merge_results_not_atomic nf good bad rest first uid w w1 :
  merge_results (VList good) nf w = (Ok tt, w1) →
  head good = Some first → py_contains "unique_id" first = Ok true →
  getitem bad "unique_id" = Ok uid →
  (∀ c id, c ∈ self_clusters w → c !! "unique_id" = Some id →
           py_eq id uid = false) →
  merge_results (VList (good ++ bad :: rest)) nf w = (Raise ValueError, w1).
Proof.
  intros Hrun Hhead Hfirst Huid Hno. unfold merge_results in Hrun |- *.
  rewrite gets_bind, lift_bind in Hrun. rewrite gets_bind, lift_bind.
  destruct (mapM _ (self_clusters w)) as [ids|] eqn:Hids; [|done].
  rewrite lift_bind in Hrun. rewrite lift_bind.
  assert (head (good ++ bad :: rest) = Some first) as ->
    by (destruct good; [done|by injection Hhead as ->]).
  rewrite Hhead in Hrun. cbn [of_option mbind result_bind] in Hrun |- *.
  rewrite Hfirst in Hrun. rewrite Hfirst.
  rewrite lift_bind in Hrun. rewrite lift_bind.
  cbn [py_iter] in Hrun |- *.
  rewrite (for_each_app _ _ _ _ _ Hrun).
  unfold for_each. cbn [for_fold]. rewrite M_bind_unfold.
  unfold merge_one at 1. rewrite lift_bind.
  unfold entry_index. rewrite Huid. cbn [mbind result_bind].
  assert (list_find (λ u, py_eq u uid = true) ids = None) as ->; [|done].
  apply list_find_None, Forall_forall. intros id Hid.
  apply list_elem_of_lookup in Hid as [i Hi].
  apply mapM_Ok_Forall2 in Hids.
  destruct (Forall2_lookup_r _ _ _ _ _ Hids Hi) as (c & Hc & Hget).
  unfold cluster_get in Hget.
  destruct (c !! "unique_id") as [id'|] eqn:Hid'; [|done].
  apply Ok_inj in Hget as ->.
  rewrite (Hno c id); [done| |done]. by eapply list_elem_of_lookup_2.
Qed.

Lemma merge_results_not_atomic_witness :
  merge_results
    (match example_results with
     | VList good =>
         VList (good ++ VDict [("unique_id", VStr "ac-e009-p001-c001");
                               ("coch_kernel", VDict [])]
                     :: good)
     | v => v
     end)
    (Some "fit") example_world
  = (Raise ValueError,
     set_clusters
       [ <["fit" := VDict [("cc", VFloat 0.25)]]> (example_clusters !!! 0%nat);
         example_clusters !!! 1%nat;
         <["fit" := VDict [("cc", VFloat 0.5)]]> (example_clusters !!! 2%nat) ]
       example_world).
Proof.
  apply (merge_results_not_atomic (Some "fit") _ _ _
           (VDict [("unique_id", VStr "ac-e002-p001-c001");
                   ("coch_kernel", VDict [("cc", VFloat 0.5)])])
           (VStr "ac-e009-p001-c001")).
  - vm_compute. reflexivity.
  - reflexivity.
  - vm_compute. reflexivity.
  - reflexivity.
  - intros c id Hc Hid. cbn in Hc.
    apply list_elem_of_In in Hc.
    destruct Hc as [<-|[<-|[<-|[]]]]; vm_compute in Hid;
      injection Hid as <-; vm_compute; reflexivity.
Defined.

Section load_results_facts.
Context `{Runtime}.

Global Instance only_field_refl f : Reflexive (only_field f).
Proof.
  intros w. split_and!; [done..|]. intros _ i c Hc. exists c. done.
Qed.

Global Instance only_field_trans f : Transitive (only_field f).
Proof.
  intros w1 w2 w3 (Hio1 & Hl1 & H1) (Hio2 & Hl2 & H2). split_and!.
  - by etrans.
  - congruence.
  - intros Hf i c Hc.
    destruct (H1 Hf i c Hc) as (c2 & Hc2 & Hk2).
    destruct (H2 Hf i c2 Hc2) as (c3 & Hc3 & Hk3).
    exists c3. split; [done|]. intros k Hk. by rewrite Hk3, Hk2.
Qed.

Lemma only_field_same_io f w w' :
  same_io w w' → self_clusters w' = self_clusters w → only_field f w w'.
Proof.
  intros Hio Hcl. split_and!; [done|by rewrite Hcl|].
  intros _ i c Hc. exists c. by rewrite Hcl.
Qed.

Lemma merge_results_only_field arg f :
  respects (only_field f) (merge_results arg (Some f)).
Proof.
  intros w r w' Hrun.
  destruct (mapM (λ d, cluster_get d "unique_id") (self_clusters w))
    as [ids|e] eqn:Hids; last first.
  { unfold merge_results in Hrun. rewrite gets_bind, lift_bind, Hids in Hrun.
    injection Hrun as <- <-. reflexivity. }
  destruct (merge_results_effect _ _ _ _ _ Hrun ids Hids)
    as [(Hio & Hlen & Hcl) _].
  split_and!; [done..|]. intros Hf i c Hc.
  destruct (Hcl i c Hc) as (c' & Hc' & _ & Hframe).
  exists c'. split; [done|]. apply Hframe. cbn.
  by rewrite bool_decide_eq_false_2.
Qed.

Lemma load_results_only_field func params fieldname :
  respects (only_field (load_results_fieldname func params fieldname))
           (load_results func params fieldname).
Proof.
  unfold load_results.
  change (match fieldname with
          | Some f => if bool_decide (f = "") then build_fieldname func params
                      else f
          | None => build_fieldname func params
          end) with (load_results_fieldname func params fieldname).
  generalize (load_results_fieldname func params fieldname). intros nf.
  repeat first
    [ apply merge_results_only_field
    | by intros ????; match goal with
                      | H : load_pickle _ _ = _ |- _ => injection H as _ <-
                      | H : iterdir _ _ = _ |- _ => injection H as _ <-
                      end
    | respects_step ].
Qed.

Lemma try_except_all_Ok (body handler : M unit) w :
  (∀ w1, ∃ w2, handler w1 = (Ok tt, w2)) →
  ∃ w', try_except body (λ _, true) handler w = (Ok tt, w').
Proof.
  intros Hh. unfold try_except. destruct (body w) as [[[]|e] w1]; [by eexists|].
  apply Hh.
Qed.

(** X18.  [load_results] never raises: whatever goes wrong while the
    results are read, tagged or merged is swallowed by its bare
    [except]s.  It leaves the files, the number of clusters and, in
    every cluster, all keys other than the field name it merges under as
    they were (a merge that failed half-way stays half done). *)
Theorem load_results_never_raises func params fieldname w :
  ∃ w',
    load_results func params fieldname w = (Ok tt, w') ∧
    files w' = files w ∧ calls w' = calls w ∧
    self_stim_types w' = self_stim_types w ∧
    length (self_clusters w') = length (self_clusters w) ∧
    (load_results_fieldname func params fieldname ≠ "" →
     ∀ i c, self_clusters w !! i = Some c →
       ∃ c', self_clusters w' !! i = Some c' ∧
             ∀ k, k ≠ load_results_fieldname func params fieldname →
                  c' !! k = c !! k).
Proof.
  assert (∃ w', load_results func params fieldname w = (Ok tt, w'))
    as [w' Hrun].
  { unfold load_results. rewrite gets_bind.
    apply try_except_all_Ok. intros w1.
    apply try_except_all_Ok. intros w2. by eexists. }
  exists w'. split; [done|].
  destruct (load_results_only_field _ _ _ _ _ _ Hrun)
    as ((Hfiles & Hcalls & Hstim & _) & Hlen & Hframe).
  split_and!; done.
Qed.

End load_results_facts.

(** ** [select_data]: what a selection keeps *)

Lemma filter_result_all_true {A} (keep : A → result bool) l kept :
  filter_result keep l = Ok kept → Forall (λ x, keep x = Ok true) kept.
Proof.
  revert kept. induction l as [|x l IH]; intros kept; cbn.
  - intros [= <-]. constructor.
  - destruct (keep x) as [b|] eqn:Hx; [|done]. cbn.
    destruct (filter_result keep l) as [kept'|]; [|done]. cbn.
    intros [= <-]. destruct b; [constructor|]; eauto.
Qed.

Lemma filter_result_keeps_all {A} (keep : A → result bool) l :
  Forall (λ x, keep x = Ok true) l → filter_result keep l = Ok l.
Proof.
  induction 1 as [|x l Hx _ IH]; [done|]. cbn. rewrite Hx. cbn.
  by rewrite IH.
Qed.

Lemma filter_keeps_all {A} (P : A → Prop) `{∀ x, Decision (P x)} l :
  Forall P l → filter P l = l.
Proof.
  induction 1 as [|x l Hx _ IH]; [done|].
  rewrite filter_cons. destruct (decide (P x)); [|done]. by rewrite IH.
Qed.

Lemma Forall_sublist {A} (P : A → Prop) l1 l2 :
  l1 `sublist_of` l2 → Forall P l2 → Forall P l1.
Proof.
  intros Hsub Hall. apply Forall_forall. intros x Hx.
  rewrite Forall_forall in Hall. apply Hall. by eapply elem_of_sublist.
Qed.

(** one keyword: the result is a sublist, and every sublist of the result
    passes the same test unchanged *)
Lemma select_step_keeps clusters kw_vals kept :
  select_step clusters kw_vals = Ok kept →
  kept `sublist_of` clusters ∧
  ∀ sub, sub `sublist_of` kept → select_step sub kw_vals = Ok sub.
Proof.
  destruct kw_vals as [kw vals]. unfold select_step.
  case_bool_decide as Hnr.
  - destruct (negb (py_in vals [VStr "inf"; VFloat infinity])).
    + intros (notnan & H1 & H2)%bind_Ok.
      pose proof (filter_result_sublist _ _ _ H1) as Hs1.
      pose proof (filter_result_sublist _ _ _ H2) as Hs2.
      pose proof (filter_result_all_true _ _ _ H1) as Ha1.
      pose proof (filter_result_all_true _ _ _ H2) as Ha2.
      split; [by etrans|]. intros sub Hsub.
      rewrite (filter_result_keeps_all _ sub).
      * cbn. apply filter_result_keeps_all. by eapply Forall_sublist.
      * eapply Forall_sublist; [|exact Ha1]. by etrans.
    + intros [= <-]. done.
  - destruct (String.prefix "exclude_" kw).
    + intros Hf.
      pose proof (filter_result_sublist _ _ _ Hf) as Hs.
      pose proof (filter_result_all_true _ _ _ Hf) as Ha.
      split; [done|]. intros sub Hsub.
      apply filter_result_keeps_all. by eapply Forall_sublist.
    + destruct (head _) as [first|]; [|done]. cbn [of_option mbind result_bind].
      destruct (py_eq first (VStr "*")).
      * intros [= <-]. split; [apply sublist_filter|]. intros sub Hsub.
        f_equal. apply filter_keeps_all.
        eapply Forall_sublist; [exact Hsub|].
        apply Forall_forall. by intros c [? _]%list_elem_of_filter.
      * intros Hf.
        pose proof (filter_result_sublist _ _ _ Hf) as Hs.
        pose proof (filter_result_all_true _ _ _ Hf) as Ha.
        split; [done|]. intros sub Hsub.
        apply filter_result_keeps_all. by eapply Forall_sublist.
Qed.

(** X19.  What [select_data] returns is a sublist of [self.clusters]
    (same clusters, same order, nothing added), and the selection is
    stable: the same keywords applied to the result, or to any part of
    it, select all of it again. *)
Theorem select_data_stable kwargs clusters selected :
  select_data kwargs clusters = Ok selected →
  selected `sublist_of` clusters ∧
  ∀ sub, sub `sublist_of` selected → select_data kwargs sub = Ok sub.
Proof.
  unfold select_data. revert clusters.
  induction kwargs as [|kv kwargs IH]; intros clusters.
  - intros [= <-]. done.
  - cbn [foldl mbind result_bind].
    destruct (select_step clusters kv) as [kept|e] eqn:Hstep;
      [|intros Hr; rewrite foldl_Raise in Hr; done].
    intros Hrest. destruct (IH _ Hrest) as [Hsub Hall].
    destruct (select_step_keeps _ _ _ Hstep) as [Hsub1 Hall1].
    split; [by etrans|]. intros sub Hs.
    rewrite (Hall1 sub) by (by etrans). by apply Hall.
Qed.

Lemma select_data_stable_witness :
  [example_clusters !!! 0%nat] `sublist_of` example_clusters ∧
  ∀ sub, sub `sublist_of` [example_clusters !!! 0%nat] →
         select_data [("noiseratio", VInt 200);
                      ("exclude_unique_id", VStr "ic-e001-p001-c002")] sub
         = Ok sub.
Proof.
  apply (select_data_stable
           [("noiseratio", VInt 200);
            ("exclude_unique_id", VStr "ic-e001-p001-c002")]
           example_clusters).
  vm_compute. reflexivity.
Defined.

Lemma substring_all s : String.substring 0 (String.length s) s = s.
Proof. induction s as [|a s IH]; [done|]. cbn. by rewrite IH. Qed.

Lemma exclude_prefix_strip kw :
  String.substring 8 (String.length ("exclude_" +:+ kw) - 8)
                   ("exclude_" +:+ kw) = kw.
Proof.
  unfold String.app. cbn [String.append String.length Nat.sub String.substring].
  rewrite Nat.sub_0_r. apply substring_all.
Qed.

Lemma filter_result_complement {A} (keep : A → result bool) l kept :
  filter_result keep l = Ok kept →
  ∃ dropped,
    filter_result (λ x, b ← keep x; Ok (negb b)) l = Ok dropped ∧
    kept ++ dropped ≡ₚ l ∧
    Forall (λ x, keep x = Ok true) kept ∧
    Forall (λ x, keep x = Ok false) dropped.
Proof.
  revert kept. induction l as [|x l IH]; intros kept; cbn.
  - intros [= <-]. exists []. split_and!; by constructor.
  - destruct (keep x) as [b|] eqn:Hx; [|done]. cbn.
    destruct (filter_result keep l) as [kept'|]; [|done]. cbn.
    intros [= <-].
    destruct (IH kept' eq_refl) as (dropped & -> & Hperm & Hk & Hd). cbn.
    destruct b; cbn [negb].
    + exists dropped. split_and!; [done| |by constructor|done].
      cbn. by f_equiv.
    + exists (x :: dropped). split_and!; [done| |done|by constructor].
      rewrite <-Permutation_middle. by f_equiv.
Qed.

(** X20.  For a key [kw] (not ['noiseratio'], not itself starting with
    ['exclude_']) and values not starting with ['*'], the keywords [kw]
    and ['exclude_' + kw] split the clusters: when [select_data(kw=vals)]
    returns, [select_data(exclude_kw=vals)] returns too, no cluster value
    is in both results, and together they are a rearrangement of
    [self.clusters]. *)
Theorem select_data_exclude_complement kw vals first clusters selected :
  kw ≠ "noiseratio" → String.prefix "exclude_" kw = false →
  head (match vals with VList items => items | v => [v] end) = Some first →
  py_eq first (VStr "*") = false →
  select_data [(kw, vals)] clusters = Ok selected →
  ∃ excluded,
    select_data [("exclude_" +:+ kw, vals)] clusters = Ok excluded ∧
    selected ++ excluded ≡ₚ clusters ∧
    ∀ c, c ∈ selected → c ∉ excluded.
Proof.
  intros Hnr Hpre Hhead Hstar. unfold select_data.
  cbn [foldl mbind result_bind]. unfold select_step.
  rewrite bool_decide_eq_false_2 by done. rewrite Hpre, Hhead.
  cbn [of_option mbind result_bind]. rewrite Hstar.
  rewrite bool_decide_eq_false_2 by done.
  assert (String.prefix "exclude_" ("exclude_" +:+ kw) = true) as ->
    by (by destruct kw).
  rewrite exclude_prefix_strip. intros Hsel.
  destruct (filter_result_complement _ _ _ Hsel)
    as (dropped & Hdrop & Hperm & Hk & Hd).
  exists dropped. split; [|split; [done|]].
  - rewrite <-Hdrop. clear. induction clusters as [|c l IH]; [done|].
    cbn. destruct (cluster_get c kw); cbn; [|done]. by rewrite IH.
  - intros c Hc Hc'. rewrite Forall_forall in Hk, Hd.
    specialize (Hk c Hc). specialize (Hd c Hc'). congruence.
Qed.

Lemma select_data_exclude_complement_witness :
  ∃ excluded,
    select_data [("exclude_" +:+ "unique_id",
                  VList [VStr "ic-e001-p001-c002"; VStr "zz"])]
                example_clusters = Ok excluded ∧
    [example_clusters !!! 1%nat] ++ excluded ≡ₚ example_clusters ∧
    ∀ c, c ∈ [example_clusters !!! 1%nat] → c ∉ excluded.
Proof.
  apply (select_data_exclude_complement "unique_id"
           (VList [VStr "ic-e001-p001-c002"; VStr "zz"])
           (VStr "ic-e001-p001-c002") example_clusters).
  - done.
  - reflexivity.
  - reflexivity.
  - reflexivity.
  - vm_compute. reflexivity.
Defined.

(** ** The results path and dots in the parameter string *)

Section string_facts.
Implicit Types (s x y acc : string) (c sep : Ascii.ascii).

Lemma append_cons c x y : String c x +:+ y = String c (x +:+ y).
Proof. done. Qed.

Lemma append_nil_l y : "" +:+ y = y.
Proof. done. Qed.

Lemma append_assoc x y z : (x +:+ y) +:+ z = x +:+ (y +:+ z).
Proof. induction x as [|a x IH]; [done|]. rewrite !append_cons. by rewrite IH. Qed.

Lemma append_nil_r x : x +:+ "" = x.
Proof. induction x as [|a x IH]; [done|]. rewrite !append_cons. by rewrite IH. Qed.

Lemma length_append x y :
  String.length (x +:+ y) = (String.length x + String.length y)%nat.
Proof.
  induction x as [|a x IH]; [done|].
  rewrite append_cons. cbn [String.length]. by rewrite IH.
Qed.

Lemma substring_append_l x y :
  String.substring 0 (String.length x) (x +:+ y) = x.
Proof.
  induction x as [|a x IH]; [by destruct y|].
  rewrite append_cons. cbn [String.length String.substring]. by rewrite IH.
Qed.

Lemma substring_append_r x y :
  String.substring (String.length x) (String.length y) (x +:+ y) = y.
Proof.
  induction x as [|a x IH]; [apply substring_all|].
  rewrite append_cons. cbn [String.length String.substring]. exact IH.
Qed.

Lemma after_last_append_sep sep x y acc :
  Str.after_last sep (x +:+ String sep y) acc = Str.after_last sep y "".
Proof.
  revert acc. induction x as [|a x IH]; intros acc.
  - rewrite append_nil_l. cbn [Str.after_last].
    by rewrite bool_decide_eq_true_2.
  - rewrite append_cons. cbn [Str.after_last]. case_bool_decide; apply IH.
Qed.

Lemma after_last_no_sep sep y acc :
  sep ∉ list_ascii_of_string y → Str.after_last sep y acc = acc +:+ y.
Proof.
  revert acc. induction y as [|a y IH]; intros acc Hno; cbn [Str.after_last].
  - by rewrite append_nil_r.
  - cbn [list_ascii_of_string] in Hno. apply not_elem_of_cons in Hno as [Hne Hno].
    rewrite bool_decide_eq_false_2 by done.
    rewrite IH by done. by rewrite append_assoc.
Qed.

Lemma rfind_from_no_char c y i found :
  c ∉ list_ascii_of_string y → Str.rfind_from c y i found = found.
Proof.
  revert i found. induction y as [|a y IH]; intros i found Hno; [done|].
  cbn [list_ascii_of_string] in Hno. apply not_elem_of_cons in Hno as [Hne Hno].
  cbn [Str.rfind_from]. rewrite bool_decide_eq_false_2 by done. by apply IH.
Qed.

Lemma rfind_from_append c x y i found :
  c ∉ list_ascii_of_string y →
  Str.rfind_from c (x +:+ String c y) i found
  = Some (i + String.length x)%nat.
Proof.
  intros Hno. revert i found.
  induction x as [|a x IH]; intros i found.
  - rewrite append_nil_l. cbn [Str.rfind_from].
    rewrite bool_decide_eq_true_2 by done.
    rewrite rfind_from_no_char by done. cbn. by rewrite Nat.add_0_r.
  - rewrite append_cons. cbn [Str.rfind_from].
    rewrite IH. cbn [String.length]. f_equal. lia.
Qed.

Lemma not_elem_of_list_ascii_append c x y :
  c ∉ list_ascii_of_string x → c ∉ list_ascii_of_string y →
  c ∉ list_ascii_of_string (x +:+ y).
Proof.
  intros Hx Hy. induction x as [|a x IH]; [done|].
  rewrite append_cons. cbn [list_ascii_of_string] in *.
  apply not_elem_of_cons in Hx as [? ?]. apply not_elem_of_cons. auto.
Qed.

(** [p / name] for a name without ["/"] *)
Lemma div_relative p name :
  "/"%char ∉ list_ascii_of_string name →
  Path.div p name = p +:+ "/" +:+ name.
Proof.
  unfold Path.div. destruct name as [|c name]; [done|].
  cbn [list_ascii_of_string String.prefix]. intros [Hc _]%not_elem_of_cons.
  by destruct (ascii_dec "/" c).
Qed.

(** [with_suffix] replaces what follows the last dot of the name *)
Lemma with_suffix_after_dot dir stem tail s :
  stem ≠ "" → tail ≠ "" →
  "/"%char ∉ list_ascii_of_string stem →
  "/"%char ∉ list_ascii_of_string tail →
  "."%char ∉ list_ascii_of_string tail →
  Path.with_suffix (Path.make [dir; stem +:+ "." +:+ tail]) s
  = Ok (Path.make [dir; stem] +:+ s).
Proof.
  intros Hstem Htail Hs1 Hs2 Hdot.
  assert ("/"%char ∉ list_ascii_of_string (stem +:+ "." +:+ tail)) as Hs3.
  { apply not_elem_of_list_ascii_append; [done|].
    change ("." +:+ tail) with (String "." tail).
    cbn [list_ascii_of_string]. apply not_elem_of_cons. split; [done|done]. }
  unfold Path.make. cbn [foldl]. rewrite !div_relative by done.
  change ("/" +:+ ?x) with (String "/" x).
  change ("." +:+ tail) with (String "." tail).
  assert (Path.name (dir +:+ String "/" (stem +:+ String "." tail))
          = stem +:+ String "." tail) as Hname.
  { unfold Path.name, Str.split_last. rewrite after_last_append_sep.
    rewrite after_last_no_sep; [done|].
    apply not_elem_of_list_ascii_append; [done|].
    cbn [list_ascii_of_string]. apply not_elem_of_cons. split; [done|done]. }
  assert (String.substring (String.length stem)
            (String.length (stem +:+ String "." tail) - String.length stem)
            (stem +:+ String "." tail) = String "." tail) as Hsuf.
  { rewrite length_append.
    replace (String.length stem + String.length (String "." tail)
             - String.length stem)%nat
      with (String.length (String "." tail)) by lia.
    apply substring_append_r. }
  unfold Path.with_suffix, Path.suffix. rewrite Hname.
  rewrite bool_decide_eq_false_2 by (destruct stem; done).
  unfold Str.rfind. rewrite rfind_from_append by done. cbn [plus].
  rewrite bool_decide_eq_true_2; last first.
  { destruct stem; [done|]. destruct tail; [done|].
    rewrite ?length_append. cbn [String.length]. lia. }
  rewrite Hsuf.
  replace (dir +:+ String "/" (stem +:+ String "." tail))
    with ((dir +:+ String "/" stem) +:+ String "." tail)
    by (rewrite !append_assoc; done).
  rewrite (length_append (dir +:+ String "/" stem)).
  replace (String.length (dir +:+ String "/" stem)
           + String.length (String "." tail) - String.length (String "." tail))%nat
    with (String.length (dir +:+ String "/" stem)) by lia.
  by rewrite substring_append_l.
Qed.

End string_facts.

Section dotted_params.
Context `{Runtime}.

(** X21.  The results file is named by [with_suffix('.pkl')], which
    replaces what follows the last dot of the parameter string.  Two
    analyses whose parameter strings are equal up to their last dot, such
    as [alpha=0.5] and [alpha=0.25] in last position, are therefore
    saved to and loaded from the same file. *)
Theorem results_path_cut_at_last_dot stim_types func1 params1 func2 params2
    stem tail1 tail2 :
  build_param_str func1 params1 = stem +:+ "." +:+ tail1 →
  build_param_str func2 params2 = stem +:+ "." +:+ tail2 →
  stem ≠ "" → tail1 ≠ "" → tail2 ≠ "" →
  "/"%char ∉ list_ascii_of_string stem →
  ("/"%char ∉ list_ascii_of_string tail1) ∧
    ("."%char ∉ list_ascii_of_string tail1) →
  ("/"%char ∉ list_ascii_of_string tail2) ∧
    ("."%char ∉ list_ascii_of_string tail2) →
  run_analysis_results_path stim_types func1 params1
  = Ok (Path.make [HIERARCHY_ROOT; "results"; results_subdir stim_types; stem]
          +:+ ".pkl") ∧
  run_analysis_results_path stim_types func2 params2
  = run_analysis_results_path stim_types func1 params1 ∧
  load_results_path stim_types func2 params2
  = run_analysis_results_path stim_types func1 params1.
Proof.
  intros H1 H2 Hstem Ht1 Ht2 Hs [Hs1 Hd1] [Hs2 Hd2].
  unfold run_analysis_results_path, load_results_path. rewrite H1, H2.
  rewrite !with_suffix_after_dot by done.
  split_and!; done.
Qed.

End dotted_params.

Lemma results_path_cut_at_last_dot_witness :
  run_analysis_results_path (H := example_runtime) [12] (FStr "coch_kernel")
    [("alpha", VStr "0.5")]
  = Ok (Path.make [HIERARCHY_ROOT (Runtime := example_runtime); "results";
                   results_subdir [12]; "coch_kernel--alpha=0"] +:+ ".pkl") ∧
  run_analysis_results_path (H := example_runtime) [12] (FStr "coch_kernel")
    [("alpha", VStr "0.25")]
  = run_analysis_results_path (H := example_runtime) [12] (FStr "coch_kernel")
      [("alpha", VStr "0.5")] ∧
  load_results_path (H := example_runtime) [12] (FStr "coch_kernel")
    [("alpha", VStr "0.25")]
  = run_analysis_results_path (H := example_runtime) [12] (FStr "coch_kernel")
      [("alpha", VStr "0.5")].
Proof.
  apply (results_path_cut_at_last_dot (H := example_runtime) [12]
           (FStr "coch_kernel") [("alpha", VStr "0.5")]
           (FStr "coch_kernel") [("alpha", VStr "0.25")]
           "coch_kernel--alpha=0" "5" "25").
  - reflexivity.
  - reflexivity.
  - done.
  - done.
  - done.
  - apply (bool_decide_unpack _). by vm_compute.
  - split; apply (bool_decide_unpack _); by vm_compute.
  - split; apply (bool_decide_unpack _); by vm_compute.
Defined.

(** ** One results file per cluster *)

Section multiple_files.
Context `{Runtime}.

Lemma multiple_files_body func params dir raw c w r w1 :
  (uid ← lift (cluster_get c "unique_id");
   uid ← lift (match uid with VStr s => Ok s | _ => Raise TypeError end);
   let param_str := uid +:+ "--" +:+ raw in
   let results_path := Path.div dir (param_str +:+ ".pkl") in
   exists_ ← gets (path_exists results_path);
   if exists_ && negb false then mret tt
   else
     r ← apply_func_to_cluster func c params true;
     if truthy r then dump_pickle results_path r else mret tt) w = (r, w1) →
  files_kept w w1 ∧
  (∀ p, files w1 !! p = None → files w !! p = None) ∧
  (calls w1 = calls w ∨
   calls w1 = calls w ++ [c] ∧
   ∃ s, c !! "unique_id" = Some (VStr s) ∧
        files w !! Path.div dir ((s +:+ "--" +:+ raw) +:+ ".pkl") = None).
Proof.
  assert (∀ e, (Raise e : result unit, w) = (r, w1) →
    files_kept w w1 ∧
    (∀ p, files w1 !! p = None → files w !! p = None) ∧
    (calls w1 = calls w ∨
     calls w1 = calls w ++ [c] ∧
     ∃ s, c !! "unique_id" = Some (VStr s) ∧
          files w !! Path.div dir ((s +:+ "--" +:+ raw) +:+ ".pkl") = None))
    as Hraise.
  { intros e [= _ <-]. split_and!; [by intros ??|done|by left]. }
  rewrite lift_bind. unfold cluster_get.
  destruct (c !! "unique_id") as [uid|] eqn:Huid; [|by apply Hraise].
  cbn [of_option]. rewrite lift_bind.
  destruct uid as [| | | |s| | | |]; try (by apply Hraise).
  cbv zeta. rewrite gets_bind. rewrite andb_true_r.
  destruct (path_exists _ w) eqn:Hex.
  { intros [= _ <-]. split_and!; [by intros ??|done|by left]. }
  assert (files w !! Path.div dir ((s +:+ "--" +:+ raw) +:+ ".pkl") = None)
    as Hnone.
  { unfold path_exists in Hex. apply orb_false_iff in Hex as [Hex _].
    apply bool_decide_eq_false in Hex.
    destruct (files w !! _) eqn:E; [|done]. destruct Hex. by eexists. }
  rewrite M_bind_unfold.
  destruct (apply_func_to_cluster func c params true w) as [r1 w0] eqn:Ha.
  pose proof (apply_func_to_cluster_inv _ _ _ _ _ _ _ Ha) as ->.
  destruct r1 as [r1|e].
  - destruct (truthy r1).
    + intros [(_ & _ & ->)|(? & _ & _ & ->)]%dump_pickle_inv; split_and!.
      * intros p v Hp.
        cbn [files with_pickle set_truncated set_files log_call].
        rewrite lookup_insert_ne; [done|]. intros <-. congruence.
      * intros p. cbn [files with_pickle set_truncated set_files log_call].
        destruct (decide (Path.div dir ((s +:+ "--" +:+ raw) +:+ ".pkl") = p))
          as [<-|Hne]; [by rewrite lookup_insert_eq|].
        by rewrite lookup_insert_ne.
      * right. split; [done|]. by exists s.
      * intros p v Hp.
        cbn [files without_pickle set_truncated set_files log_call].
        rewrite lookup_delete_ne; [done|]. intros <-. congruence.
      * intros p. cbn [files without_pickle set_truncated set_files log_call].
        destruct (decide (Path.div dir ((s +:+ "--" +:+ raw) +:+ ".pkl") = p))
          as [<-|Hne]; [done|].
        by rewrite lookup_delete_ne.
      * right. split; [done|]. by exists s.
    + intros [= _ <-]. split_and!; [by intros ??|done|].
      right. split; [done|]. by exists s.
  - intros [= _ <-]. split_and!; [by intros ??|done|].
    right. split; [done|]. by exists s.
Qed.

Lemma multiple_files_loop func params dir raw window w r w' :
  for_each
    (λ c,
       uid ← lift (cluster_get c "unique_id");
       uid ← lift (match uid with VStr s => Ok s | _ => Raise TypeError end);
       let param_str := uid +:+ "--" +:+ raw in
       let results_path := Path.div dir (param_str +:+ ".pkl") in
       exists_ ← gets (path_exists results_path);
       if exists_ && negb false then mret tt
       else
         r ← apply_func_to_cluster func c params true;
         if truthy r then dump_pickle results_path r else mret tt)
    window w = (r, w') →
  files_kept w w' ∧
  ∃ called,
    calls w' = calls w ++ called ∧
    called `sublist_of` window ∧
    Forall (λ c, ∃ s, c !! "unique_id" = Some (VStr s) ∧
                      files w !! Path.div dir ((s +:+ "--" +:+ raw) +:+ ".pkl")
                      = None) called.
Proof.
  revert w. induction window as [|c window IH]; intros w.
  - intros [= _ <-]. split; [by intros ??|]. exists [].
    rewrite app_nil_r. split_and!; [done|done|constructor].
  - unfold for_each. cbn [for_fold]. intros Hrun.
    apply M_bind_inv in Hrun as [([] & w1 & Hbody & Hrest)|(e & Hbody & ->)].
    + apply multiple_files_body in Hbody as (Hk1 & Hn1 & Hc1).
      destruct (IH _ Hrest) as (Hkept & called & Hcalls & Hsub & Hall).
      split; [intros p v Hp; by apply Hkept, Hk1|].
      assert (Forall (λ c, ∃ s, c !! "unique_id" = Some (VStr s) ∧
                files w !! Path.div dir ((s +:+ "--" +:+ raw) +:+ ".pkl")
                = None) called) as Hall'.
      { eapply Forall_impl; [exact Hall|]. cbn beta.
        intros c' (s' & ? & Hn). exists s'. split; [done|]. by apply Hn1. }
      destruct Hc1 as [Hc1|(Hc1 & Hs)].
      * exists called. split_and!; [by rewrite Hcalls, Hc1| |done].
        by apply sublist_cons.
      * exists (c :: called). split_and!.
        -- rewrite Hcalls, Hc1. by rewrite <-app_assoc.
        -- by apply sublist_skip.
        -- by constructor.
    + apply multiple_files_body in Hbody as (Hk1 & Hn1 & Hc1).
      split; [done|].
      destruct Hc1 as [Hc1|(Hc1 & Hs)].
      * exists []. rewrite app_nil_r.
        split_and!; [done|apply sublist_nil_l|constructor].
      * exists [c]. split_and!; [done|by apply sublist_skip, sublist_nil_l|].
        by repeat constructor.
Qed.

(** X22.  With one results file per cluster and [ignore_existing=False],
    a run never changes or removes a file that exists, whatever it
    returns or raises.  It applies [func] only to clusters of the list
    whose own file, [<unique_id>--<parameter string>.pkl] in the results
    directory, was not there when the run started; and when it returns,
    it returns [None]. *)
Theorem run_analysis_multiple_files_resumes func params this_data_segment
    total_data_segments fail_on_error load_analyses_first w r w' :
  run_analysis func params true true false this_data_segment
               total_data_segments fail_on_error load_analyses_first w
  = (r, w') →
  (∀ p v, files w !! p = Some v → files w' !! p = Some v) ∧
  (∀ res, r = Ok res → res = VNone) ∧
  ∃ called,
    calls w' = calls w ++ called ∧
    ∀ c, c ∈ called →
      ∃ f s,
        resolve_func func = Ok f ∧ c !! "unique_id" = Some (VStr s) ∧
        files w !! Path.div
                     (run_analysis_results_dir (self_stim_types w)
                        (FCallable f) params)
                     ((s +:+ "--" +:+ build_param_str (FCallable f) params)
                        +:+ ".pkl")
        = None.
Proof.
  intros Hrun.
  apply run_analysis_multiple_files_inv in Hrun
    as [(e & -> & Hf & Hc & _)
       |(f & window & w1 & Hf & (Hf1 & Hc1 & _ & _) & Hrun)].
  { split_and!; [by intros ??; rewrite Hf|done|]. exists [].
    rewrite app_nil_r. split; [done|]. by intros c ?%elem_of_nil. }
  unfold run_multiple_files in Hrun.
  apply M_bind_inv in Hrun as [([] & w2 & Hloop & Hret)|(e & Hloop & ->)].
  - injection Hret as <- <-.
    apply multiple_files_loop in Hloop as (Hkept & called & Hcalls & _ & Hall).
    split_and!.
    + intros p v Hp. apply Hkept. by rewrite Hf1.
    + by intros res [= <-].
    + exists called. split; [by rewrite Hcalls, Hc1|].
      intros c Hc. rewrite Forall_forall in Hall.
      destruct (Hall c Hc) as (s & Hs & Hn). exists f, s.
      split_and!; [done..|]. by rewrite <-Hf1.
  - apply multiple_files_loop in Hloop as (Hkept & called & Hcalls & _ & Hall).
    split_and!.
    + intros p v Hp. apply Hkept. by rewrite Hf1.
    + done.
    + exists called. split; [by rewrite Hcalls, Hc1|].
      intros c Hc. rewrite Forall_forall in Hall.
      destruct (Hall c Hc) as (s & Hs & Hn). exists f, s.
      split_and!; [done..|]. by rewrite <-Hf1.
Qed.

End multiple_files.

Lemma run_analysis_multiple_files_resumes_witness :
  let out := run_analysis (H := example_runtime) (FStr "coch_kernel")
               example_params true true false 1 1 false None
               example_resumed_world in
  (∀ p v, files example_resumed_world !! p = Some v →
          files out.2 !! p = Some v) ∧
  (∀ res, out.1 = Ok res → res = VNone) ∧
  ∃ called,
    calls out.2 = calls example_resumed_world ++ called ∧
    ∀ c, c ∈ called →
      ∃ f s,
        resolve_func (H := example_runtime) (FStr "coch_kernel") = Ok f ∧
        c !! "unique_id" = Some (VStr s) ∧
        files example_resumed_world
          !! Path.div
               (run_analysis_results_dir (H := example_runtime)
                  (self_stim_types example_resumed_world) (FCallable f)
                  example_params)
               ((s +:+ "--" +:+ build_param_str (H := example_runtime)
                                  (FCallable f) example_params) +:+ ".pkl")
        = None.
Proof.
  intros out.
  apply (run_analysis_multiple_files_resumes (H := example_runtime)
           (FStr "coch_kernel") example_params 1 1 false None
           example_resumed_world out.1 out.2).
  apply surjective_pairing.
Defined.

(** ** A run, then a load *)

Section run_then_load.
Context `{Runtime}.

(** a result of [apply_func_to_cluster] that counts comes from a true
    value returned by [func] *)
Lemma apply_func_to_cluster_dict func c params fail_on_error w r w' :
  apply_func_to_cluster func c params fail_on_error w = (Ok r, w') →
  truthy r = true →
  ∃ uid result,
    c !! "unique_id" = Some uid ∧
    r = VDict (Dict.set (fn_name func) result [("unique_id", uid)]) ∧
    fn_call func c (self_clusters w) params = Ok result ∧
    truthy result = true.
Proof.
  unfold apply_func_to_cluster. rewrite gets_bind, modify_bind.
  assert (∀ (result : value) w0,
            (if negb (truthy result) then mret VNone
             else uid ← lift (cluster_get c "unique_id");
                  mret (VDict (Dict.set (fn_name func) result
                                 [("unique_id", uid)]))) w0 = (Ok r, w') →
            truthy r = true →
            ∃ uid,
              c !! "unique_id" = Some uid ∧
              r = VDict (Dict.set (fn_name func) result [("unique_id", uid)]) ∧
              truthy result = true) as Htail.
  { intros result w0. destruct (truthy result) eqn:Ht; cbn [negb].
    - rewrite lift_bind. unfold cluster_get.
      destruct (c !! "unique_id") as [uid|]; [|done]. cbn [of_option].
      intros [= <- <-] _. by exists uid.
    - by intros [= <- <-]. }
  destruct fail_on_error.
  - rewrite lift_bind.
    destruct (fn_call func c (self_clusters w) params) as [result|e]; [|done].
    intros Hrun Ht. destruct (Htail _ _ Hrun Ht) as (uid & ? & ? & ?).
    by exists uid, result.
  - rewrite M_bind_unfold. unfold try_except, lift.
    destruct (fn_call func c (self_clusters w) params) as [result|e].
    + intros Hrun Ht. destruct (Htail _ _ Hrun Ht) as (uid & ? & ? & ?).
      by exists uid, result.
    + cbn [mret M_ret]. intros Hrun Ht.
      by destruct (Htail VNone _ Hrun Ht) as (uid & ? & ? & ?).
Qed.

(** the entries a loop that ignores the stored results appends *)
Lemma ignore_loop_items func params fail_on_error window acc w res w' :
  for_fold
    (λ res c,
       uid ← lift (cluster_get c "unique_id");
       if py_in uid [] && negb true then mret res
       else
         r ← apply_func_to_cluster func c params fail_on_error;
         if truthy r then lift (py_append res r) else mret res)
    (VList acc) window w = (Ok res, w') →
  ∃ added,
    res = VList (acc ++ added) ∧
    Forall (λ item, ∃ c uid result,
              c ∈ window ∧ c !! "unique_id" = Some uid ∧
              item = VDict (Dict.set (fn_name func) result [("unique_id", uid)]) ∧
              fn_call func c (self_clusters w) params = Ok result ∧
              truthy result = true) added.
Proof.
  revert acc w. induction window as [|c window IH]; intros acc w.
  - intros [= <- _]. exists []. by rewrite app_nil_r.
  - cbn [for_fold]. intros Hrun.
    apply M_bind_inv in Hrun as [(acc1 & w1 & Hbody & Hrest)|(? & _ & [=])].
    rewrite lift_bind in Hbody.
    destruct (cluster_get c "unique_id") as [uid|]; [|done].
    rewrite andb_false_r in Hbody.
    apply M_bind_inv in Hbody as [(r1 & w0 & Ha & Hb)|(? & _ & [=])].
    pose proof (apply_func_to_cluster_inv _ _ _ _ _ _ _ Ha) as ->.
    destruct (truthy r1) eqn:Ht.
    + destruct (apply_func_to_cluster_dict _ _ _ _ _ _ _ Ha Ht)
        as (uid' & result & Huid & -> & Hcall & Htr).
      unfold lift in Hb. cbn [py_append] in Hb. injection Hb as <- <-.
      destruct (IH _ _ Hrest) as (added & -> & Hall).
      eexists (_ :: added). split; [by rewrite <-app_assoc|].
      constructor.
      * exists c, uid', result. split_and!; [by left|done..].
      * eapply Forall_impl; [exact Hall|]. cbn beta.
        intros item (c' & u & rs & ? & ? & ? & ? & ?).
        exists c', u, rs. split_and!; [by right|done..].
    + injection Hb as <- <-.
      destruct (IH _ _ Hrest) as (added & -> & Hall).
      exists added. split; [done|].
      eapply Forall_impl; [exact Hall|]. cbn beta.
      intros item (c' & u & rs & ? & ? & ? & ? & ?).
      exists c', u, rs. split_and!; [by right|done..].
Qed.

Lemma build_param_str_label func1 func2 params :
  func_label func1 = func_label func2 →
  build_param_str func1 params = build_param_str func2 params.
Proof. unfold build_param_str. by intros ->. Qed.

Lemma Dict_get_set_eq k v d : Dict.get k (Dict.set k v d) = Some v.
Proof.
  induction d as [|[k' v'] d IH]; cbn.
  - by rewrite bool_decide_eq_true_2.
  - case_bool_decide as Hk; cbn.
    + by rewrite bool_decide_eq_true_2.
    + by rewrite bool_decide_eq_false_2.
Qed.

Lemma Dict_get_set_ne k k' v d :
  k ≠ k' → Dict.get k (Dict.set k' v d) = Dict.get k d.
Proof.
  intros Hne. induction d as [|[k0 v0] d IH]; cbn.
  - by rewrite bool_decide_eq_false_2.
  - case_bool_decide as Hk; cbn.
    + subst k0. by rewrite !bool_decide_eq_false_2.
    + case_bool_decide; [done|]. apply IH.
Qed.

Lemma Dict_set_fresh fname result uid :
  fname ≠ "unique_id" →
  Dict.set fname result [("unique_id", uid)]
  = [("unique_id", uid); (fname, result)].
Proof. intros Hne. cbn. by rewrite bool_decide_eq_false_2 by congruence. Qed.

Lemma tag_result_fresh func params uid fname d :
  fname ≠ "unique_id" →
  tag_result func params (VDict [("unique_id", uid); (fname, VDict d)])
  = Ok (VDict [("unique_id", uid);
               (fname, VDict (Dict.update d
                                [("analysis_func", func_value func);
                                 ("analysis_params", VDict params)]))]).
Proof.
  intros Hne. unfold tag_result. cbn [Dict.keys fmap list_fmap fst].
  rewrite !filter_cons, filter_nil.
  destruct (decide ("unique_id" ≠ "unique_id")); [done|].
  destruct (decide (fname ≠ "unique_id")); [|done].
  cbn [head of_option mbind result_bind Dict.get].
  rewrite bool_decide_eq_false_2 by congruence.
  rewrite bool_decide_eq_true_2 by done.
  cbn [mbind result_bind Dict.set].
  rewrite bool_decide_eq_false_2 by congruence.
  by rewrite bool_decide_eq_true_2.
Qed.

Lemma entry_payload_fresh uid fname v :
  fname ≠ "unique_id" →
  entry_payload (VDict [("unique_id", uid); (fname, v)]) = Ok v.
Proof.
  intros Hne. unfold entry_payload.
  cbn [py_iter Dict.keys fmap list_fmap fst mbind result_bind].
  rewrite !filter_cons, filter_nil.
  destruct (decide (py_in (VStr "unique_id") [VStr "unique_id"] = false))
    as [Hd|_]; [by vm_compute in Hd|].
  destruct (decide (py_in (VStr fname) [VStr "unique_id"] = false)) as [_|Hd].
  - cbn [head of_option mbind result_bind Dict.get].
    rewrite bool_decide_eq_false_2 by congruence.
    by rewrite bool_decide_eq_true_2.
  - destruct Hd. cbn. rewrite bool_decide_eq_false_2 by congruence. done.
Qed.

(** merging entries of this shape whose ids are known succeeds *)
Lemma for_each_merge_fresh ids nf entries w :
  nf ≠ "" → length ids = length (self_clusters w) →
  Forall (λ entry, ∃ uid fname v,
            entry = VDict [("unique_id", uid); (fname, v)] ∧
            fname ≠ "unique_id" ∧
            is_Some (list_find (λ u, py_eq u uid = true) ids)) entries →
  ∃ w', for_each (merge_one ids (Some nf)) entries w = (Ok tt, w').
Proof.
  intros Hnf Hlen Hall. revert w Hlen.
  induction Hall as [|entry entries (uid & fname & v & -> & Hne & [[i id] Hfind])
                       _ IH]; intros w Hlen.
  - by eexists.
  - assert (∃ target, self_clusters w !! i = Some target) as [target Ht].
    { apply lookup_lt_is_Some_2. rewrite <-Hlen.
      apply list_find_Some in Hfind as (Hi & _). by eapply lookup_lt_Some. }
    destruct (IH (set_clusters (<[i := <[nf := v]> target]> (self_clusters w)) w))
      as [w' Hrest].
    { cbn [self_clusters set_clusters]. by rewrite length_insert. }
    exists w'. unfold for_each. cbn [for_fold]. rewrite M_bind_unfold.
    assert (merge_one ids (Some nf) (VDict [("unique_id", uid); (fname, v)]) w
            = (Ok tt,
               set_clusters (<[i := <[nf := v]> target]> (self_clusters w)) w))
      as ->; [|exact Hrest].
    unfold merge_one. rewrite lift_bind. unfold entry_index.
    cbn [getitem Dict.get]. rewrite bool_decide_eq_true_2 by done.
    cbn [of_option mbind result_bind]. rewrite Hfind.
    cbn [of_option mbind result_bind fst].
    rewrite gets_bind, lift_bind, Ht. cbn [of_option]. rewrite lift_bind.
    unfold merged_cluster. cbn [fieldname_given].
    rewrite bool_decide_eq_false_2 by done.
    rewrite entry_payload_fresh by done. cbn [mbind result_bind]. done.
Qed.

Lemma single_file_loop_only_calls func params fail_on_error ignore_existing
    processed_ids window acc :
  respects only_calls
    (for_fold
       (λ res c,
          uid ← lift (cluster_get c "unique_id");
          if py_in uid processed_ids && negb ignore_existing then mret res
          else
            r ← apply_func_to_cluster func c params fail_on_error;
            if truthy r then lift (py_append res r) else mret res)
       acc window).
Proof.
  repeat first
    [ apply apply_func_to_cluster_respects; by intros ?
    | respects_step ].
Qed.

(** tagging the entries of a run *)
Lemma tag_results_fresh func params fname (items : list value) :
  fname ≠ "unique_id" →
  Forall (λ item, ∃ uid d, item = VDict [("unique_id", uid); (fname, VDict d)])
         items →
  ∃ tagged,
    mapM (tag_result func params) items = Ok tagged ∧
    Forall2 (λ item t, ∃ uid d,
               item = VDict [("unique_id", uid); (fname, VDict d)] ∧
               t = VDict [("unique_id", uid);
                          (fname, VDict (Dict.update d
                                           [("analysis_func", func_value func);
                                            ("analysis_params", VDict params)]))])
            items tagged.
Proof.
  intros Hne. induction 1 as [|item items (uid & d & ->) _ (tagged & IH1 & IH2)].
  - exists []. split; [done|constructor].
  - eexists (_ :: tagged). split.
    + cbn [mapM]. rewrite tag_result_fresh by done. cbn [mbind result_bind].
      rewrite IH1. cbn [mbind result_bind]. reflexivity.
    + constructor; [|done]. by exists uid, d.
Qed.

Lemma list_find_str_Some (ids : list value) s :
  VStr s ∈ ids →
  is_Some (list_find (λ u, py_eq u (VStr s) = true) ids).
Proof.
  intros Hin. eapply list_find_elem_of; [exact Hin|].
  cbn. by apply bool_decide_eq_true.
Qed.

(** X23.  A single-file run that ignores stored results, followed by
    [load_results] for the same function and parameters: when [func]
    returns dicts (or nothing) and at least one cluster gave a result,
    the load finds the file the run wrote, merges without error, and for
    every entry of the returned list the cluster with that id holds,
    under the field name of the load, a dict that records
    ['analysis_func'] and ['analysis_params']. *)
Theorem run_analysis_then_load_results func params this_data_segment
    total_data_segments fail_on_error fieldname w items w1 f :
  run_analysis func params true false true this_data_segment
               total_data_segments fail_on_error None w
  = (Ok (VList items), w1) →
  resolve_func func = Ok f → func_label func = fn_name f →
  fn_name f ≠ "unique_id" →
  Forall (λ c, ∃ s, c !! "unique_id" = Some (VStr s)) (self_clusters w) →
  (∀ c v, fn_call f c (self_clusters w) params = Ok v → truthy v = true →
          ∃ d, v = VDict d) →
  items ≠ [] →
  load_results_fieldname func params fieldname ≠ "" →
  ∃ w2,
    load_results func params fieldname w1 = (Ok tt, w2) ∧
    ∀ item, item ∈ items →
      ∃ uid i c c' payload,
        getitem item "unique_id" = Ok uid ∧
        self_clusters w !! i = Some c ∧ c !! "unique_id" = Some uid ∧
        self_clusters w2 !! i = Some c' ∧
        c' !! load_results_fieldname func params fieldname
        = Some (VDict payload) ∧
        Dict.get "analysis_func" payload = Some (func_value func) ∧
        Dict.get "analysis_params" payload = Some (VDict params).
Proof.
  intros Hrun Hf Hlabel Hname Hstr Hdict Hitems Hnf.
  (* the run *)
  unfold run_analysis in Hrun. rewrite gets_bind, lift_bind in Hrun.
  destruct (ceil_div _ _) as [segment_length|]; [|done].
  rewrite lift_bind, Hf, ret_bind, gets_bind in Hrun. cbn [negb] in Hrun.
  rewrite gets_bind, lift_bind in Hrun.
  destruct (run_analysis_results_path _ _ _) as [path|] eqn:Hpath; [|done].
  rewrite run_single_file_ignore_existing in Hrun.
  apply M_bind_inv in Hrun as [(res1 & w' & Hloop & Hrun)|(? & _ & [=])].
  rewrite dump_pickle_bind in Hrun.
  destruct (py_pickle_error res1); [done|].
  injection Hrun as -> <-.
  destruct (single_file_loop_only_calls f params fail_on_error true []
              _ _ _ _ _ Hloop) as (Hfiles & Hstim & Hcl).
  apply ignore_loop_items in Hloop as (added & [= ->] & Hshape).
  cbn [app] in Hitems |- *.
  set (w1 := with_pickle path (VList added) w').
  assert (self_clusters w1 = self_clusters w) as Hcl1 by done.
  assert (self_stim_types w1 = self_stim_types w) as Hstim1 by done.
  (* every entry has the shape the tagging expects *)
  assert (Forall (λ item, ∃ uid d,
            item = VDict [("unique_id", uid); (fn_name f, VDict d)]) added)
    as Hshape'.
  { eapply Forall_impl; [exact Hshape|]. cbn beta.
    intros item (c & uid & result & _ & _ & -> & Hcall & Ht).
    destruct (Hdict c result Hcall Ht) as [d ->].
    rewrite Dict_set_fresh by done. by exists uid, d. }
  assert (Forall (λ item, ∃ s, getitem item "unique_id" = Ok (VStr s) ∧
                               ∃ c, c ∈ self_clusters w ∧
                                    c !! "unique_id" = Some (VStr s)) added)
    as Hids'.
  { eapply Forall_impl; [exact Hshape|]. cbn beta.
    intros item (c & uid & result & Hc%elem_of_py_slice & Huid & -> & _).
    rewrite Forall_forall in Hstr. destruct (Hstr c Hc) as [s Hs].
    rewrite Huid in Hs. injection Hs as ->.
    rewrite Dict_set_fresh by done. exists s. split; [|by exists c].
    cbn. by rewrite bool_decide_eq_true_2. }
  destruct (tag_results_fresh func params (fn_name f) added Hname Hshape')
    as (tagged & Htag & Htagged).
  (* the ids of the clusters *)
  assert (∃ names, mapM (λ d, cluster_get d "unique_id") (self_clusters w)
                   = Ok (VStr <$> names) ∧
                   Forall2 (λ c n, c !! "unique_id" = Some (VStr n))
                           (self_clusters w) names) as (names & Hids & Hnames).
  { assert (∃ names, Forall2 (λ c n, c !! "unique_id" = Some (VStr n))
                               (self_clusters w) names) as [names Hn].
    { clear -Hstr. induction Hstr as [|c cs [s Hs] _ (names & IH)].
      - exists []. constructor.
      - exists (s :: names). by constructor. }
    exists names. split; [|done].
    apply mapM_Ok_Forall2, Forall2_fmap_r.
    eapply Forall2_impl; [exact Hn|]. cbn beta. intros c n Hc.
    unfold cluster_get. by rewrite Hc. }
  (* the merge succeeds *)
  assert (Forall (λ entry, ∃ uid fname v,
            entry = VDict [("unique_id", uid); (fname, v)] ∧
            fname ≠ "unique_id" ∧
            is_Some (list_find (λ u, py_eq u uid = true) (VStr <$> names)))
            tagged) as Hfresh.
  { apply Forall_forall. intros t Ht.
    apply list_elem_of_lookup in Ht as [k Hk].
    destruct (Forall2_lookup_r _ _ _ _ _ Htagged Hk)
      as (item & Hitem & uid & d & -> & ->).
    rewrite Forall_forall in Hids'.
    destruct (Hids' _ (list_elem_of_lookup_2 _ _ _ Hitem))
      as (s & Hget & c & Hc & Hcs).
    cbn in Hget. rewrite bool_decide_eq_true_2 in Hget by done.
    apply Ok_inj in Hget as ->.
    eexists _, _, _. split; [done|]. split; [done|].
    apply list_find_str_Some.
    apply list_elem_of_lookup in Hc as [j Hj].
    destruct (Forall2_lookup_l _ _ _ _ _ Hnames Hj) as (n & Hn & Hcn).
    rewrite Hcs in Hcn. injection Hcn as ->.
    apply list_elem_of_fmap. exists n. split; [done|].
    by eapply list_elem_of_lookup_2. }
  destruct (for_each_merge_fresh (VStr <$> names)
              (load_results_fieldname func params fieldname) tagged w1 Hnf)
    as [w2 Hmerge]; [|done|].
  { rewrite Hcl1, length_fmap. symmetry. by eapply Forall2_length. }
  destruct tagged as [|first tagged'] eqn:Etagged.
  { apply Forall2_length in Htagged. destruct added; [done|]. done. }
  assert (py_contains "unique_id" first = Ok true) as Hfirst.
  { inversion Hfresh as [|? ? (uid & fname & v & -> & _) _]; subst.
    cbn. by rewrite bool_decide_eq_true_2 by (left). }
  rewrite <-Etagged in *.
  assert (merge_results (VList tagged)
            (Some (load_results_fieldname func params fieldname)) w1
          = (Ok tt, w2)) as Hmr.
  { unfold merge_results. rewrite gets_bind, lift_bind, Hcl1, Hids.
    rewrite lift_bind. rewrite Etagged at 1.
    cbn [head of_option mbind result_bind]. rewrite Hfirst.
    rewrite lift_bind. cbn [py_iter]. exact Hmerge. }
  exists w2. split.
  - (* the load takes the first branch *)
    unfold load_results. rewrite gets_bind, Hstim1.
    change (match fieldname with
            | Some f0 => if bool_decide (f0 = "")
                         then build_fieldname func params else f0
            | None => build_fieldname func params
            end) with (load_results_fieldname func params fieldname).
    unfold try_except at 1.
    assert (load_results_path (self_stim_types w) func params = Ok path) as Hlp.
    { rewrite <-Hpath. unfold load_results_path, run_analysis_results_path.
      by rewrite (build_param_str_label func (FCallable f)). }
    rewrite lift_bind, Hlp. rewrite M_bind_unfold.
    assert (files w1 !! path = Some (VList added)) as Hfile
      by apply lookup_insert_eq.
    unfold load_pickle at 1. rewrite Hfile. cbn [of_option].
    rewrite lift_bind. cbn [py_iter]. rewrite lift_bind, Htag.
    by rewrite Hmr.
  - (* what the merge has put into the clusters *)
    destruct (merge_results_effect _ _ _ _ _ Hmr (VStr <$> names))
      as [_ Hgain]; [by rewrite Hcl1|].
    specialize (Hgain eq_refl).
    assert (merged_entries (self_stim_types w1) (files w1) (VList tagged)
            = tagged) as Hme.
    { unfold merged_entries. rewrite Etagged at 1. cbn [head].
      by rewrite Hfirst. }
    rewrite Hme in Hgain.
    intros item Hitem. apply list_elem_of_lookup in Hitem as [k Hk].
    destruct (Forall2_lookup_l _ _ _ _ _ Htagged Hk)
      as (t & Ht & uid & d & -> & ->).
    rewrite Forall_forall in Hfresh.
    destruct (Hfresh _ (list_elem_of_lookup_2 _ _ _ Ht))
      as (uid' & fname' & v' & [= <- <- <-] & _ & [[i id] Hfind]).
    assert (entry_index (VStr <$> names)
              (VDict [("unique_id", uid);
                      (fn_name f,
                       VDict (Dict.update d
                                [("analysis_func", func_value func);
                                 ("analysis_params", VDict params)]))])
            = Ok i) as Hidx.
    { unfold entry_index. cbn [getitem Dict.get].
      rewrite bool_decide_eq_true_2 by done.
      cbn [of_option mbind result_bind]. by rewrite Hfind. }
    destruct (Hgain (load_results_fieldname func params fieldname) i)
      as (entry & v & c' & Hin & Hidx' & Hpay & Hc' & Hfield).
    { cbn. by rewrite bool_decide_eq_false_2. }
    { eexists. split; [by eapply list_elem_of_lookup_2|done]. }
    (* the cluster at [i] carries this id *)
    apply list_find_Some in Hfind as (Hi & Heq & _).
    rewrite list_lookup_fmap in Hi.
    destruct (names !! i) as [n|] eqn:Hn; [|done]. injection Hi as <-.
    destruct (Forall2_lookup_r _ _ _ _ _ Hnames Hn) as (c & Hc & Hcn).
    destruct uid as [| | | |s| | | |]; try done.
    cbn in Heq. apply bool_decide_eq_true in Heq as ->.
    (* the entry merged at [i] is a tagged entry *)
    apply list_elem_of_lookup in Hin as [k' Hk'].
    destruct (Forall2_lookup_r _ _ _ _ _ Htagged Hk')
      as (item' & _ & uid' & d' & _ & ->).
    rewrite entry_payload_fresh in Hpay by done. apply Ok_inj in Hpay as <-.
    exists (VStr s), i, c, c', (Dict.update d'
                                  [("analysis_func", func_value func);
                                   ("analysis_params", VDict params)]).
    split_and!; [|done|done|done|done| |].
    + cbn. by rewrite bool_decide_eq_true_2.
    + unfold Dict.update. cbn [foldl fst snd].
      rewrite Dict_get_set_ne by done. apply Dict_get_set_eq.
    + unfold Dict.update. cbn [foldl fst snd]. apply Dict_get_set_eq.
Qed.

End run_then_load.

Lemma run_analysis_then_load_results_witness :
  let first := run_analysis (H := example_runtime) (FStr "coch_kernel")
                 example_params true false true 1 1 false None
                 example_world in
  ∃ items w2,
    first.1 = Ok (VList items) ∧
    load_results (H := example_runtime) (FStr "coch_kernel") example_params
                 (Some "coch_kernel_main") first.2 = (Ok tt, w2) ∧
    ∀ item, item ∈ items →
      ∃ uid i c c' payload,
        getitem item "unique_id" = Ok uid ∧
        self_clusters example_world !! i = Some c ∧
        c !! "unique_id" = Some uid ∧
        self_clusters w2 !! i = Some c' ∧
        c' !! load_results_fieldname (H := example_runtime)
                (FStr "coch_kernel") example_params (Some "coch_kernel_main")
        = Some (VDict payload) ∧
        Dict.get "analysis_func" payload
        = Some (func_value (FStr "coch_kernel")) ∧
        Dict.get "analysis_params" payload = Some (VDict example_params).
Proof.
  intros first.
  assert (∃ items, first.1 = Ok (VList items) ∧ items ≠ [])
    as (items & Hitems & Hne)
    by (eexists; split; [vm_compute; reflexivity|done]).
  exists items.
  destruct (run_analysis_then_load_results (H := example_runtime)
              (FStr "coch_kernel") example_params 1 1 false
              (Some "coch_kernel_main") example_world items first.2
              example_analysis) as (w2 & Hload & Hall).
  - rewrite <-Hitems. apply surjective_pairing.
  - reflexivity.
  - reflexivity.
  - done.
  - repeat constructor; by eexists.
  - intros c v. cbn. destruct (c !! "noiseratio"); [|done].
    intros [= <-] _. by eexists.
  - exact Hne.
  - done.
  - exists w2. split; [exact Hitems|]. split; [exact Hload|exact Hall].
Defined.
(** ** The windows of the batch jobs, and what each job computes *)

Global Instance same_calls_refl : Reflexive same_calls.
Proof. by intros w. Qed.
Global Instance same_calls_trans : Transitive same_calls.
Proof. unfold same_calls. intros w1 w2 w3 ??. congruence. Qed.

Global Instance same_length_refl : Reflexive same_length.
Proof. by intros w. Qed.
Global Instance same_length_trans : Transitive same_length.
Proof.
  intros w1 w2 w3 [? ?] [? ?]. split; [by etrans|congruence].
Qed.

Section calls_of_a_job.
Context `{Runtime}.












End calls_of_a_job.



(** three clusters and two jobs, in each of the three modes: the first
    job computes the first two clusters, the second job the third *)
Example run_analysis_two_jobs :
  ∀ save_results multiple_results_files,
    calls (run_analysis (H := example_runtime) (FStr "coch_kernel")
             example_params save_results multiple_results_files false 1 2
             false None example_world).2
    = take 2 example_clusters ∧
    calls (run_analysis (H := example_runtime) (FStr "coch_kernel")
             example_params save_results multiple_results_files false 2 2
             false None example_world).2
    = drop 2 example_clusters.
Proof. intros [] []; split; vm_compute; reflexivity. Qed.
(** ** The results file of a save is the one a load opens *)





Section two_processes.
Context (H1 H2 : Runtime).



End two_processes.




Example build_param_str_example :
  build_param_str (H := example_runtime) (FCallable example_analysis)
    example_params
  = "coch_kernel--subset=valid20-all--n_h=13--k_folds=16--regress=ElNet".
Proof. vm_compute. reflexivity. Qed.

Example load_results_path_example :
  load_results_path (H := example_runtime) [12] (FStr "coch_kernel")
    example_params
  = Ok example_results_path.
Proof. vm_compute. reflexivity. Qed.

(** [str()] of a function object gives its address, which differs from
    one process to the next: with such a parameter, the process that
    loads looks for another file than the one that was saved *)
Example results_path_of_another_process :
  load_results_path (H := example_runtime) [12] (FStr "coch_kernel")
    [("kernel", VFunc "ridge")]
  ≠ load_results_path (H := example_runtime_other_process) [12]
      (FStr "coch_kernel") [("kernel", VFunc "ridge")].
Proof. vm_compute. discriminate. Qed.
